(** * Simulation engine of the DeFi simulator: the staking-yield calculator

    Shallow embedding of [src/models.py], [src/simulation.py] and
    [src/simulation_controller.py].

    - A Python [float] is an IEEE 754 binary64 value.  It is modelled
      bit-exactly by [spec_float] and the operations of the standard
      library's [SpecFloat] at [prec = 53] and [emax = 1024].
    - A Python [int] is unbounded and is modelled by [Z].
    - Code that may raise lives in an exception monad; the handler, which
      reads the module-level pool, lives in a state-and-exception monad over
      the process state. *)

From Stdlib Require Import ZArith Bool List String Lia.
From Stdlib Require Import Floats.SpecFloat.
Import ListNotations.
Local Open Scope string_scope.
Local Open Scope Z_scope.

(** ** Python floats *)

Module Float64.

Definition prec : Z := 53.
Definition emax : Z := 1024.

Definition float := spec_float.

Definition mul : float -> float -> float := SFmul prec emax.
Definition div : float -> float -> float := SFdiv prec emax.

(** Nearest binary64 value of an integer, ties to even; the result is an
    infinity exactly when the rounded magnitude reaches [2^emax]. *)
Definition of_Z (z : Z) : float := binary_normalize prec emax z 0 false.

Definition is_nan (x : float) : bool :=
  match x with S754_nan => true | _ => false end.

Definition is_inf (x : float) : bool :=
  match x with S754_infinity _ => true | _ => false end.

Definition is_zero (x : float) : bool :=
  match x with S754_zero _ => true | _ => false end.

(** [math.isfinite]: neither an infinity nor a NaN. *)
Definition is_finite (x : float) : bool :=
  match x with
  | S754_zero _ | S754_finite _ _ _ => true
  | _ => false
  end.

Definition sign_bit (x : float) : bool :=
  match x with
  | S754_zero s | S754_infinity s | S754_finite s _ _ => s
  | S754_nan => false
  end.

(** The comparisons [x == y], [x <= y] and [x < y] of Python floats. *)
Definition eqb : float -> float -> bool := SFeqb.
Definition leb : float -> float -> bool := SFleb.
Definition ltb : float -> float -> bool := SFltb.

Definition zero : float := S754_zero false.

(** A value a Python float can hold: canonical mantissa, exponent in range. *)
Definition valid (x : float) : bool := valid_binary prec emax x.

(** What every rounded result satisfies: at most [prec] mantissa bits and
    an exponent not above the largest one. *)
Definition in_range (x : float) : bool :=
  match x with
  | S754_finite _ m e => (Zdigits2 (Zpos m) <=? prec) && (e <=? emax - prec)
  | _ => true
  end.

(** Bound on the binary magnitude of a finite value: [|x| < 2^b]. *)
Definition magnitude_below (b : Z) (x : float) : bool :=
  match x with
  | S754_zero _ => true
  | S754_finite _ m e => Zdigits2 (Zpos m) + e <=? b
  | _ => false
  end.

(** Nearest integer to [n * 2^e] for [0 <= n], ties to the even integer. *)
Definition round_half_even (n e : Z) : Z :=
  match e with
  | Zneg p =>
      let d := Z.pow_pos 2 p in
      let q := n / d in
      let r := n mod d in
      match 2 * r ?= d with
      | Lt => q
      | Gt => q + 1
      | Eq => if Z.even q then q else q + 1
      end
  | _ => n * 2 ^ e
  end.

(** Nearest binary64 value of the decimal [n * 10^-2] with sign [s]: what a
    correctly rounded string-to-double conversion returns. *)
Definition of_hundredths (s : bool) (n : Z) : float :=
  let '(q, e, l) := SFdiv_core_binary prec emax n 0 100 0 in
  binary_round_aux prec emax s q e l.

End Float64.

Import Float64.

(** ** Python values, exceptions and the process state *)

Inductive PyExc : Type :=
| OverflowError
| ZeroDivisionError
| ValueError.

(** Code that either raises or returns. *)
Definition Exc (A : Type) : Type := (PyExc + A)%type.

Definition exc_ret {A : Type} (a : A) : Exc A := inr a.

Definition exc_bind {A B : Type} (c : Exc A) (k : A -> Exc B) : Exc B :=
  match c with
  | inl e => inl e
  | inr a => k a
  end.

(** [int] to [float] conversion, as done for the [int] operand of a mixed
    arithmetic operation: "int too large to convert to float". *)
Definition float_of_int (z : Z) : Exc float :=
  let x := of_Z z in
  if is_inf x then inl OverflowError else inr x.

(** [x / y] on floats. *)
Definition float_truediv (x y : float) : Exc float :=
  if is_zero y then inl ZeroDivisionError else inr (div x y).

(** [x / n] and [x * n] with [x] a float and [n] an int. *)
Definition float_truediv_int (x : float) (n : Z) : Exc float :=
  exc_bind (float_of_int n) (float_truediv x).

Definition float_mul_int (x : float) (n : Z) : Exc float :=
  exc_bind (float_of_int n) (fun y => exc_ret (mul x y)).

(** [round(x, 2)] on a float: infinities and NaN round to themselves; a
    finite value is rounded, on its exact binary value and with ties to
    even, to two digits after the decimal point, and that decimal is
    converted back to the nearest float ("rounded value too large to
    represent" if this overflows).  The sign is kept, also on zeros. *)
Definition float_round_2 (x : float) : Exc float :=
  match x with
  | S754_finite s m e =>
      match round_half_even (100 * Zpos m) e with
      | Z0 => inr (S754_zero s)
      | n =>
          let y := of_hundredths s n in
          if is_inf y then inl OverflowError else inr y
      end
  | _ => inr x
  end.

Inductive PyVal : Type :=
| VInt (z : Z)
| VFloat (x : float)
| VStr (s : string).

(** A dict with string keys, in insertion order. *)
Definition PyDict : Type := list (string * PyVal).

Fixpoint dict_get (d : PyDict) (k : string) : option PyVal :=
  match d with
  | [] => None
  | (k', v) :: d' => if String.eqb k k' then Some v else dict_get d' k
  end.

(** *** models.py *)

Module Token.
Record t : Type := make { name : string }.
End Token.

Module StakingPool.
Record t : Type := make {
  id : Z;
  token : Token.t;
  name : string;
  apy : float
}.
End StakingPool.

(** *** simulation_controller.py: the request schema and the module state *)

Module SimulationRequest.
Record t : Type := make {
  pool_id : Z;
  amount_staked : float;
  duration_days : Z
}.
End SimulationRequest.

(** The mutable state of the process: the module-level pool object. *)
Record Process : Type := { eth_pool : StakingPool.t }.

(** Code running in the process: it may read and write the state, and it
    either raises or returns; the state survives a raise. *)
Definition Py (A : Type) : Type := Process -> Exc A * Process.

Definition ret {A : Type} (a : A) : Py A := fun st => (inr a, st).

Definition bind {A B : Type} (c : Py A) (k : A -> Py B) : Py B :=
  fun st =>
    match c st with
    | (inl e, st') => (inl e, st')
    | (inr a, st') => k a st'
    end.

Definition lift {A : Type} (c : Exc A) : Py A := fun st => (c, st).

Definition read_global {A : Type} (f : Process -> A) : Py A :=
  fun st => (inr (f st), st).

Declare Scope py_scope.
Delimit Scope py_scope with py.
Notation "x <- c ;; k" := (bind c (fun x => k))
  (at level 61, c at next level, right associativity) : py_scope.
Local Open Scope py_scope.

(** *** simulation.py *)

Definition run_staking_simulation
    (pool : StakingPool.t) (amount_staked : float) (duration_days : Z)
    : Py PyDict :=
  apy_fraction <- lift (float_truediv_int (StakingPool.apy pool) 100) ;;
  daily_rate <- lift (float_truediv_int apy_fraction 365) ;;
  earnings <- lift (float_mul_int (mul amount_staked daily_rate) duration_days) ;;
  rounded <- lift (float_round_2 earnings) ;;
  ret [ ("pool_id", VInt (StakingPool.id pool));
        ("pool_name", VStr (StakingPool.name pool));
        ("amount_staked", VFloat amount_staked);
        ("duration_days", VInt duration_days);
        ("earnings", VFloat rounded) ].

(** *** simulation_controller.py *)

(** The value [apy=25] is an int; the [float] field of the model stores it
    converted. *)
Definition initial_eth_pool : StakingPool.t :=
  StakingPool.make 1 (Token.make "ETH") "ETH Staking Pool" (of_Z 25).

Definition initial_process : Process := {| eth_pool := initial_eth_pool |}.

Definition simulate_staking_yield (request : SimulationRequest.t) : Py PyDict :=
  pool <- read_global eth_pool ;;
  run_staking_simulation pool
    (SimulationRequest.amount_staked request)
    (SimulationRequest.duration_days request).

(** *** The framework boundary around the handler

    The route [POST /api/simulate/staking] (router prefix [/api] of
    main.py).  The framework validates the body against the
    [SimulationRequest] schema before the handler runs (422 on failure),
    turns an exception of the handler into a 500 response, and encodes the
    returned dict as strict JSON, which has no encoding for an infinity or
    a NaN ("Out of range float values are not JSON compliant").  The
    validator is a parameter: the schema layer is the framework's. *)

Inductive Response : Type :=
| Response_200 (body : PyDict)
| Response_422
| Response_500 (e : PyExc).

Definition json_compliant_value (v : PyVal) : bool :=
  match v with
  | VFloat x => is_finite x
  | _ => true
  end.

Definition json_compliant (d : PyDict) : bool :=
  forallb (fun kv => json_compliant_value (snd kv)) d.

Definition post_simulate_staking {Body : Type}
    (validate : Body -> option SimulationRequest.t) (body : Body)
    : Process -> Response * Process :=
  fun st =>
    match validate body with
    | None => (Response_422, st)
    | Some request =>
        match simulate_staking_yield request st with
        | (inl e, st') => (Response_500 e, st')
        | (inr d, st') =>
            if json_compliant d then (Response_200 d, st')
            else (Response_500 ValueError, st')
        end
    end.

(** Requests served one after the other by the same process. *)
Fixpoint serve {Body : Type} (validate : Body -> option SimulationRequest.t)
    (bodies : list Body) (st : Process) : list Response * Process :=
  match bodies with
  | [] => ([], st)
  | b :: bs =>
      let '(r, st1) := post_simulate_staking validate b st in
      let '(rs, st2) := serve validate bs st1 in
      (r :: rs, st2)
  end.

(** ** The specification's formula

    [round(amount_staked * (apy/100/365) * duration_days, 2)], read as the
    specification writes it, on a duration already converted to a float. *)
Definition spec_daily_rate (apy : float) : float :=
  div (div apy (of_Z 100)) (of_Z 365).

Definition spec_earnings (apy amount_staked : float) (days : float) : Exc float :=
  float_round_2 (mul (mul amount_staked (spec_daily_rate apy)) days).

(** ** Further Python operations used to state properties *)

(** [-x] on a float that is not a NaN.  On a NaN, Python flips the sign bit
    of the NaN; the floats of this model have a single NaN, which records
    no sign, so the negation of a NaN is left undefined. *)
Definition float_neg (x : float) : option float :=
  match x with
  | S754_nan => None
  | _ => Some (SFopp x)
  end.

(** The least magnitude of an [int] that does not convert to a float:
    [2**1024 - 2**970], halfway between the largest float and [2**1024]. *)
Definition int_to_float_limit : Z := 2 ^ 1024 - 2 ^ 970.

(** A pool that differs from [pool] in its [apy] only. *)
Definition with_apy (pool : StakingPool.t) (apy : float) : StakingPool.t :=
  StakingPool.make (StakingPool.id pool) (StakingPool.token pool)
    (StakingPool.name pool) apy.

(** ** Rounding, seen as a quotient

    Two definitions used to state how [binary_round_aux] rounds. *)

(** Where [n / w] lies between two integers: the location of the
    remainder [r] with respect to the divisor [w]. *)
Definition loc_of_rem (r w : Z) : location :=
  if r =? 0 then loc_Exact else loc_Inexact (2 * r ?= w).

(** The float with mantissa [R <= 2^53] and exponent [E]: a mantissa of
    [2^53] is renormalised, and an exponent above the largest one gives an
    infinity. *)
Definition round_result (s : bool) (R E : Z) : float :=
  match R with
  | Z0 => S754_zero s
  | Zpos p =>
      if R =? 2 ^ 53 then
        if E + 1 <=? 971 then S754_finite s (2 ^ 52)%positive (E + 1)
        else S754_infinity s
      else if E <=? 971 then S754_finite s p E else S754_infinity s
  | Zneg _ => S754_nan
  end.

(** * Facts about binary64 arithmetic *)

(** ** Counting mantissa bits *)

Lemma digits2_pos_size (p : positive) : digits2_pos p = Pos.size p.
Proof. induction p as [p IH | p IH |]; simpl; now rewrite ?IH. Qed.

Lemma Zdigits2_log2 (m : Z) : 0 < m -> Zdigits2 m = Z.log2 m + 1.
Proof.
  destruct m as [| p | p]; try lia. intros _. simpl Zdigits2.
  rewrite digits2_pos_size. destruct p; simpl; lia.
Qed.

Lemma Zdigits2_nonneg (m : Z) : 0 <= Zdigits2 m.
Proof. destruct m; simpl; lia. Qed.

(** [Zdigits2 m <= k] says [m < 2^k]. *)
Lemma Zdigits2_le_iff (m k : Z) :
  0 <= m -> 0 <= k -> (Zdigits2 m <= k <-> m < 2 ^ k).
Proof.
  intros Hm Hk. destruct (Z.eq_dec m 0) as [-> | Hne].
  - simpl. split; intros _; [apply Z.pow_pos_nonneg|]; lia.
  - rewrite Zdigits2_log2 by lia. split; intros H.
    + apply Z.log2_lt_pow2; lia.
    + apply Z.log2_lt_pow2 in H; lia.
Qed.

Lemma Zdigits2_bounds (m : Z) :
  0 < m -> 2 ^ (Zdigits2 m - 1) <= m < 2 ^ Zdigits2 m.
Proof.
  intros Hm. rewrite Zdigits2_log2 by lia.
  replace (Z.log2 m + 1 - 1) with (Z.log2 m) by lia.
  replace (Z.log2 m + 1) with (Z.succ (Z.log2 m)) by lia.
  apply Z.log2_spec; lia.
Qed.

Lemma Zdigits2_unique (m d : Z) :
  2 ^ (d - 1) <= m < 2 ^ d -> 0 < d -> Zdigits2 m = d.
Proof.
  intros H Hd.
  assert (0 < m) by (assert (0 < 2 ^ (d - 1)) by (apply Z.pow_pos_nonneg; lia); lia).
  rewrite Zdigits2_log2 by lia.
  rewrite (Z.log2_unique m (d - 1)); try lia.
  replace (Z.succ (d - 1)) with d by lia. exact H.
Qed.

Lemma Zdigits2_mono (a b : Z) : 0 <= a <= b -> Zdigits2 a <= Zdigits2 b.
Proof.
  intros [Ha Hab]. destruct (Z.eq_dec a 0) as [-> | Hne].
  - apply Zdigits2_nonneg.
  - rewrite !Zdigits2_log2 by lia.
    assert (Z.log2 a <= Z.log2 b) by (apply Z.log2_le_mono; lia). lia.
Qed.

(** Dropping [j] low bits drops [j] digits. *)
Lemma Zdigits2_div_pow2 (m j : Z) :
  0 <= m -> 0 <= j -> Zdigits2 (m / 2 ^ j) = Z.max 0 (Zdigits2 m - j).
Proof.
  intros Hm Hj.
  assert (Hp : 0 < 2 ^ j) by (apply Z.pow_pos_nonneg; lia).
  destruct (Z.eq_dec m 0) as [-> | Hne].
  - rewrite Z.div_0_l by lia. simpl. lia.
  - pose proof (Zdigits2_bounds m ltac:(lia)) as [Hlo Hhi].
    pose proof (Zdigits2_nonneg m) as Hd.
    destruct (Z_lt_le_dec j (Zdigits2 m)) as [Hlt | Hge].
    + rewrite Z.max_r by lia. apply Zdigits2_unique; [| lia]. split.
      * apply Z.div_le_lower_bound; [lia |].
        rewrite <- Z.pow_add_r by lia.
        replace (j + (Zdigits2 m - j - 1)) with (Zdigits2 m - 1) by lia. exact Hlo.
      * apply Z.div_lt_upper_bound; [lia |].
        rewrite <- Z.pow_add_r by lia.
        replace (j + (Zdigits2 m - j)) with (Zdigits2 m) by lia. exact Hhi.
    + rewrite Z.max_l by lia. rewrite Z.div_small; [reflexivity |].
      split; [lia |]. apply Z.lt_le_trans with (2 ^ Zdigits2 m); [exact Hhi |].
      apply Z.pow_le_mono_r; lia.
Qed.

Lemma Zdigits2_succ_le (m : Z) : 0 <= m -> Zdigits2 (m + 1) <= Zdigits2 m + 1.
Proof.
  intros Hm. apply Zdigits2_le_iff; [lia | pose proof (Zdigits2_nonneg m); lia |].
  destruct (Z.eq_dec m 0) as [-> | Hne]; [simpl; lia |].
  pose proof (Zdigits2_bounds m ltac:(lia)) as [_ Hhi].
  pose proof (Zdigits2_nonneg m).
  rewrite Z.pow_add_r by lia. change (2 ^ 1) with 2. lia.
Qed.

Lemma Zdigits2_mul_le (a b : Z) :
  0 <= a -> 0 <= b -> Zdigits2 (a * b) <= Zdigits2 a + Zdigits2 b.
Proof.
  intros Ha Hb. pose proof (Zdigits2_nonneg a). pose proof (Zdigits2_nonneg b).
  apply Zdigits2_le_iff; [nia | lia |].
  rewrite Z.pow_add_r by lia.
  assert (0 < 2 ^ Zdigits2 a) by (apply Z.pow_pos_nonneg; lia).
  assert (0 < 2 ^ Zdigits2 b) by (apply Z.pow_pos_nonneg; lia).
  destruct (Z.eq_dec a 0) as [-> | Hane]; [nia |].
  destruct (Z.eq_dec b 0) as [-> | Hbne]; [nia |].
  pose proof (Zdigits2_bounds a ltac:(lia)) as [_ Ha'].
  pose proof (Zdigits2_bounds b ltac:(lia)) as [_ Hb'].
  nia.
Qed.

(** ** Right shifts and alignment *)

Lemma iter_pos_nat {A : Type} (f : A -> A) (p : positive) (x : A) :
  iter_pos f p x = Nat.iter (Pos.to_nat p) f x.
Proof.
  revert x. induction p as [p IH | p IH |]; intros x; simpl iter_pos.
  - rewrite !IH, Pos2Nat.inj_xI, <- Nat.iter_add.
    replace (S (2 * Pos.to_nat p))%nat with (S (Pos.to_nat p + Pos.to_nat p)) by lia.
    now rewrite Nat.iter_succ_r.
  - rewrite !IH, Pos2Nat.inj_xO, <- Nat.iter_add.
    now replace (2 * Pos.to_nat p)%nat with (Pos.to_nat p + Pos.to_nat p)%nat by lia.
  - reflexivity.
Qed.

Lemma shr_1_m (mrs : shr_record) :
  0 <= shr_m mrs -> shr_m (shr_1 mrs) = shr_m mrs / 2.
Proof.
  destruct mrs as [m r s]. simpl shr_m. intros Hm.
  destruct m as [| [p | p |] | p]; simpl shr_m; try reflexivity; try lia.
  - apply Z.div_unique with 1; lia.
  - apply Z.div_unique with 0; lia.
Qed.

Lemma iter_shr_1_m (n : nat) (mrs : shr_record) :
  0 <= shr_m mrs ->
  shr_m (Nat.iter n shr_1 mrs) = shr_m mrs / 2 ^ Z.of_nat n.
Proof.
  intros Hm. induction n as [| n IH].
  - simpl. now rewrite Z.div_1_r.
  - rewrite Nat.iter_succ, shr_1_m.
    + rewrite IH, Nat2Z.inj_succ, Z.pow_succ_r by lia.
      rewrite Z.div_div by (try apply Z.pow_pos_nonneg; lia).
      f_equal. lia.
    + rewrite IH. apply Z.div_pos; [lia | apply Z.pow_pos_nonneg; lia].
Qed.

Lemma shr_record_of_loc_m (m : Z) (l : location) :
  shr_m (shr_record_of_loc m l) = m.
Proof. destruct l as [| []]; reflexivity. Qed.

(** The mantissa and exponent after the alignment shift of [shr_fexp]. *)
Lemma shr_fexp_m (m e : Z) (l : location) :
  0 <= m ->
  let j := fexp prec emax (Zdigits2 m + e) - e in
  shr_m (fst (shr_fexp prec emax m e l)) = (if 0 <? j then m / 2 ^ j else m) /\
  snd (shr_fexp prec emax m e l) = (if 0 <? j then e + j else e).
Proof.
  intros Hm j. unfold shr_fexp, shr. fold j.
  destruct j as [| p | p] eqn:Ej; simpl fst; simpl snd;
    rewrite ?shr_record_of_loc_m; try (split; reflexivity).
  change (0 <? Z.pos p) with true. cbv iota. split; [| reflexivity].
  rewrite iter_pos_nat, iter_shr_1_m by (rewrite shr_record_of_loc_m; exact Hm).
  now rewrite shr_record_of_loc_m, positive_nat_Z.
Qed.

Lemma shr_fexp_props (m e : Z) (l : location) :
  0 <= m ->
  let m1 := shr_m (fst (shr_fexp prec emax m e l)) in
  let e1 := snd (shr_fexp prec emax m e l) in
  0 <= m1 /\
  Zdigits2 m1 <= prec /\
  e1 = Z.max e (fexp prec emax (Zdigits2 m + e)) /\
  Zdigits2 m1 + e1 <= Z.max (Zdigits2 m + e) e1.
Proof.
  intros Hm m1 e1.
  destruct (shr_fexp_m m e l Hm) as [Hm1 He1]. fold m1 in Hm1. fold e1 in He1.
  pose proof (Zdigits2_nonneg m) as Hd.
  remember (fexp prec emax (Zdigits2 m + e)) as f eqn:Ef.
  assert (Hf : f = Z.max (Zdigits2 m + e - 53) (-1074)) by (subst f; reflexivity).
  unfold prec. clear Ef.
  destruct (Z.ltb_spec 0 (f - e)) as [Hj | Hj].
  - rewrite Hm1, He1, Zdigits2_div_pow2 by lia.
    assert (0 <= m / 2 ^ (f - e)) by (apply Z.div_pos; [lia | apply Z.pow_pos_nonneg; lia]).
    lia.
  - rewrite Hm1, He1. lia.
Qed.

(** ** Rounding *)

Lemma round_nearest_even_bounds (m : Z) (l : location) :
  m <= round_nearest_even m l <= m + 1.
Proof. destruct l as [| []]; simpl; try destruct (Z.even m); lia. Qed.

(** The mantissa [m2] and exponent [e2] that [binary_round_aux] ends with,
    before it tests for overflow. *)
Lemma binary_round_aux_core (s : bool) (m e : Z) (l : location) :
  0 <= m ->
  exists m2 e2,
    0 <= m2 /\
    Zdigits2 m2 <= 53 /\
    e2 <= Z.max e (Z.max (Zdigits2 m + e - 52) (-1074)) /\
    Zdigits2 m2 + e2 <= Z.max (Zdigits2 m + e + 1) (-1073) /\
    binary_round_aux prec emax s m e l =
      match m2 with
      | Z0 => S754_zero s
      | Zpos p => if e2 <=? 971 then S754_finite s p e2 else S754_infinity s
      | Zneg _ => S754_nan
      end.
Proof.
  intros Hm. unfold binary_round_aux.
  pose proof (shr_fexp_props m e l Hm) as H1. cbv zeta in H1.
  destruct (shr_fexp prec emax m e l) as [mrs1 e1]. simpl fst in H1. simpl snd in H1.
  destruct H1 as (Hm1 & Hd1 & He1 & Hb1).
  set (m1r := round_nearest_even (shr_m mrs1) (loc_of_shr_record mrs1)).
  pose proof (round_nearest_even_bounds (shr_m mrs1) (loc_of_shr_record mrs1)) as Hr.
  fold m1r in Hr.
  assert (Hm1r : 0 <= m1r) by lia.
  assert (Hd1r : Zdigits2 m1r <= Zdigits2 (shr_m mrs1) + 1).
  { etransitivity; [apply (Zdigits2_mono m1r (shr_m mrs1 + 1)); lia |].
    apply Zdigits2_succ_le; lia. }
  pose proof (shr_fexp_props m1r e1 loc_Exact Hm1r) as H2. cbv zeta in H2.
  destruct (shr_fexp prec emax m1r e1 loc_Exact) as [mrs2 e2].
  simpl fst in H2. simpl snd in H2.
  destruct H2 as (Hm2 & Hd2 & He2 & Hb2).
  exists (shr_m mrs2), e2.
  pose proof (Zdigits2_nonneg m) as Hd.
  pose proof (Zdigits2_nonneg (shr_m mrs1)) as Hd1'.
  unfold fexp, emin, prec, emax in *.
  repeat split; try lia.
Qed.

(** Shape of a rounded result: the sign is the one asked for, and a finite
    result is in range. *)
Lemma binary_round_aux_shape (s : bool) (m e : Z) (l : location) :
  0 <= m ->
  let r := binary_round_aux prec emax s m e l in
  is_nan r = false /\ in_range r = true /\ (is_zero r = true \/ sign_bit r = s).
Proof.
  intros Hm r. subst r.
  destruct (binary_round_aux_core s m e l Hm) as (m2 & e2 & Hm2 & Hd2 & He2 & Hb2 & ->).
  destruct m2 as [| p | p]; [simpl; auto | | lia].
  destruct (Z.leb_spec e2 971) as [Hle | Hgt]; simpl; auto.
  repeat split; auto.
  apply andb_true_iff. split; apply Z.leb_le; [exact Hd2 | unfold emax, prec; lia].
Qed.

(** No overflow below the largest binade. *)
Lemma binary_round_aux_bounded (s : bool) (m e : Z) (l : location) (B : Z) :
  0 <= m ->
  Zdigits2 m + e <= B -> -1074 <= B <= 1023 -> e <= 971 ->
  let r := binary_round_aux prec emax s m e l in
  is_finite r = true /\ magnitude_below (B + 1) r = true.
Proof.
  intros Hm HB HB' He r. subst r.
  destruct (binary_round_aux_core s m e l Hm) as (m2 & e2 & Hm2 & Hd2 & He2 & Hb2 & ->).
  destruct m2 as [| p | p]; [simpl; auto | | lia].
  assert (Hle : e2 <= 971) by lia.
  apply Z.leb_le in Hle. rewrite Hle. simpl. split; [reflexivity |].
  apply Z.leb_le. simpl in Hb2. lia.
Qed.

Lemma binary_round_aux_sign (s : bool) (m e : Z) (l : location) :
  0 <= m -> sign_bit (binary_round_aux prec emax s m e l) = s.
Proof.
  intros Hm.
  destruct (binary_round_aux_core s m e l Hm) as (m2 & e2 & Hm2 & _ & _ & _ & ->).
  destruct m2 as [| p | p]; [reflexivity | | lia].
  now destruct (e2 <=? 971).
Qed.

(** *** Multiplication *)

Lemma mul_in_range (x y : float) : in_range (mul x y) = true.
Proof.
  destruct x as [sx | sx | | sx mx ex], y as [sy | sy | | sy my ey];
    try reflexivity.
  apply binary_round_aux_shape. lia.
Qed.

Lemma mul_finite_bounded (sx sy : bool) (mx my : positive) (ex ey Bx By : Z) :
  Zdigits2 (Zpos mx) + ex <= Bx -> Zdigits2 (Zpos my) + ey <= By ->
  ex + ey <= 971 -> -1074 <= Bx + By <= 1023 ->
  let r := mul (S754_finite sx mx ex) (S754_finite sy my ey) in
  is_finite r = true /\ magnitude_below (Bx + By + 1) r = true.
Proof.
  intros Hx Hy He HB. cbv zeta. unfold mul. simpl SFmul.
  apply binary_round_aux_bounded; try lia.
  rewrite Pos2Z.inj_mul.
  pose proof (Zdigits2_mul_le (Zpos mx) (Zpos my)). lia.
Qed.

(** *** Division *)

Lemma div_eucl_div_mod (a b : Z) : Z.div_eucl a b = (a / b, a mod b).
Proof. unfold Z.div, Z.modulo. now destruct (Z.div_eucl a b). Qed.

Lemma SFdiv_core_binary_bound (m1 e1 m2 e2 : Z) :
  0 < m1 -> 0 < m2 ->
  let '(q, e', l) := SFdiv_core_binary prec emax m1 e1 m2 e2 in
  let D := (Zdigits2 m1 + e1) - (Zdigits2 m2 + e2) in
  0 <= q /\ Zdigits2 q + e' <= Z.max (D + 1) e' /\ e' <= Z.max (D - 53) (-1074).
Proof.
  intros H1 H2. unfold SFdiv_core_binary.
  set (D := Zdigits2 m1 + e1 - (Zdigits2 m2 + e2)).
  set (e' := Z.min (fexp prec emax D) (e1 - e2)).
  set (s := e1 - e2 - e').
  assert (Hs : 0 <= s) by (unfold s, e'; lia).
  set (m' := match s with Z.pos _ => Z.shiftl m1 s | 0 => m1 | Z.neg _ => 0 end).
  assert (Hm' : m' = m1 * 2 ^ s).
  { unfold m'. destruct s as [| p | p]; [simpl; lia | | lia].
    now rewrite Z.shiftl_mul_pow2 by lia. }
  rewrite div_eucl_div_mod. cbv zeta.
  assert (Hp : 0 < 2 ^ s) by (apply Z.pow_pos_nonneg; lia).
  assert (Hq : 0 <= m' / m2) by (apply Z.div_pos; nia).
  split; [exact Hq |]. split.
  - pose proof (Zdigits2_bounds m1 H1) as [_ Hhi1].
    pose proof (Zdigits2_bounds m2 H2) as [Hlo2 _].
    pose proof (Zdigits2_nonneg m1) as Hd1.
    assert (Hd2 : 0 < Zdigits2 m2) by (destruct m2; simpl; lia).
    assert (Hlt : m' < 2 ^ (Zdigits2 m1 + s)).
    { rewrite Hm', Z.pow_add_r by lia. nia. }
    destruct (Z_lt_le_dec (Zdigits2 m1 + s - Zdigits2 m2 + 1) 0) as [Hneg | Hk].
    + rewrite Z.div_small; [simpl; lia |].
      split; [nia |].
      apply Z.lt_le_trans with (2 ^ (Zdigits2 m2 - 1)); [| lia].
      apply Z.lt_le_trans with (2 ^ (Zdigits2 m1 + s)); [exact Hlt |].
      apply Z.pow_le_mono_r; lia.
    + assert (Zdigits2 (m' / m2) <= Zdigits2 m1 + s - Zdigits2 m2 + 1).
      { apply Zdigits2_le_iff; [exact Hq | exact Hk |].
        apply Z.div_lt_upper_bound; [lia |].
        apply Z.lt_le_trans with (2 ^ (Zdigits2 m1 + s)); [exact Hlt |].
        apply Z.le_trans with (2 ^ (Zdigits2 m2 - 1) * 2 ^ (Zdigits2 m1 + s - Zdigits2 m2 + 1)).
        - rewrite <- !Z.pow_add_r by lia. apply Z.pow_le_mono_r; lia.
        - apply Z.mul_le_mono_nonneg_r; [apply Z.pow_nonneg; lia | lia]. }
      unfold s, D in *. lia.
  - unfold e', fexp, prec, emin, emax. lia.
Qed.

Lemma div_in_range (x y : float) : in_range (div x y) = true.
Proof.
  destruct x as [sx | sx | | sx mx ex], y as [sy | sy | | sy my ey];
    try reflexivity.
  unfold div. simpl SFdiv.
  pose proof (SFdiv_core_binary_bound (Zpos mx) ex (Zpos my) ey) as H.
  destruct (SFdiv_core_binary prec emax (Z.pos mx) ex (Z.pos my) ey) as [[q e'] l].
  apply binary_round_aux_shape. apply H; lia.
Qed.

Lemma div_finite_bounded (sx sy : bool) (mx my : positive) (ex ey B : Z) :
  (Zdigits2 (Zpos mx) + ex) - (Zdigits2 (Zpos my) + ey) + 1 <= B ->
  -1074 <= B <= 1023 ->
  let r := div (S754_finite sx mx ex) (S754_finite sy my ey) in
  is_finite r = true /\ magnitude_below (B + 1) r = true.
Proof.
  intros HD HB. cbv zeta. unfold div. simpl SFdiv.
  pose proof (SFdiv_core_binary_bound (Zpos mx) ex (Zpos my) ey) as H.
  destruct (SFdiv_core_binary prec emax (Z.pos mx) ex (Z.pos my) ey) as [[q e'] l].
  destruct H as (Hq & Hd & He); try lia.
  apply binary_round_aux_bounded; lia.
Qed.

(** ** Values that need no rounding *)

Lemma shr_1_double (z : Z) :
  0 <= z ->
  shr_1 (Build_shr_record (2 * z) false false) = Build_shr_record z false false.
Proof. destruct z; intros H; try reflexivity; lia. Qed.

Lemma iter_shr_1_exact (n : nat) (a : Z) :
  0 <= a ->
  Nat.iter n shr_1 (Build_shr_record (a * 2 ^ Z.of_nat n) false false)
  = Build_shr_record a false false.
Proof.
  intros Ha. induction n as [| n IH].
  - simpl. now rewrite Z.mul_1_r.
  - rewrite Nat.iter_succ_r, Nat2Z.inj_succ, Z.pow_succ_r by lia.
    replace (a * (2 * 2 ^ Z.of_nat n)) with (2 * (a * 2 ^ Z.of_nat n)) by lia.
    rewrite shr_1_double; [exact IH |].
    apply Z.mul_nonneg_nonneg; [lia | apply Z.pow_nonneg; lia].
Qed.

Lemma Zdigits2_mul_pow2 (m j : Z) :
  0 < m -> 0 <= j -> Zdigits2 (m * 2 ^ j) = Zdigits2 m + j.
Proof.
  intros Hm Hj. pose proof (Zdigits2_bounds m Hm) as [Hlo Hhi].
  assert (0 < Zdigits2 m) by (destruct m; simpl; lia).
  assert (0 < 2 ^ j) by (apply Z.pow_pos_nonneg; lia).
  apply Zdigits2_unique; [| lia]. split.
  - replace (Zdigits2 m + j - 1) with (Zdigits2 m - 1 + j) by lia.
    rewrite Z.pow_add_r by lia. nia.
  - rewrite Z.pow_add_r by lia. nia.
Qed.

(** Rounding a value that already fits: [m * 2^e] with at most [prec] bits
    in [m], handed over with [j] extra low zero bits. *)
Lemma binary_round_aux_exact (s : bool) (m j e : Z) :
  0 < m -> Zdigits2 m <= 53 -> 0 <= j -> 0 <= e <= 971 ->
  is_finite (binary_round_aux prec emax s (m * 2 ^ j) (e - j) loc_Exact) = true.
Proof.
  intros Hm Hd Hj He.
  assert (Hdpos : 0 < Zdigits2 m) by (destruct m; simpl; lia).
  assert (Hpj : 0 < 2 ^ j) by (apply Z.pow_pos_nonneg; lia).
  set (t := 53 - Zdigits2 m).
  (* the pair after the first alignment *)
  assert (H1 : exists m1 e1,
             shr_fexp prec emax (m * 2 ^ j) (e - j) loc_Exact
             = (Build_shr_record m1 false false, e1) /\
             0 < m1 /\ Zdigits2 m1 + e1 = Zdigits2 m + e /\
             e - t <= e1 <= e).
  { unfold shr_fexp. rewrite Zdigits2_mul_pow2 by lia.
    replace (fexp prec emax (Zdigits2 m + j + (e - j)) - (e - j)) with (j - t)
      by (unfold fexp, emin, prec, emax, t; lia).
    simpl shr_record_of_loc. unfold shr.
    destruct (j - t) as [| p | p] eqn:Ek.
    - exists (m * 2 ^ j), (e - j). rewrite Zdigits2_mul_pow2 by lia.
      repeat split; try lia; try nia.
    - exists (m * 2 ^ t), (e - j + Z.pos p).
      assert (Ht : 0 <= t) by (unfold t; lia).
      rewrite Zdigits2_mul_pow2 by lia.
      assert (0 < 2 ^ t) by (apply Z.pow_pos_nonneg; lia).
      repeat split; try lia; try nia.
      f_equal. rewrite iter_pos_nat.
      replace (m * 2 ^ j) with ((m * 2 ^ t) * 2 ^ Z.of_nat (Pos.to_nat p)).
      + apply iter_shr_1_exact. nia.
      + rewrite positive_nat_Z, <- Z.mul_assoc, <- Z.pow_add_r by lia.
        f_equal. f_equal. lia.
    - exists (m * 2 ^ j), (e - j). rewrite Zdigits2_mul_pow2 by lia.
      repeat split; try lia; try nia. }
  destruct H1 as (m1 & e1 & E1 & Hm1 & Hde & He1).
  unfold binary_round_aux. rewrite E1.
  simpl loc_of_shr_record. simpl shr_m. simpl round_nearest_even.
  (* nothing is left to shift the second time *)
  unfold shr_fexp. simpl shr_record_of_loc.
  assert (Hk : fexp prec emax (Zdigits2 m1 + e1) - e1 <= 0)
    by (unfold fexp, emin, prec, emax, t in *; lia).
  unfold shr.
  destruct (fexp prec emax (Zdigits2 m1 + e1) - e1) as [| p | p]; try lia;
    simpl shr_m; destruct m1 as [| q | q]; try lia;
    (replace (e1 <=? emax - prec) with true
       by (symmetry; apply Z.leb_le; unfold emax, prec; lia)); reflexivity.
Qed.

(** *** Conversion from an integer *)

Lemma of_Z_shape (z : Z) :
  is_nan (of_Z z) = false /\ in_range (of_Z z) = true /\
  sign_bit (of_Z z) = (z <? 0).
Proof.
  destruct z as [| p | p]; [now simpl | |];
    unfold of_Z, binary_normalize, binary_round;
    destruct (shl_align p 0 _) as [mz ez];
    (repeat split;
     [ apply binary_round_aux_shape; lia
     | apply binary_round_aux_shape; lia
     | apply binary_round_aux_sign; lia ]).
Qed.

Lemma float_of_int_inr (z : Z) (d : float) :
  float_of_int z = inr d ->
  d = of_Z z /\ is_finite d = true /\ in_range d = true /\ sign_bit d = (z <? 0).
Proof.
  unfold float_of_int. intros H.
  destruct (of_Z_shape z) as (Hnan & Hr & Hs).
  destruct (is_inf (of_Z z)) eqn:Hinf; [discriminate |].
  injection H as <-. repeat split; auto.
  destruct (of_Z z); simpl in *; congruence.
Qed.

(** *** Rounding to two decimals *)

Lemma round_half_even_bounds (n e : Z) :
  0 <= n ->
  0 <= round_half_even n e /\
  (e < 0 -> round_half_even n e <= n) /\
  (0 <= e -> round_half_even n e = n * 2 ^ e).
Proof.
  intros Hn. unfold round_half_even. destruct e as [| p | p].
  - repeat split; try lia.
  - assert (0 < 2 ^ Z.pos p) by (apply Z.pow_pos_nonneg; lia).
    repeat split; try lia; try nia.
  - change (Z.pow_pos 2 p) with (2 ^ Z.pos p).
    assert (Hd : 2 <= 2 ^ Z.pos p).
    { change 2 with (2 ^ 1) at 1. apply Z.pow_le_mono_r; lia. }
    pose proof (Z.div_mod n (2 ^ Z.pos p) ltac:(lia)) as Hdm.
    pose proof (Z.mod_pos_bound n (2 ^ Z.pos p) ltac:(lia)) as Hr.
    assert (Hq : 0 <= n / 2 ^ Z.pos p) by (apply Z.div_pos; lia).
    destruct (Z.compare_spec (2 * (n mod 2 ^ Z.pos p)) (2 ^ Z.pos p));
      try destruct (Z.even (n / 2 ^ Z.pos p));
      repeat split; intros; try lia; nia.
Qed.

Lemma of_hundredths_sign (s : bool) (n : Z) :
  0 < n -> sign_bit (of_hundredths s n) = s.
Proof.
  intros Hn. unfold of_hundredths.
  pose proof (SFdiv_core_binary_bound n 0 100 0 Hn ltac:(lia)) as H.
  destruct (SFdiv_core_binary prec emax n 0 100 0) as [[q e'] l].
  apply binary_round_aux_sign. apply H.
Qed.

Lemma of_hundredths_finite_small (s : bool) (n : Z) :
  0 < n -> n < 2 ^ 60 -> is_finite (of_hundredths s n) = true.
Proof.
  intros Hn Hlt. unfold of_hundredths.
  pose proof (SFdiv_core_binary_bound n 0 100 0 Hn ltac:(lia)) as H.
  destruct (SFdiv_core_binary prec emax n 0 100 0) as [[q e'] l].
  destruct H as (Hq & Hd & He).
  assert (Hdn : Zdigits2 n <= 60) by (apply Zdigits2_le_iff; lia).
  pose proof (Zdigits2_nonneg n).
  change (Zdigits2 100) with 7 in *.
  apply (binary_round_aux_bounded s q e' l 54); lia.
Qed.

Lemma of_hundredths_finite_exact (s : bool) (m e : Z) :
  0 < m -> Zdigits2 m <= 53 -> 0 <= e <= 971 ->
  is_finite (of_hundredths s (100 * m * 2 ^ e)) = true.
Proof.
  intros Hm Hd He. unfold of_hundredths, SFdiv_core_binary.
  assert (Hpe : 0 < 2 ^ e) by (apply Z.pow_pos_nonneg; lia).
  set (n := 100 * m * 2 ^ e).
  set (e' := Z.min (fexp prec emax (Zdigits2 n + 0 - (Zdigits2 100 + 0))) (0 - 0)).
  set (s' := 0 - 0 - e').
  assert (Hs : 0 <= s') by (unfold s', e'; lia).
  assert (Hps : 0 < 2 ^ s') by (apply Z.pow_pos_nonneg; lia).
  set (m' := match s' with Z.pos _ => Z.shiftl n s' | 0 => n | Z.neg _ => 0 end).
  assert (Hm' : m' = (m * 2 ^ (e + s')) * 100).
  { unfold m'. rewrite Z.pow_add_r by lia.
    destruct s' as [| p | p]; [unfold n; rewrite Z.pow_0_r; lia | | lia].
    rewrite Z.shiftl_mul_pow2 by lia. unfold n. lia. }
  rewrite div_eucl_div_mod, Hm', Z.div_mul, Z.mod_mul by lia.
  change (new_location 100 0) with loc_Exact.
  replace e' with (e - (e + s')) by (unfold s'; lia).
  apply binary_round_aux_exact; lia.
Qed.

(** [round(x, 2)] never raises on a float in range; it keeps the class and
    the sign of [x]. *)
Lemma float_round_2_total (x : float) :
  in_range x = true ->
  exists y,
    float_round_2 x = inr y /\
    is_nan y = is_nan x /\ is_finite y = is_finite x /\
    sign_bit y = sign_bit x.
Proof.
  intros Hx. destruct x as [s | s | | s m e]; try (eexists; repeat split; fail).
  apply andb_true_iff in Hx. destruct Hx as [Hd He].
  apply Z.leb_le in Hd, He. unfold prec, emax in *.
  unfold float_round_2.
  destruct (round_half_even_bounds (100 * Z.pos m) e ltac:(lia)) as (Hn & Hneg & Hpos).
  destruct (round_half_even (100 * Z.pos m) e) as [| p | p] eqn:En; [| | lia].
  - eexists; repeat split.
  - assert (Hfin : is_finite (of_hundredths s (Z.pos p)) = true).
    { destruct (Z_lt_le_dec e 0) as [Hlt | Hge].
      - apply of_hundredths_finite_small; [lia |].
        specialize (Hneg Hlt).
        assert (Z.pos m < 2 ^ 53) by (apply Zdigits2_le_iff; lia).
        change (2 ^ 60) with (128 * 2 ^ 53). lia.
      - rewrite (Hpos Hge). apply of_hundredths_finite_exact; lia. }
    pose proof (of_hundredths_sign s (Z.pos p) ltac:(lia)) as Hs.
    destruct (of_hundredths s (Z.pos p)) as [s' | s' | | s' m' e'];
      simpl in Hfin; try discriminate; simpl is_inf; cbv iota;
      eexists; repeat split; exact Hs.
Qed.

(** * The calculator and the handler *)

Lemma float_truediv_int_100 (x : float) :
  float_truediv_int x 100 = inr (div x (of_Z 100)).
Proof. reflexivity. Qed.

Lemma float_truediv_int_365 (x : float) :
  float_truediv_int x 365 = inr (div x (of_Z 365)).
Proof. reflexivity. Qed.

(** The calculator, with its binds unfolded: the only steps that can raise
    are the conversion of [duration_days] and the final rounding. *)
Lemma run_staking_simulation_unfold pool amount days st :
  run_staking_simulation pool amount days st =
  (match float_of_int days with
   | inl e => inl e
   | inr d =>
       match spec_earnings (StakingPool.apy pool) amount d with
       | inl e => inl e
       | inr r =>
           inr [ ("pool_id", VInt (StakingPool.id pool));
                 ("pool_name", VStr (StakingPool.name pool));
                 ("amount_staked", VFloat amount);
                 ("duration_days", VInt days);
                 ("earnings", VFloat r) ]%string
       end
   end, st).
Proof.
  unfold run_staking_simulation, bind, lift, ret.
  rewrite float_truediv_int_100, float_truediv_int_365.
  unfold float_mul_int, exc_bind, exc_ret, spec_earnings, spec_daily_rate.
  destruct (float_of_int days) as [e | d]; [reflexivity |].
  destruct (float_round_2 _) as [e | r]; reflexivity.
Qed.

Lemma spec_earnings_total apy amount d :
  exists r,
    spec_earnings apy amount d = inr r /\
    is_nan r = is_nan (mul (mul amount (spec_daily_rate apy)) d) /\
    is_finite r = is_finite (mul (mul amount (spec_daily_rate apy)) d) /\
    sign_bit r = sign_bit (mul (mul amount (spec_daily_rate apy)) d).
Proof. unfold spec_earnings. apply float_round_2_total, mul_in_range. Qed.

Lemma run_staking_simulation_frame pool amount days st :
  snd (run_staking_simulation pool amount days st) = st.
Proof. now rewrite run_staking_simulation_unfold. Qed.

Lemma simulate_staking_yield_unfold request st :
  simulate_staking_yield request st =
  run_staking_simulation (eth_pool st)
    (SimulationRequest.amount_staked request)
    (SimulationRequest.duration_days request) st.
Proof. reflexivity. Qed.

Lemma simulate_staking_yield_frame request st :
  snd (simulate_staking_yield request st) = st.
Proof. rewrite simulate_staking_yield_unfold. apply run_staking_simulation_frame. Qed.

Lemma post_simulate_staking_frame {Body : Type} validate (body : Body) st :
  snd (post_simulate_staking validate body st) = st.
Proof.
  unfold post_simulate_staking. destruct (validate body) as [request |]; [| reflexivity].
  pose proof (simulate_staking_yield_frame request st) as H.
  destruct (simulate_staking_yield request st) as [[e | d] st']; simpl in H; subst st';
    [reflexivity |]. now destruct (json_compliant d).
Qed.

Lemma serve_spec {Body : Type} validate (bodies : list Body) st :
  serve validate bodies st =
  (map (fun b => fst (post_simulate_staking validate b st)) bodies, st).
Proof.
  induction bodies as [| b bs IH]; [reflexivity |]. simpl serve. simpl map.
  pose proof (post_simulate_staking_frame validate b st) as H.
  destruct (post_simulate_staking validate b st) as [r st1]. simpl in H. subst st1.
  rewrite IH. reflexivity.
Qed.

(** Once [duration_days] converts to a float, the calculator returns. *)
Lemma run_staking_simulation_returns pool amount days d st :
  float_of_int days = inr d ->
  exists earnings,
    spec_earnings (StakingPool.apy pool) amount d = inr earnings /\
    run_staking_simulation pool amount days st =
    (inr [ ("pool_id", VInt (StakingPool.id pool));
           ("pool_name", VStr (StakingPool.name pool));
           ("amount_staked", VFloat amount);
           ("duration_days", VInt days);
           ("earnings", VFloat earnings) ]%string, st).
Proof.
  intros Hd. rewrite run_staking_simulation_unfold, Hd.
  destruct (spec_earnings_total (StakingPool.apy pool) amount d) as (r & Hr & _).
  exists r. now rewrite Hr.
Qed.

(** *** Signs and classes through the calculator's products *)

Lemma valid_finite_bounds (s : bool) (m : positive) (e : Z) :
  valid (S754_finite s m e) = true -> Zdigits2 (Zpos m) <= 53 /\ e <= 971.
Proof.
  unfold valid, valid_binary, bounded, canonical_mantissa. intros H.
  apply andb_true_iff in H. destruct H as [Hc He].
  apply Z.eqb_eq in Hc. apply Z.leb_le in He.
  unfold fexp, emin, prec, emax in *. simpl Zdigits2. lia.
Qed.

Lemma mul_sign (x y : float) :
  is_finite x = true -> is_finite y = true ->
  is_nan (mul x y) = false /\
  sign_bit (mul x y) = xorb (sign_bit x) (sign_bit y).
Proof.
  destruct x as [sx | sx | | sx mx ex], y as [sy | sy | | sy my ey];
    simpl; intros Hx Hy; try discriminate; try (split; reflexivity).
  split; [apply binary_round_aux_shape | apply binary_round_aux_sign]; lia.
Qed.




Lemma eqb_zero_of_is_zero (r : float) : is_zero r = true -> eqb r zero = true.
Proof. destruct r; cbn; intros; congruence. Qed.

Lemma mul_zero_l (x y : float) :
  is_zero x = true -> is_finite y = true -> is_zero (mul x y) = true.
Proof. destruct x, y; simpl; intros; congruence. Qed.

Lemma mul_zero_r (x y : float) :
  is_finite x = true -> is_zero y = true -> is_zero (mul x y) = true.
Proof. destruct x, y; simpl; intros; congruence. Qed.

Lemma float_round_2_zero (x : float) :
  is_zero x = true -> exists y, float_round_2 x = inr y /\ is_zero y = true.
Proof. destruct x; simpl; intros; try discriminate. eexists; split; reflexivity. Qed.

(** *** The daily rate *)

Lemma daily_rate_eth :
  spec_daily_rate (StakingPool.apy initial_eth_pool)
  = S754_finite false 6317378107434778 (-63).
Proof. vm_compute. reflexivity. Qed.

(** A finite annual rate gives a finite daily rate: dividing by 100 and by
    365 cannot overflow. *)
Lemma daily_rate_finite (apy : float) :
  valid apy = true -> is_finite apy = true ->
  is_finite (spec_daily_rate apy) = true.
Proof.
  intros Hv Hf. unfold spec_daily_rate.
  change (of_Z 100) with (S754_finite false 7036874417766400 (-46)).
  change (of_Z 365) with (S754_finite false 6421147906211840 (-44)).
  destruct apy as [s | s | | s m e]; try discriminate; [reflexivity |].
  destruct (valid_finite_bounds s m e Hv) as [Hd He].
  destruct (div_finite_bounded s false m 7036874417766400 e (-46) 1018) as [Hf1 Hb1].
  { change (Zdigits2 (Z.pos 7036874417766400)) with 53. lia. }
  { lia. }
  destruct (div (S754_finite s m e) (S754_finite false 7036874417766400 (-46)))
    as [s1 | s1 | | s1 m1 e1]; try discriminate; [reflexivity |].
  apply Z.leb_le in Hb1.
  apply (div_finite_bounded s1 false m1 6421147906211840 e1 (-44) 1011).
  - change (Zdigits2 (Z.pos 6421147906211840)) with 53. lia.
  - lia.
Qed.

(** With the rate of the hardcoded pool, the first product stays finite. *)
Lemma mul_rate_eth_finite (amount : float) (B : Z) :
  is_finite amount = true -> magnitude_below B amount = true ->
  -1064 <= B <= 1024 ->
  is_finite (mul amount (S754_finite false 6317378107434778 (-63))) = true /\
  magnitude_below (B - 9) (mul amount (S754_finite false 6317378107434778 (-63))) = true.
Proof.
  intros Hf Hb HB. destruct amount as [s | s | | s m e]; try discriminate.
  - split; reflexivity.
  - apply Z.leb_le in Hb.
    assert (0 < Zdigits2 (Z.pos m)) by (simpl; lia).
    replace (B - 9) with (B + -10 + 1) by lia.
    apply mul_finite_bounded; try lia.
    change (Zdigits2 (Z.pos 6317378107434778)) with 53. lia.
Qed.

Lemma valid_magnitude (x : float) :
  valid x = true -> is_finite x = true -> magnitude_below 1024 x = true.
Proof.
  intros Hv Hf. destruct x as [s | s | | s m e]; try discriminate; [reflexivity |].
  destruct (valid_finite_bounds s m e Hv). apply Z.leb_le. lia.
Qed.

(** The handler on the initial process, once the duration converts. *)
Lemma simulate_staking_yield_initial request d :
  float_of_int (SimulationRequest.duration_days request) = inr d ->
  exists earnings,
    spec_earnings (of_Z 25) (SimulationRequest.amount_staked request) d
    = inr earnings /\
    is_nan earnings
    = is_nan (mul (mul (SimulationRequest.amount_staked request)
                     (S754_finite false 6317378107434778 (-63))) d) /\
    is_finite earnings
    = is_finite (mul (mul (SimulationRequest.amount_staked request)
                        (S754_finite false 6317378107434778 (-63))) d) /\
    sign_bit earnings
    = sign_bit (mul (mul (SimulationRequest.amount_staked request)
                       (S754_finite false 6317378107434778 (-63))) d) /\
    simulate_staking_yield request initial_process =
    (inr [ ("pool_id", VInt 1);
           ("pool_name", VStr "ETH Staking Pool");
           ("amount_staked", VFloat (SimulationRequest.amount_staked request));
           ("duration_days", VInt (SimulationRequest.duration_days request));
           ("earnings", VFloat earnings) ], initial_process).
Proof.
  intros Hd.
  destruct (spec_earnings_total (of_Z 25) (SimulationRequest.amount_staked request) d)
    as (r & Hr & Hnan & Hfin & Hsign).
  exists r. rewrite <- daily_rate_eth. repeat split; try assumption.
  rewrite simulate_staking_yield_unfold, run_staking_simulation_unfold, Hd.
  change (StakingPool.apy (eth_pool initial_process)) with (of_Z 25).
  now rewrite Hr.
Qed.

Lemma post_simulate_staking_200 {Body : Type} validate (body : Body) request st res :
  validate body = Some request ->
  simulate_staking_yield request st = (inr res, st) ->
  json_compliant res = true ->
  post_simulate_staking validate body st = (Response_200 res, st).
Proof.
  intros Hv Hres Hj. unfold post_simulate_staking. now rewrite Hv, Hres, Hj.
Qed.

(** ** Negation

    [SFopp] flips the sign of a zero, an infinity or a finite value. *)

Lemma binary_round_aux_opp (s : bool) (m e : Z) (l : location) :
  binary_round_aux prec emax (negb s) m e l
  = SFopp (binary_round_aux prec emax s m e l).
Proof.
  unfold binary_round_aux.
  destruct (shr_fexp prec emax m e l) as [mrs1 e1].
  destruct (shr_fexp prec emax _ e1 loc_Exact) as [mrs2 e2].
  destruct (shr_m mrs2); [reflexivity | | reflexivity].
  now destruct (e2 <=? emax - prec).
Qed.

Lemma xorb_negb_l (a b : bool) : xorb (negb a) b = negb (xorb a b).
Proof. now destruct a, b. Qed.

Lemma xorb_negb_r (a b : bool) : xorb a (negb b) = negb (xorb a b).
Proof. now destruct a, b. Qed.

Lemma mul_neg_l (x y : float) : mul (SFopp x) y = SFopp (mul x y).
Proof.
  destruct x as [sx | sx | | sx mx ex], y as [sy | sy | | sy my ey];
    unfold mul; simpl; rewrite ?xorb_negb_l; try reflexivity.
  apply binary_round_aux_opp.
Qed.

Lemma mul_neg_r (x y : float) : mul x (SFopp y) = SFopp (mul x y).
Proof.
  destruct x as [sx | sx | | sx mx ex], y as [sy | sy | | sy my ey];
    unfold mul; simpl; rewrite ?xorb_negb_r; try reflexivity.
  apply binary_round_aux_opp.
Qed.

Lemma div_neg_l (x y : float) : div (SFopp x) y = SFopp (div x y).
Proof.
  destruct x as [sx | sx | | sx mx ex], y as [sy | sy | | sy my ey];
    unfold div; simpl; rewrite ?xorb_negb_l; try reflexivity.
  destruct (SFdiv_core_binary prec emax (Z.pos mx) ex (Z.pos my) ey) as [[q e'] l].
  apply binary_round_aux_opp.
Qed.

Lemma of_hundredths_neg (s : bool) (n : Z) :
  of_hundredths (negb s) n = SFopp (of_hundredths s n).
Proof.
  unfold of_hundredths.
  destruct (SFdiv_core_binary prec emax n 0 100 0) as [[q e'] l].
  apply binary_round_aux_opp.
Qed.

Lemma is_inf_neg (x : float) : is_inf (SFopp x) = is_inf x.
Proof. now destruct x. Qed.

(** [round(-x, 2)] is [-round(x, 2)]: ties go to even on both sides. *)
Lemma float_round_2_neg (x : float) :
  float_round_2 (SFopp x)
  = match float_round_2 x with
    | inl e => inl e
    | inr y => inr (SFopp y)
    end.
Proof.
  destruct x as [s | s | | s m e]; try reflexivity.
  simpl SFopp. unfold float_round_2.
  destruct (round_half_even (100 * Z.pos m) e) as [| n | n]; try reflexivity;
    rewrite of_hundredths_neg, is_inf_neg;
    now destruct (is_inf (of_hundredths s _)).
Qed.

Lemma of_Z_neg (z : Z) : z <> 0 -> of_Z (- z) = SFopp (of_Z z).
Proof.
  destruct z as [| p | p]; [congruence | |]; intros _;
    unfold of_Z; simpl binary_normalize; unfold binary_round;
    destruct (shl_align p 0 _) as [mz ez].
  - apply (binary_round_aux_opp false).
  - rewrite (binary_round_aux_opp false).
    now destruct (binary_round_aux _ _ _ _ _ _) as [[] | [] | | [] m e].
Qed.

Lemma float_of_int_neg (z : Z) :
  z <> 0 ->
  float_of_int (- z)
  = match float_of_int z with
    | inl e => inl e
    | inr d => inr (SFopp d)
    end.
Proof.
  intros Hz. unfold float_of_int. rewrite (of_Z_neg z Hz), is_inf_neg.
  now destruct (is_inf (of_Z z)).
Qed.

Lemma spec_earnings_neg_amount apy amount d :
  spec_earnings apy (SFopp amount) d
  = match spec_earnings apy amount d with
    | inl e => inl e
    | inr y => inr (SFopp y)
    end.
Proof. unfold spec_earnings. now rewrite mul_neg_l, mul_neg_l, float_round_2_neg. Qed.

Lemma spec_earnings_neg_days apy amount d :
  spec_earnings apy amount (SFopp d)
  = match spec_earnings apy amount d with
    | inl e => inl e
    | inr y => inr (SFopp y)
    end.
Proof. unfold spec_earnings. now rewrite mul_neg_r, float_round_2_neg. Qed.

Lemma spec_earnings_neg_apy apy amount d :
  spec_earnings (SFopp apy) amount d
  = match spec_earnings apy amount d with
    | inl e => inl e
    | inr y => inr (SFopp y)
    end.
Proof.
  unfold spec_earnings, spec_daily_rate.
  now rewrite !div_neg_l, mul_neg_r, mul_neg_l, float_round_2_neg.
Qed.

(** ** Rounding a mantissa that has all its bits *)

Lemma iter_pos_shr_1_m (p : positive) (mrs : shr_record) :
  0 <= shr_m mrs ->
  shr_m (iter_pos shr_1 p mrs) = shr_m mrs / 2 ^ Z.pos p.
Proof. intros H. now rewrite iter_pos_nat, iter_shr_1_m, positive_nat_Z. Qed.

Lemma shr_1_r (mrs : shr_record) :
  0 <= shr_m mrs -> shr_r (shr_1 mrs) = Z.odd (shr_m mrs).
Proof.
  destruct mrs as [m r s]. simpl shr_m. intros Hm.
  destruct m as [| [p | p |] | p]; try reflexivity; lia.
Qed.

(** The round bit after a shift is the last bit shifted out. *)
Lemma iter_pos_shr_1_r (p : positive) (mrs : shr_record) :
  0 <= shr_m mrs ->
  shr_r (iter_pos shr_1 p mrs) = Z.odd (shr_m mrs / 2 ^ (Z.pos p - 1)).
Proof.
  intros H. rewrite iter_pos_nat.
  destruct (Pos.to_nat p) as [| n] eqn:En; [lia |].
  rewrite Nat.iter_succ, shr_1_r.
  - rewrite iter_shr_1_m by exact H. do 3 f_equal. lia.
  - rewrite iter_shr_1_m by exact H.
    apply Z.div_pos; [exact H | apply Z.pow_pos_nonneg; lia].
Qed.

Lemma round_nearest_even_keeps (mrs : shr_record) :
  shr_r mrs = false ->
  round_nearest_even (shr_m mrs) (loc_of_shr_record mrs) = shr_m mrs.
Proof. destruct mrs as [m [] []]; simpl; congruence. Qed.

Lemma round_nearest_even_odd_up (mrs : shr_record) :
  shr_r mrs = true -> Z.odd (shr_m mrs) = true ->
  round_nearest_even (shr_m mrs) (loc_of_shr_record mrs) = shr_m mrs + 1.
Proof.
  destruct mrs as [m [] []]; simpl; intros Hr Ho; try congruence.
  rewrite <- Z.negb_odd, Ho. reflexivity.
Qed.

(** With at least [prec] bits to start from, the result is an infinity or a
    normal number: exactly [prec] bits, and the exponent the magnitude
    asks for, or the next one after a carry. *)
Lemma binary_round_aux_normal (s : bool) (m e : Z) (l : location) :
  0 < m -> 53 <= Zdigits2 m -> -1074 <= e ->
  exists m2 e2,
    Zdigits2 (Z.pos m2) = 53 /\
    (e2 = Zdigits2 m + e - 53 \/ e2 = Zdigits2 m + e - 52) /\
    binary_round_aux prec emax s m e l
    = if e2 <=? 971 then S754_finite s m2 e2 else S754_infinity s.
Proof.
  intros Hm Hd He. unfold binary_round_aux.
  destruct (shr_fexp_m m e l ltac:(lia)) as [Hm1 He1]. cbv zeta in Hm1, He1.
  destruct (shr_fexp prec emax m e l) as [mrs1 e1]. simpl fst in Hm1. simpl snd in He1.
  replace (fexp prec emax (Zdigits2 m + e) - e) with (Zdigits2 m - 53) in Hm1, He1
    by (unfold fexp, emin, prec, emax; lia).
  assert (Hd1 : Zdigits2 (shr_m mrs1) = 53).
  { rewrite Hm1. destruct (Z.ltb_spec 0 (Zdigits2 m - 53)).
    - rewrite Zdigits2_div_pow2 by lia. lia.
    - lia. }
  assert (He1' : e1 = Zdigits2 m + e - 53)
    by (rewrite He1; destruct (Z.ltb_spec 0 (Zdigits2 m - 53)); lia).
  assert (Hm1nn : 0 <= shr_m mrs1).
  { rewrite Hm1. destruct (Z.ltb_spec 0 (Zdigits2 m - 53)); [| lia].
    apply Z.div_pos; [lia | apply Z.pow_pos_nonneg; lia]. }
  clear Hm1 He1.
  set (m1r := round_nearest_even (shr_m mrs1) (loc_of_shr_record mrs1)).
  pose proof (round_nearest_even_bounds (shr_m mrs1) (loc_of_shr_record mrs1)) as Hr.
  fold m1r in Hr.
  assert (Hm1pos : 0 < shr_m mrs1) by (destruct (shr_m mrs1); simpl in Hd1; lia).
  assert (Hd1r : 53 <= Zdigits2 m1r <= 54).
  { split.
    - rewrite <- Hd1. apply Zdigits2_mono. lia.
    - etransitivity; [apply (Zdigits2_mono m1r (shr_m mrs1 + 1)); lia |].
      pose proof (Zdigits2_succ_le (shr_m mrs1) ltac:(lia)). lia. }
  destruct (shr_fexp_m m1r e1 loc_Exact ltac:(lia)) as [Hm2 He2]. cbv zeta in Hm2, He2.
  destruct (shr_fexp prec emax m1r e1 loc_Exact) as [mrs2 e2].
  simpl fst in Hm2. simpl snd in He2.
  replace (fexp prec emax (Zdigits2 m1r + e1) - e1) with (Zdigits2 m1r - 53) in Hm2, He2
    by (unfold fexp, emin, prec, emax; lia).
  assert (Hd2 : Zdigits2 (shr_m mrs2) = 53).
  { rewrite Hm2. destruct (Z.ltb_spec 0 (Zdigits2 m1r - 53)).
    - rewrite Zdigits2_div_pow2 by lia. lia.
    - lia. }
  assert (Hm2nn : 0 <= shr_m mrs2).
  { rewrite Hm2. destruct (Z.ltb_spec 0 (Zdigits2 m1r - 53)); [| lia].
    apply Z.div_pos; [lia | apply Z.pow_pos_nonneg; lia]. }
  destruct (shr_m mrs2) as [| m2 | m2]; simpl in Hd2; try lia.
  exists m2, e2. split; [exact Hd2 |]. split; [| reflexivity].
  rewrite He2. destruct (Z.ltb_spec 0 (Zdigits2 m1r - 53)); lia.
Qed.

(** ** Conversion of an integer, in full *)

Lemma pos_iter_xO (m d : positive) :
  Z.pos (Pos.iter xO m d) = Z.pos m * 2 ^ Z.pos d.
Proof.
  rewrite <- Z.shiftl_mul_pow2 by lia. simpl Z.shiftl.
  apply (Pos.iter_swap_gen _ _ Z.pos xO (Z.mul 2)). reflexivity.
Qed.

Lemma shl_align_spec (mx : positive) (ex ex' : Z) :
  snd (shl_align mx ex ex') = Z.min ex ex' /\
  Z.pos (fst (shl_align mx ex ex')) = Z.pos mx * 2 ^ (ex - Z.min ex ex').
Proof.
  unfold shl_align. destruct (ex' - ex) as [| d | d] eqn:E; simpl fst; simpl snd.
  - rewrite Z.min_l by lia. rewrite Z.sub_diag. split; lia.
  - rewrite Z.min_l by lia. rewrite Z.sub_diag. split; lia.
  - rewrite Z.min_r by lia. split; [reflexivity |].
    rewrite pos_iter_xO. do 2 f_equal. lia.
Qed.

(** A nonzero integer converts to an infinity or to a normal number whose
    exponent follows the bit length [d] of the integer. *)
Lemma of_Z_pos_cases (p : positive) :
  exists m2 e2,
    Zdigits2 (Z.pos m2) = 53 /\
    (e2 = Zdigits2 (Z.pos p) - 53 \/ e2 = Zdigits2 (Z.pos p) - 52) /\
    of_Z (Z.pos p)
    = if e2 <=? 971 then S754_finite false m2 e2 else S754_infinity false.
Proof.
  unfold of_Z, binary_normalize, binary_round.
  change (Z.pos (digits2_pos p)) with (Zdigits2 (Z.pos p)).
  set (d := Zdigits2 (Z.pos p)).
  assert (Hd : 0 < d) by (unfold d; simpl; lia).
  destruct (shl_align_spec p 0 (fexp prec emax (d + 0))) as [Hez Hmz].
  destruct (shl_align p 0 (fexp prec emax (d + 0))) as [mz ez].
  simpl fst in Hmz. simpl snd in Hez.
  change (fexp prec emax (d + 0)) with (Z.max (d + 0 - 53) (-1074)) in Hez, Hmz.
  rewrite <- Hez in Hmz.
  assert (Hdz : Zdigits2 (Z.pos mz) = d - ez).
  { rewrite Hmz, Zdigits2_mul_pow2 by lia. fold d. lia. }
  destruct (binary_round_aux_normal false (Z.pos mz) ez loc_Exact) as (m2 & e2 & H2 & He2 & Heq);
    try lia.
  exists m2, e2. split; [exact H2 |]. split; [lia | exact Heq].
Qed.

Lemma of_Z_nonzero (z : Z) : z <> 0 -> is_zero (of_Z z) = false.
Proof.
  assert (Hpos : forall p, is_zero (of_Z (Z.pos p)) = false).
  { intros p. destruct (of_Z_pos_cases p) as (m2 & e2 & _ & _ & ->).
    now destruct (e2 <=? 971). }
  destruct z as [| p | p]; [congruence | |]; intros _; [apply Hpos |].
  change (Z.neg p) with (- Z.pos p). rewrite of_Z_neg by lia.
  specialize (Hpos p). now destruct (of_Z (Z.pos p)).
Qed.

(** Magnitude and exponent of a converted integer below [2^k]. *)
Lemma of_Z_bounded (z k : Z) :
  Z.abs z < 2 ^ k -> 0 <= k <= 1023 ->
  is_finite (of_Z z) = true /\
  magnitude_below (k + 1) (of_Z z) = true /\
  (forall s m e, of_Z z = S754_finite s m e -> e <= k - 52).
Proof.
  intros Hz Hk.
  assert (Hpos : forall p, Z.pos p < 2 ^ k ->
            is_finite (of_Z (Z.pos p)) = true /\
            magnitude_below (k + 1) (of_Z (Z.pos p)) = true /\
            (forall s m e, of_Z (Z.pos p) = S754_finite s m e -> e <= k - 52)).
  { intros p Hp.
    assert (Hd : Zdigits2 (Z.pos p) <= k) by (apply Zdigits2_le_iff; lia).
    destruct (of_Z_pos_cases p) as (m2 & e2 & H2 & He2 & ->).
    assert (Hle : e2 <= 971) by lia. apply Z.leb_le in Hle. rewrite Hle.
    split; [reflexivity |]. split.
    - apply Z.leb_le. lia.
    - intros s m e H. injection H as _ _ <-. lia. }
  destruct z as [| p | p].
  - repeat split; try reflexivity. discriminate.
  - apply Hpos. lia.
  - change (Z.neg p) with (- Z.pos p). rewrite of_Z_neg by lia.
    destruct (Hpos p ltac:(lia)) as (Hf & Hm & He).
    destruct (of_Z (Z.pos p)) as [s | s | | s m e]; try discriminate.
    + repeat split; try reflexivity. discriminate.
    + split; [reflexivity |]. split; [exact Hm |].
      intros s' m' e' H. injection H as _ _ <-. now apply (He s m e).
Qed.

(** ** Where the conversion of an integer overflows *)

(** In the last binade the conversion overflows from the midpoint between
    the largest float and [2^1024] on: the tie goes to the even side,
    which is [2^1024]. *)
Lemma of_Z_top_binade (p : positive) :
  2 ^ 1023 <= Z.pos p < 2 ^ 1024 ->
  is_inf (of_Z (Z.pos p)) = (int_to_float_limit <=? Z.pos p).
Proof.
  intros Hp.
  assert (Hd : Zdigits2 (Z.pos p) = 1024) by (apply Zdigits2_unique; [exact Hp | lia]).
  unfold of_Z, binary_normalize, binary_round.
  change (Z.pos (digits2_pos p)) with (Zdigits2 (Z.pos p)). rewrite Hd.
  change (shl_align p 0 (fexp prec emax (1024 + 0))) with (p, 0).
  unfold binary_round_aux.
  change (shr_fexp prec emax (Z.pos p) 0 loc_Exact)
    with (shr (shr_record_of_loc (Z.pos p) loc_Exact) 0
            (fexp prec emax (Zdigits2 (Z.pos p) + 0) - 0)).
  rewrite Hd.
  change (shr (shr_record_of_loc (Z.pos p) loc_Exact) 0 (fexp prec emax (1024 + 0) - 0))
    with (iter_pos shr_1 971 (Build_shr_record (Z.pos p) false false), 971).
  set (mrs1 := iter_pos shr_1 971 (Build_shr_record (Z.pos p) false false)).
  assert (Hq : shr_m mrs1 = Z.pos p / 2 ^ 971)
    by (unfold mrs1; rewrite iter_pos_shr_1_m; simpl shr_m; [reflexivity | lia]).
  assert (Hr : shr_r mrs1 = Z.odd (Z.pos p / 2 ^ 970))
    by (unfold mrs1; rewrite iter_pos_shr_1_r; simpl shr_m; [reflexivity | lia]).
  set (u := Z.pos p / 2 ^ 970) in *.
  assert (Hqu : Z.pos p / 2 ^ 971 = u / 2).
  { unfold u. rewrite Z.div_div by lia. reflexivity. }
  rewrite Hqu in Hq.
  assert (Hu : 2 ^ 53 <= u < 2 ^ 54).
  { unfold u. split.
    - apply Z.div_le_lower_bound; [lia |]. change (2 ^ 970 * 2 ^ 53) with (2 ^ 1023). lia.
    - apply Z.div_lt_upper_bound; [lia |]. change (2 ^ 970 * 2 ^ 54) with (2 ^ 1024). lia. }
  assert (Hlim : (int_to_float_limit <=? Z.pos p) = (2 ^ 54 - 1 <=? u)).
  { change int_to_float_limit with ((2 ^ 54 - 1) * 2 ^ 970).
    destruct (Z.leb_spec (2 ^ 54 - 1) u) as [Hle | Hlt].
    - apply Z.leb_le. unfold u in Hle.
      pose proof (Z.mul_div_le (Z.pos p) (2 ^ 970) ltac:(lia)). nia.
    - apply Z.leb_gt. unfold u in Hlt.
      pose proof (Z.mod_pos_bound (Z.pos p) (2 ^ 970) ltac:(lia)).
      pose proof (Z.div_mod (Z.pos p) (2 ^ 970) ltac:(lia)). nia. }
  rewrite Hlim. clear Hlim.
  pose proof (Zmod_odd u) as Hodd.
  pose proof (Z.div_mod u 2 ltac:(lia)) as Hdm.
  pose proof (Z.mod_pos_bound u 2 ltac:(lia)) as Hmb.
  set (m1r := round_nearest_even (shr_m mrs1) (loc_of_shr_record mrs1)).
  destruct (Z.leb_spec (2 ^ 54 - 1) u) as [Hle | Hlt].
  - (* the mantissa is all ones and the round bit is set: carry *)
    assert (Hu' : u = 2 ^ 54 - 1) by lia.
    assert (Hq' : shr_m mrs1 = 2 ^ 53 - 1) by (rewrite Hq, Hu'; reflexivity).
    assert (Hr' : shr_r mrs1 = true) by (rewrite Hr, Hu'; reflexivity).
    assert (Hm1r : m1r = 2 ^ 53).
    { unfold m1r. rewrite round_nearest_even_odd_up; [rewrite Hq'; reflexivity | exact Hr' |].
      rewrite Hq'. reflexivity. }
    rewrite Hm1r. reflexivity.
  - (* the rounded mantissa still has [prec] bits *)
    assert (Hm1r : 2 ^ 52 <= m1r <= 2 ^ 53 - 1).
    { pose proof (round_nearest_even_bounds (shr_m mrs1) (loc_of_shr_record mrs1)) as Hb.
      fold m1r in Hb. split; [lia |].
      destruct (shr_r mrs1) eqn:Er.
      - rewrite <- Hr in Hodd. cbv iota in Hodd. lia.
      - unfold m1r. rewrite round_nearest_even_keeps by exact Er. lia. }
    assert (Hd1r : Zdigits2 m1r = 53) by (apply Zdigits2_unique; lia).
    unfold shr_fexp. rewrite Hd1r.
    change (fexp prec emax (53 + 971) - 971) with 0. unfold shr.
    rewrite shr_record_of_loc_m.
    destruct m1r as [| m | m]; try lia. reflexivity.
Qed.

Lemma of_Z_is_inf (z : Z) :
  is_inf (of_Z z) = (int_to_float_limit <=? Z.abs z).
Proof.
  assert (Hpos : forall p, is_inf (of_Z (Z.pos p)) = (int_to_float_limit <=? Z.pos p)).
  { intros p.
    assert (Hlim : 2 ^ 1023 <= int_to_float_limit < 2 ^ 1024)
      by (unfold int_to_float_limit; lia).
    destruct (Z_lt_le_dec (Z.pos p) (2 ^ 1023)) as [Hlo | Hlo].
    - destruct (of_Z_bounded (Z.pos p) 1023) as [Hf _]; [simpl Z.abs; lia | lia |].
      replace (int_to_float_limit <=? Z.pos p) with false
        by (symmetry; apply Z.leb_gt; lia).
      now destruct (of_Z (Z.pos p)).
    - destruct (Z_lt_le_dec (Z.pos p) (2 ^ 1024)) as [Hhi | Hhi].
      + apply of_Z_top_binade. lia.
      + replace (int_to_float_limit <=? Z.pos p) with true
          by (symmetry; apply Z.leb_le; lia).
        destruct (of_Z_pos_cases p) as (m2 & e2 & _ & He2 & ->).
        assert (1025 <= Zdigits2 (Z.pos p)).
        { destruct (Z_lt_le_dec (Zdigits2 (Z.pos p)) 1025) as [Hlt | ]; [| lia].
          assert (Z.pos p < 2 ^ 1024) by (apply Zdigits2_le_iff; lia). lia. }
        replace (e2 <=? 971) with false by (symmetry; apply Z.leb_gt; lia).
        reflexivity. }
  destruct z as [| p | p].
  - reflexivity.
  - apply Hpos.
  - change (Z.neg p) with (- Z.pos p). rewrite of_Z_neg by lia.
    rewrite is_inf_neg, Z.abs_opp. apply Hpos.
Qed.

(** The conversion raises exactly from the limit on. *)
Lemma float_of_int_spec (z : Z) :
  float_of_int z
  = if int_to_float_limit <=? Z.abs z then inl OverflowError else inr (of_Z z).
Proof. unfold float_of_int. now rewrite of_Z_is_inf. Qed.

(** ** Reading a result back *)

(** What a returned dict tells about the run that produced it. *)
Lemma run_staking_simulation_inv pool amount days st res :
  fst (run_staking_simulation pool amount days st) = inr res ->
  exists d earnings,
    float_of_int days = inr d /\
    spec_earnings (StakingPool.apy pool) amount d = inr earnings /\
    res = [ ("pool_id", VInt (StakingPool.id pool));
            ("pool_name", VStr (StakingPool.name pool));
            ("amount_staked", VFloat amount);
            ("duration_days", VInt days);
            ("earnings", VFloat earnings) ].
Proof.
  rewrite run_staking_simulation_unfold. simpl fst.
  destruct (float_of_int days) as [e | d]; [discriminate |].
  destruct (spec_earnings _ amount d) as [e | r] eqn:Er; [discriminate |].
  intros H. injection H as <-. exists d, r. auto.
Qed.

Lemma dict_get_earnings pool_id pool_name amount days r earnings :
  dict_get [ ("pool_id", VInt pool_id);
             ("pool_name", VStr pool_name);
             ("amount_staked", VFloat amount);
             ("duration_days", VInt days);
             ("earnings", VFloat r) ] "earnings" = Some (VFloat earnings) ->
  r = earnings.
Proof. simpl. congruence. Qed.

(** ** Signs through a division and a product *)

Lemma div_sign (x : float) (sy : bool) (my : positive) (ey : Z) :
  is_finite x = true ->
  sign_bit (div x (S754_finite sy my ey)) = xorb (sign_bit x) sy.
Proof.
  destruct x as [sx | sx | | sx mx ex]; try discriminate; intros _; [reflexivity |].
  unfold div. simpl SFdiv.
  pose proof (SFdiv_core_binary_bound (Z.pos mx) ex (Z.pos my) ey) as H.
  destruct (SFdiv_core_binary prec emax (Z.pos mx) ex (Z.pos my) ey) as [[q e'] l].
  apply binary_round_aux_sign. apply H; lia.
Qed.

Lemma daily_rate_sign (apy : float) :
  valid apy = true -> is_finite apy = true ->
  sign_bit (spec_daily_rate apy) = sign_bit apy.
Proof.
  intros Hv Hf. unfold spec_daily_rate.
  assert (Hf1 : is_finite (div apy (of_Z 100)) = true).
  { change (of_Z 100) with (S754_finite false 7036874417766400 (-46)).
    destruct apy as [s | s | | s m e]; try discriminate; [reflexivity |].
    destruct (valid_finite_bounds s m e Hv) as [Hd He].
    apply (div_finite_bounded s false m 7036874417766400 e (-46) 1018); [| lia].
    change (Zdigits2 (Z.pos 7036874417766400)) with 53. lia. }
  change (of_Z 365) with (S754_finite false 6421147906211840 (-44)).
  rewrite (div_sign _ false _ _ Hf1).
  change (of_Z 100) with (S754_finite false 7036874417766400 (-46)).
  rewrite (div_sign _ false _ _ Hf). now rewrite !xorb_false_r.
Qed.

Lemma mul_sign_nonzero (x y : float) :
  is_nan x = false -> is_finite y = true -> is_zero y = false ->
  is_nan (mul x y) = false /\
  sign_bit (mul x y) = xorb (sign_bit x) (sign_bit y).
Proof.
  destruct x as [sx | sx | | sx mx ex], y as [sy | sy | | sy my ey];
    simpl; intros Hx Hy Hz; try discriminate; try (split; reflexivity).
  split; [apply binary_round_aux_shape | apply binary_round_aux_sign]; lia.
Qed.

Lemma leb_of_sign (r : float) :
  is_nan r = false ->
  (if sign_bit r then leb r zero else leb zero r) = true.
Proof. destruct r as [[] | [] | | [] m e]; cbn; intros; congruence. Qed.

(** ** Infinities and NaN through a product and a division *)

Lemma mul_non_finite_l (x y : float) :
  is_finite x = false -> is_finite (mul x y) = false.
Proof. destruct x, y; simpl; intros; congruence. Qed.

Lemma mul_non_finite_r (x y : float) :
  is_finite y = false -> is_finite (mul x y) = false.
Proof. destruct x, y; simpl; intros; congruence. Qed.

Lemma div_non_finite_l (x y : float) :
  is_finite x = false -> is_finite (div x y) = false.
Proof. destruct x, y; simpl; intros; congruence. Qed.

(** ** Negation of values that are not NaN *)



Lemma sign_bit_SFopp (x : float) :
  is_nan x = false -> sign_bit (SFopp x) = negb (sign_bit x).
Proof. destruct x; simpl; intros; congruence. Qed.

Lemma float_neg_some (x : float) :
  is_nan x = false -> float_neg x = Some (SFopp x).
Proof. destruct x; simpl; intros; congruence. Qed.




(** A NaN among the operands shows in the earnings. *)
Lemma spec_earnings_not_nan apy amount d earnings :
  spec_earnings apy amount d = inr earnings ->
  is_nan earnings = false ->
  is_nan apy = false /\ is_nan amount = false /\ is_nan d = false.
Proof.
  unfold spec_earnings, spec_daily_rate. intros H Hn.
  assert (Hp : is_nan (mul (mul amount (div (div apy (of_Z 100)) (of_Z 365))) d)
               = false).
  { destruct (mul (mul amount (div (div apy (of_Z 100)) (of_Z 365))) d)
      as [s | s | | s m e]; try reflexivity.
    simpl in H. injection H as <-. discriminate. }
  repeat split.
  - destruct apy; try reflexivity.
    change (div (div S754_nan (of_Z 100)) (of_Z 365)) with S754_nan in Hp.
    now destruct amount.
  - now destruct amount.
  - destruct d; try reflexivity.
    now destruct (mul amount (div (div apy (of_Z 100)) (of_Z 365))).
Qed.

(** * The claims *)

(** ** C1: the result of the calculator *)

(** C1, as stated, fails: the claim promises a result for every integer
    [duration_days], but the product [amount_staked * daily_rate *
    duration_days] converts [duration_days] to a float, and for
    [duration_days = 2**1024] that conversion raises OverflowError; no
    result is returned. *)
Lemma C1_duration_overflow_raises :
  valid (of_Z 1) = true /\
  fst (run_staking_simulation initial_eth_pool (of_Z 1) (2 ^ 1024) initial_process)
  = inl OverflowError.
Proof. split; vm_compute; reflexivity. Qed.

(** C1, amended: for every pool, every float [amount_staked] and every
    integer [duration_days] whose conversion to a float does not overflow,
    [run_staking_simulation] returns a dict whose [pool_id] is [pool.id],
    whose [pool_name] is [pool.name], whose [amount_staked] and
    [duration_days] are the inputs unchanged, and whose [earnings] is
    [round(amount_staked * (pool.apy/100/365) * duration_days, 2)]; in
    particular the rounding itself never raises. *)
Theorem run_staking_simulation_result
    (pool : StakingPool.t) (amount_staked : float) (duration_days : Z)
    (d : float) (st : Process) :
  float_of_int duration_days = inr d ->
  exists res earnings,
    run_staking_simulation pool amount_staked duration_days st = (inr res, st) /\
    dict_get res "pool_id" = Some (VInt (StakingPool.id pool)) /\
    dict_get res "pool_name" = Some (VStr (StakingPool.name pool)) /\
    dict_get res "amount_staked" = Some (VFloat amount_staked) /\
    dict_get res "duration_days" = Some (VInt duration_days) /\
    dict_get res "earnings" = Some (VFloat earnings) /\
    float_round_2
      (mul (mul amount_staked
                (div (div (StakingPool.apy pool) (of_Z 100)) (of_Z 365))) d)
    = inr earnings.
Proof.
  intros Hd.
  destruct (run_staking_simulation_returns pool amount_staked duration_days d st Hd)
    as (r & Hr & Hrun).
  eexists. exists r. split; [exact Hrun |]. repeat split. exact Hr.
Qed.

(** C1 at the hardcoded pool, 1000.0 staked for 365 days. *)
Lemma run_staking_simulation_result_witness :
  float_of_int 365 = inr (of_Z 365) /\
  exists res earnings,
    run_staking_simulation initial_eth_pool (of_Z 1000) 365 initial_process
    = (inr res, initial_process) /\
    dict_get res "pool_id" = Some (VInt (StakingPool.id initial_eth_pool)) /\
    dict_get res "pool_name" = Some (VStr (StakingPool.name initial_eth_pool)) /\
    dict_get res "amount_staked" = Some (VFloat (of_Z 1000)) /\
    dict_get res "duration_days" = Some (VInt 365) /\
    dict_get res "earnings" = Some (VFloat earnings) /\
    float_round_2
      (mul (mul (of_Z 1000)
                (div (div (StakingPool.apy initial_eth_pool) (of_Z 100)) (of_Z 365)))
           (of_Z 365))
    = inr earnings.
Proof.
  split; [vm_compute; reflexivity |].
  apply (run_staking_simulation_result initial_eth_pool (of_Z 1000) 365 (of_Z 365)
           initial_process).
  vm_compute; reflexivity.
Defined.

(** ** C2: the handler ignores [pool_id] *)

(** C2, as stated, fails on "both succeed": the two requests below differ
    only in [pool_id] (1 and the nonexistent 999) and both raise
    OverflowError, because [duration_days = 2**1024] does not convert to a
    float. *)
Lemma C2_both_requests_raise :
  fst (simulate_staking_yield (SimulationRequest.make 1 (of_Z 1) (2 ^ 1024))
         initial_process) = inl OverflowError /\
  fst (simulate_staking_yield (SimulationRequest.make 999 (of_Z 1) (2 ^ 1024))
         initial_process) = inl OverflowError.
Proof. split; vm_compute; reflexivity. Qed.

(** C2, amended: two requests that differ only in [pool_id] have the same
    outcome, which is the calculator's outcome for the pool held by the
    process, whatever [pool_id] says; and when their [duration_days]
    converts to a float both succeed, with identical responses. *)
Theorem simulate_staking_yield_ignores_pool_id
    (r1 r2 : SimulationRequest.t) (st : Process) :
  SimulationRequest.amount_staked r1 = SimulationRequest.amount_staked r2 ->
  SimulationRequest.duration_days r1 = SimulationRequest.duration_days r2 ->
  simulate_staking_yield r1 st = simulate_staking_yield r2 st /\
  simulate_staking_yield r1 st
  = run_staking_simulation (eth_pool st)
      (SimulationRequest.amount_staked r1)
      (SimulationRequest.duration_days r1) st /\
  (forall d,
      float_of_int (SimulationRequest.duration_days r1) = inr d ->
      exists res,
        simulate_staking_yield r1 st = (inr res, st) /\
        simulate_staking_yield r2 st = (inr res, st)).
Proof.
  intros Ha Hdays.
  rewrite !simulate_staking_yield_unfold, <- Ha, <- Hdays.
  split; [reflexivity |]. split; [reflexivity |].
  intros d Hd.
  destruct (run_staking_simulation_returns (eth_pool st)
              (SimulationRequest.amount_staked r1)
              (SimulationRequest.duration_days r1) d st Hd)
    as (earnings & _ & Hrun).
  eexists. split; exact Hrun.
Qed.

(** C2 at Scenario D: [pool_id] 1 against the nonexistent 999, 1000.0
    staked for 365 days; both requests succeed with the same response. *)
Lemma simulate_staking_yield_ignores_pool_id_witness :
  let r1 := SimulationRequest.make 1 (of_Z 1000) 365 in
  let r2 := SimulationRequest.make 999 (of_Z 1000) 365 in
  SimulationRequest.amount_staked r1 = SimulationRequest.amount_staked r2 /\
  SimulationRequest.duration_days r1 = SimulationRequest.duration_days r2 /\
  simulate_staking_yield r1 initial_process
  = simulate_staking_yield r2 initial_process /\
  exists res,
    simulate_staking_yield r1 initial_process = (inr res, initial_process) /\
    simulate_staking_yield r2 initial_process = (inr res, initial_process).
Proof.
  cbv zeta.
  destruct (simulate_staking_yield_ignores_pool_id
              (SimulationRequest.make 1 (of_Z 1000) 365)
              (SimulationRequest.make 999 (of_Z 1000) 365)
              initial_process eq_refl eq_refl) as (Hsame & _ & Hok).
  split; [reflexivity |]. split; [reflexivity |]. split; [exact Hsame |].
  apply (Hok (of_Z 365)). vm_compute; reflexivity.
Defined.

(** ** C3: the outcomes of the endpoint *)

(** C3, as stated, fails: the request below passes schema validation (the
    validator accepts it), yet the endpoint fails with a 500, because the
    calculator raises OverflowError on [duration_days = 2**1024]. *)
Lemma C3_valid_request_fails :
  let request := SimulationRequest.make 1 (of_Z 1) (2 ^ 1024) in
  valid (SimulationRequest.amount_staked request) = true /\
  (@Some SimulationRequest.t) request <> None /\
  post_simulate_staking (@Some SimulationRequest.t) request initial_process
  = (Response_500 OverflowError, initial_process).
Proof.
  cbv zeta. split; [vm_compute; reflexivity |]. split; [discriminate |].
  vm_compute; reflexivity.
Qed.

(** The only exception of the handler: the conversion of [duration_days]. *)
Lemma simulate_staking_yield_raises request st e :
  fst (simulate_staking_yield request st) = inl e ->
  e = OverflowError /\
  float_of_int (SimulationRequest.duration_days request) = inl OverflowError.
Proof.
  rewrite simulate_staking_yield_unfold, run_staking_simulation_unfold. simpl fst.
  unfold float_of_int.
  destruct (is_inf (of_Z (SimulationRequest.duration_days request))).
  - intros H. injection H as <-. split; reflexivity.
  - destruct (spec_earnings_total (StakingPool.apy (eth_pool st))
                (SimulationRequest.amount_staked request)
                (of_Z (SimulationRequest.duration_days request))) as (r & -> & _).
    discriminate.
Qed.

(** C3, amended: the endpoint answers 422 if and only if the body fails
    schema validation.  For a structurally valid request whose
    [duration_days] converts to a float, handler and calculator raise
    nothing and return the result, whatever the signs of [amount_staked]
    and [duration_days], and the response is a 200 carrying that result
    when its floats are finite.  The only exception the handler can raise
    is the OverflowError of a [duration_days] too large for a float: there
    is no domain error. *)
Theorem post_simulate_staking_outcomes
    {Body : Type} (validate : Body -> option SimulationRequest.t)
    (body : Body) (st : Process) :
  (fst (post_simulate_staking validate body st) = Response_422
   <-> validate body = None) /\
  (forall request,
      validate body = Some request ->
      (forall d,
          float_of_int (SimulationRequest.duration_days request) = inr d ->
          exists res,
            simulate_staking_yield request st = (inr res, st) /\
            (json_compliant res = true ->
             post_simulate_staking validate body st = (Response_200 res, st))) /\
      (forall e,
          fst (simulate_staking_yield request st) = inl e ->
          e = OverflowError /\
          float_of_int (SimulationRequest.duration_days request)
          = inl OverflowError)).
Proof.
  split.
  - unfold post_simulate_staking.
    destruct (validate body) as [request |]; [| split; reflexivity].
    split; [| discriminate].
    destruct (simulate_staking_yield request st) as [[e | res] st'];
      [discriminate |]. now destruct (json_compliant res).
  - intros request Hv. split.
    + intros d Hd.
      destruct (run_staking_simulation_returns (eth_pool st)
                  (SimulationRequest.amount_staked request)
                  (SimulationRequest.duration_days request) d st Hd)
        as (earnings & _ & Hrun).
      eexists. rewrite simulate_staking_yield_unfold. split; [exact Hrun |].
      intros Hj. unfold post_simulate_staking.
      now rewrite Hv, simulate_staking_yield_unfold, Hrun, Hj.
    + apply simulate_staking_yield_raises.
Qed.

(** C3 on a negative amount and a zero duration: computed through, 200. *)
Lemma post_simulate_staking_outcomes_witness :
  post_simulate_staking (@Some SimulationRequest.t)
    (SimulationRequest.make 1 (of_Z (-1000)) 0) initial_process
  = (Response_200
       [ ("pool_id", VInt 1);
         ("pool_name", VStr "ETH Staking Pool");
         ("amount_staked", VFloat (of_Z (-1000)));
         ("duration_days", VInt 0);
         ("earnings", VFloat (S754_zero true)) ],
     initial_process).
Proof.
  destruct (post_simulate_staking_outcomes (@Some SimulationRequest.t)
              (SimulationRequest.make 1 (of_Z (-1000)) 0) initial_process)
    as [_ H].
  destruct (H _ eq_refl) as [Hok _].
  destruct (Hok (S754_zero false) eq_refl) as (res & Hres & Hpost).
  vm_compute in Hres. injection Hres as <-.
  apply Hpost. vm_compute; reflexivity.
Defined.

(** ** C4: zero annihilates the earnings *)

(** C4, as stated, fails for floats that are not finite: with [apy = inf]
    and [amount_staked = 0] the earnings are NaN ([0 * inf]), and with
    [amount_staked = inf] and [duration_days = 0] they are NaN as well;
    NaN is not equal to 0.00. *)
Lemma C4_zero_does_not_annihilate :
  let pool := StakingPool.make 1 (Token.make "ETH") "ETH Staking Pool"
                (S754_infinity false) in
  fst (run_staking_simulation pool zero 5 initial_process)
  = inr [ ("pool_id", VInt 1);
          ("pool_name", VStr "ETH Staking Pool");
          ("amount_staked", VFloat zero);
          ("duration_days", VInt 5);
          ("earnings", VFloat S754_nan) ] /\
  fst (run_staking_simulation initial_eth_pool (S754_infinity false) 0 initial_process)
  = inr [ ("pool_id", VInt 1);
          ("pool_name", VStr "ETH Staking Pool");
          ("amount_staked", VFloat (S754_infinity false));
          ("duration_days", VInt 0);
          ("earnings", VFloat S754_nan) ] /\
  eqb S754_nan zero = false.
Proof. cbv zeta. repeat split; vm_compute; reflexivity. Qed.

(** C4, amended: for every pool with a finite [apy], the earnings equal
    0.00 (as 0.0 or -0.0) when [amount_staked] is zero and [duration_days]
    converts to a float, and when [duration_days] is 0 and the product
    [amount_staked * daily_rate] is finite. *)
Theorem zero_annihilates_earnings
    (pool : StakingPool.t) (amount_staked : float) (duration_days : Z)
    (d : float) (st : Process) :
  valid (StakingPool.apy pool) = true ->
  is_finite (StakingPool.apy pool) = true ->
  float_of_int duration_days = inr d ->
  is_zero amount_staked = true \/
  (duration_days = 0 /\
   is_finite (mul amount_staked
                (div (div (StakingPool.apy pool) (of_Z 100)) (of_Z 365))) = true) ->
  exists res earnings,
    run_staking_simulation pool amount_staked duration_days st = (inr res, st) /\
    dict_get res "earnings" = Some (VFloat earnings) /\
    eqb earnings zero = true.
Proof.
  intros Hv Hf Hd Hcase.
  rewrite run_staking_simulation_unfold, Hd.
  destruct (float_of_int_inr _ _ Hd) as (Hdz & Hdf & _).
  assert (Hz : is_zero (mul (mul amount_staked (spec_daily_rate (StakingPool.apy pool))) d)
               = true).
  { destruct Hcase as [Ha | [H0 Hp]].
    - apply mul_zero_l; [| exact Hdf].
      apply mul_zero_l; [exact Ha |]. now apply daily_rate_finite.
    - apply mul_zero_r; [exact Hp |]. subst duration_days. now rewrite Hdz. }
  unfold spec_earnings.
  destruct (float_round_2_zero _ Hz) as (y & -> & Hy).
  eexists. exists y. split; [reflexivity |]. split; [reflexivity |].
  now apply eqb_zero_of_is_zero.
Qed.

(** C4 at the hardcoded pool: nothing staked for 365 days, and 1000.0
    staked for no day. *)
Lemma zero_annihilates_earnings_witness :
  (valid (StakingPool.apy initial_eth_pool) = true /\
   is_finite (StakingPool.apy initial_eth_pool) = true /\
   float_of_int 365 = inr (of_Z 365) /\
   is_zero zero = true /\
   exists res earnings,
     run_staking_simulation initial_eth_pool zero 365 initial_process
     = (inr res, initial_process) /\
     dict_get res "earnings" = Some (VFloat earnings) /\
     eqb earnings zero = true) /\
  (float_of_int 0 = inr (of_Z 0) /\
   is_finite (mul (of_Z 1000)
                (div (div (StakingPool.apy initial_eth_pool) (of_Z 100)) (of_Z 365)))
   = true /\
   exists res earnings,
     run_staking_simulation initial_eth_pool (of_Z 1000) 0 initial_process
     = (inr res, initial_process) /\
     dict_get res "earnings" = Some (VFloat earnings) /\
     eqb earnings zero = true).
Proof.
  split.
  - repeat (split; [vm_compute; reflexivity |]).
    apply (zero_annihilates_earnings initial_eth_pool zero 365 (of_Z 365)
             initial_process); try (vm_compute; reflexivity).
    left. reflexivity.
  - repeat (split; [vm_compute; reflexivity |]).
    apply (zero_annihilates_earnings initial_eth_pool (of_Z 1000) 0 (of_Z 0)
             initial_process); try (vm_compute; reflexivity).
    right. split; vm_compute; reflexivity.
Defined.

(** ** C5: determinism and idempotence *)

(** C5: the outcome of [run_staking_simulation] is a function of its three
    arguments alone, whatever the state of the process it runs in; and
    calling the endpoint a second time with the same body, in the state
    the first call left, gives the same response, the first call having
    left the state as it found it. *)
Theorem simulation_is_deterministic :
  (forall pool amount_staked duration_days st st',
      fst (run_staking_simulation pool amount_staked duration_days st)
      = fst (run_staking_simulation pool amount_staked duration_days st')) /\
  (forall (Body : Type) (validate : Body -> option SimulationRequest.t)
          (body : Body) (st : Process),
      fst (post_simulate_staking validate body st)
      = fst (post_simulate_staking validate body
               (snd (post_simulate_staking validate body st))) /\
      snd (post_simulate_staking validate body st) = st).
Proof.
  split.
  - intros. now rewrite !run_staking_simulation_unfold.
  - intros Body validate body st.
    now rewrite !post_simulate_staking_frame.
Qed.

(** ** C6: Scenario A *)

(** C6: with the hardcoded pool, whose APY is 25, a request with
    [amount_staked = 1000] and [duration_days = 365] yields earnings of
    exactly 250.0: the daily rate 0.25/365 times 1000 times 365, rounded to
    two decimals. *)
Theorem scenario_A_earnings :
  simulate_staking_yield (SimulationRequest.make 1 (of_Z 1000) 365) initial_process
  = (inr [ ("pool_id", VInt 1);
           ("pool_name", VStr "ETH Staking Pool");
           ("amount_staked", VFloat (of_Z 1000));
           ("duration_days", VInt 365);
           ("earnings", VFloat (of_Z 250)) ],
     initial_process) /\
  StakingPool.apy initial_eth_pool = of_Z 25 /\
  float_round_2
    (mul (mul (of_Z 1000) (div (div (of_Z 25) (of_Z 100)) (of_Z 365))) (of_Z 365))
  = inr (of_Z 250).
Proof. repeat split; vm_compute; reflexivity. Qed.

(** ** C7: nothing is mutated *)

(** C7: the calculator and the handler leave the process state, that is the
    pool object with its id, token, name and apy, exactly as they found it;
    hence after any number of requests the state is still the one the
    sequence started in, every response is the one computed against that
    state, and from process start the pool is still the pool constructed
    at module load. *)
Theorem handling_requests_leaves_the_pool_unchanged :
  (forall pool amount_staked duration_days st,
      snd (run_staking_simulation pool amount_staked duration_days st) = st) /\
  (forall request st, snd (simulate_staking_yield request st) = st) /\
  (forall (Body : Type) (validate : Body -> option SimulationRequest.t)
          (bodies : list Body) (st : Process),
      snd (serve validate bodies st) = st /\
      fst (serve validate bodies st)
      = map (fun b => fst (post_simulate_staking validate b st)) bodies) /\
  (forall (Body : Type) (validate : Body -> option SimulationRequest.t)
          (bodies : list Body),
      eth_pool (snd (serve validate bodies initial_process))
      = StakingPool.make 1 (Token.make "ETH") "ETH Staking Pool" (of_Z 25)).
Proof.
  split; [exact run_staking_simulation_frame |].
  split; [exact simulate_staking_yield_frame |].
  split; intros Body validate bodies; [intros st |]; rewrite serve_spec;
    [split |]; reflexivity.
Qed.

(** ** C8: a very large duration *)



(** ** C9: the constants of the hardcoded pool *)

(** C9: in any sequence of bodies served since process start, a 200
    response in position [i] answers the body in position [i], which
    passed validation as some request; it carries [pool_id = 1] and
    [pool_name = 'ETH Staking Pool'], the amount and the duration of that
    very request, and as earnings the formula evaluated with [apy = 25] on
    that amount and duration. *)
Theorem successful_responses_carry_the_eth_pool
    {Body : Type} (validate : Body -> option SimulationRequest.t)
    (bodies : list Body) (i : nat) (res : PyDict) :
  nth_error (fst (serve validate bodies initial_process)) i
  = Some (Response_200 res) ->
  exists body request d earnings,
    nth_error bodies i = Some body /\
    validate body = Some request /\
    float_of_int (SimulationRequest.duration_days request) = inr d /\
    float_round_2
      (mul (mul (SimulationRequest.amount_staked request)
                (div (div (of_Z 25) (of_Z 100)) (of_Z 365))) d)
    = inr earnings /\
    res = [ ("pool_id", VInt 1);
            ("pool_name", VStr "ETH Staking Pool");
            ("amount_staked", VFloat (SimulationRequest.amount_staked request));
            ("duration_days", VInt (SimulationRequest.duration_days request));
            ("earnings", VFloat earnings) ] /\
    dict_get res "pool_id" = Some (VInt 1) /\
    dict_get res "pool_name" = Some (VStr "ETH Staking Pool") /\
    dict_get res "earnings" = Some (VFloat earnings).
Proof.
  rewrite serve_spec. simpl fst. rewrite nth_error_map. intros Hnth.
  destruct (nth_error bodies i) as [body |] eqn:Hbody; [| discriminate].
  simpl in Hnth. injection Hnth as Hpost.
  unfold post_simulate_staking in Hpost.
  destruct (validate body) as [request |] eqn:Hval; [| discriminate].
  destruct (float_of_int (SimulationRequest.duration_days request)) as [e | d] eqn:Hd.
  - rewrite simulate_staking_yield_unfold, run_staking_simulation_unfold, Hd in Hpost.
    discriminate.
  - destruct (simulate_staking_yield_initial request d Hd)
      as (r & Hr & _ & _ & _ & Hrun).
    rewrite Hrun in Hpost.
    destruct (json_compliant _); [| discriminate].
    simpl in Hpost. injection Hpost as <-.
    exists body, request, d, r. repeat split; assumption.
Qed.

(** C9 on a sequence whose second body names the nonexistent pool 999. *)
Lemma successful_responses_carry_the_eth_pool_witness :
  let bodies := [ SimulationRequest.make 1 (of_Z 2000) 30;
                  SimulationRequest.make 999 (of_Z 1000) 365 ] in
  let res := [ ("pool_id", VInt 1);
               ("pool_name", VStr "ETH Staking Pool");
               ("amount_staked", VFloat (of_Z 1000));
               ("duration_days", VInt 365);
               ("earnings", VFloat (of_Z 250)) ] in
  nth_error (fst (serve (@Some SimulationRequest.t) bodies initial_process)) 1
  = Some (Response_200 res) /\
  exists body request d earnings,
    nth_error bodies 1 = Some body /\
    Some body = Some request /\
    float_of_int (SimulationRequest.duration_days request) = inr d /\
    float_round_2
      (mul (mul (SimulationRequest.amount_staked request)
                (div (div (of_Z 25) (of_Z 100)) (of_Z 365))) d)
    = inr earnings /\
    res = [ ("pool_id", VInt 1);
            ("pool_name", VStr "ETH Staking Pool");
            ("amount_staked", VFloat (SimulationRequest.amount_staked request));
            ("duration_days", VInt (SimulationRequest.duration_days request));
            ("earnings", VFloat earnings) ] /\
    dict_get res "pool_id" = Some (VInt 1) /\
    dict_get res "pool_name" = Some (VStr "ETH Staking Pool") /\
    dict_get res "earnings" = Some (VFloat earnings).
Proof.
  cbv zeta.
  assert (H : nth_error
                (fst (serve (@Some SimulationRequest.t)
                        [ SimulationRequest.make 1 (of_Z 2000) 30;
                          SimulationRequest.make 999 (of_Z 1000) 365 ]
                        initial_process)) 1
              = Some (Response_200
                        [ ("pool_id", VInt 1);
                          ("pool_name", VStr "ETH Staking Pool");
                          ("amount_staked", VFloat (of_Z 1000));
                          ("duration_days", VInt 365);
                          ("earnings", VFloat (of_Z 250)) ]))
    by (vm_compute; reflexivity).
  split; [exact H |].
  exact (successful_responses_carry_the_eth_pool _ _ _ _ H).
Defined.

(** ** C10: the sign of the earnings *)


(** Negative earnings that overflow to an infinity are not delivered
    either: -(2**1023) staked for 2**20 days earns [-inf], and the response
    is a 500. *)
Lemma negative_infinite_earnings_answer_500 :
  let request := SimulationRequest.make 1 (of_Z (- 2 ^ 1023)) (2 ^ 20) in
  ltb (SimulationRequest.amount_staked request) zero = true /\
  0 < SimulationRequest.duration_days request /\
  (exists res,
     simulate_staking_yield request initial_process = (inr res, initial_process) /\
     dict_get res "earnings" = Some (VFloat (S754_infinity true))) /\
  post_simulate_staking (@Some SimulationRequest.t) request initial_process
  = (Response_500 ValueError, initial_process).
Proof.
  cbv zeta. split; [vm_compute; reflexivity |]. split; [reflexivity |].
  split; [| vm_compute; reflexivity].
  eexists. split; vm_compute; reflexivity.
Qed.



(** * Further properties of the calculator *)

(** ** Odd symmetry of the earnings *)

(** X1: negating [amount_staked] negates the earnings, exactly, whenever
    the earnings are a number: the products and the rounding to two
    decimals are symmetric around zero. *)
Theorem negated_amount_negates_earnings
    (pool : StakingPool.t) (amount_staked : float) (duration_days : Z)
    (st : Process) (res : PyDict) (earnings : float) :
  fst (run_staking_simulation pool amount_staked duration_days st) = inr res ->
  dict_get res "earnings" = Some (VFloat earnings) ->
  is_nan earnings = false ->
  exists negated_amount negated_earnings,
    float_neg amount_staked = Some negated_amount /\
    float_neg earnings = Some negated_earnings /\
    run_staking_simulation pool negated_amount duration_days st
    = (inr [ ("pool_id", VInt (StakingPool.id pool));
             ("pool_name", VStr (StakingPool.name pool));
             ("amount_staked", VFloat negated_amount);
             ("duration_days", VInt duration_days);
             ("earnings", VFloat negated_earnings) ], st).
Proof.
  intros Hrun Hget Hnan.
  destruct (run_staking_simulation_inv _ _ _ _ _ Hrun) as (d & r & Hd & Hr & ->).
  apply dict_get_earnings in Hget. subst r.
  destruct (spec_earnings_not_nan _ _ _ _ Hr Hnan) as (_ & Hna & _).
  exists (SFopp amount_staked), (SFopp earnings).
  split; [now apply float_neg_some |]. split; [now apply float_neg_some |].
  now rewrite run_staking_simulation_unfold, Hd, spec_earnings_neg_amount, Hr.
Qed.

(** X1 at the hardcoded pool: 1000.0 against -1000.0 staked for 365 days. *)
Lemma negated_amount_negates_earnings_witness :
  let res := [ ("pool_id", VInt 1);
               ("pool_name", VStr "ETH Staking Pool");
               ("amount_staked", VFloat (of_Z 1000));
               ("duration_days", VInt 365);
               ("earnings", VFloat (of_Z 250)) ] in
  fst (run_staking_simulation initial_eth_pool (of_Z 1000) 365 initial_process)
  = inr res /\
  dict_get res "earnings" = Some (VFloat (of_Z 250)) /\
  is_nan (of_Z 250) = false /\
  exists negated_amount negated_earnings,
    float_neg (of_Z 1000) = Some negated_amount /\
    float_neg (of_Z 250) = Some negated_earnings /\
    run_staking_simulation initial_eth_pool negated_amount 365 initial_process
    = (inr [ ("pool_id", VInt 1);
             ("pool_name", VStr "ETH Staking Pool");
             ("amount_staked", VFloat negated_amount);
             ("duration_days", VInt 365);
             ("earnings", VFloat negated_earnings) ], initial_process).
Proof.
  cbv zeta. split; [vm_compute; reflexivity |]. split; [vm_compute; reflexivity |].
  split; [vm_compute; reflexivity |].
  apply (negated_amount_negates_earnings initial_eth_pool (of_Z 1000) 365
           initial_process
           [ ("pool_id", VInt 1);
             ("pool_name", VStr "ETH Staking Pool");
             ("amount_staked", VFloat (of_Z 1000));
             ("duration_days", VInt 365);
             ("earnings", VFloat (of_Z 250)) ] (of_Z 250));
    vm_compute; reflexivity.
Defined.

(** X2: negating a nonzero [duration_days] negates the earnings, exactly,
    whenever the earnings are a number (at 0 the run is the same run, and
    the sign of a zero result is kept). *)
Theorem negated_duration_negates_earnings
    (pool : StakingPool.t) (amount_staked : float) (duration_days : Z)
    (st : Process) (res : PyDict) (earnings : float) :
  duration_days <> 0 ->
  fst (run_staking_simulation pool amount_staked duration_days st) = inr res ->
  dict_get res "earnings" = Some (VFloat earnings) ->
  is_nan earnings = false ->
  exists negated_earnings,
    float_neg earnings = Some negated_earnings /\
    run_staking_simulation pool amount_staked (- duration_days) st
    = (inr [ ("pool_id", VInt (StakingPool.id pool));
             ("pool_name", VStr (StakingPool.name pool));
             ("amount_staked", VFloat amount_staked);
             ("duration_days", VInt (- duration_days));
             ("earnings", VFloat negated_earnings) ], st).
Proof.
  intros Hnz Hrun Hget Hnan.
  destruct (run_staking_simulation_inv _ _ _ _ _ Hrun) as (d & r & Hd & Hr & ->).
  apply dict_get_earnings in Hget. subst r.
  exists (SFopp earnings). split; [now apply float_neg_some |].
  now rewrite run_staking_simulation_unfold, float_of_int_neg, Hd,
    spec_earnings_neg_days, Hr.
Qed.

(** X2 at the hardcoded pool: 365 days against -365 days. *)
Lemma negated_duration_negates_earnings_witness :
  let res := [ ("pool_id", VInt 1);
               ("pool_name", VStr "ETH Staking Pool");
               ("amount_staked", VFloat (of_Z 1000));
               ("duration_days", VInt 365);
               ("earnings", VFloat (of_Z 250)) ] in
  365 <> 0 /\
  fst (run_staking_simulation initial_eth_pool (of_Z 1000) 365 initial_process)
  = inr res /\
  dict_get res "earnings" = Some (VFloat (of_Z 250)) /\
  is_nan (of_Z 250) = false /\
  exists negated_earnings,
    float_neg (of_Z 250) = Some negated_earnings /\
    run_staking_simulation initial_eth_pool (of_Z 1000) (- 365) initial_process
    = (inr [ ("pool_id", VInt 1);
             ("pool_name", VStr "ETH Staking Pool");
             ("amount_staked", VFloat (of_Z 1000));
             ("duration_days", VInt (- 365));
             ("earnings", VFloat negated_earnings) ], initial_process).
Proof.
  cbv zeta. split; [lia |]. split; [vm_compute; reflexivity |].
  split; [vm_compute; reflexivity |]. split; [vm_compute; reflexivity |].
  apply (negated_duration_negates_earnings initial_eth_pool (of_Z 1000) 365
           initial_process
           [ ("pool_id", VInt 1);
             ("pool_name", VStr "ETH Staking Pool");
             ("amount_staked", VFloat (of_Z 1000));
             ("duration_days", VInt 365);
             ("earnings", VFloat (of_Z 250)) ] (of_Z 250));
    [lia | vm_compute; reflexivity | vm_compute; reflexivity
    | vm_compute; reflexivity].
Defined.

(** X3: a pool whose [apy] is negated gives the negated earnings, exactly,
    whenever the earnings are a number. *)
Theorem negated_apy_negates_earnings
    (pool : StakingPool.t) (amount_staked : float) (duration_days : Z)
    (st : Process) (res : PyDict) (earnings : float) :
  fst (run_staking_simulation pool amount_staked duration_days st) = inr res ->
  dict_get res "earnings" = Some (VFloat earnings) ->
  is_nan earnings = false ->
  exists negated_apy negated_earnings,
    float_neg (StakingPool.apy pool) = Some negated_apy /\
    float_neg earnings = Some negated_earnings /\
    run_staking_simulation (with_apy pool negated_apy)
      amount_staked duration_days st
    = (inr [ ("pool_id", VInt (StakingPool.id pool));
             ("pool_name", VStr (StakingPool.name pool));
             ("amount_staked", VFloat amount_staked);
             ("duration_days", VInt duration_days);
             ("earnings", VFloat negated_earnings) ], st).
Proof.
  intros Hrun Hget Hnan.
  destruct (run_staking_simulation_inv _ _ _ _ _ Hrun) as (d & r & Hd & Hr & ->).
  apply dict_get_earnings in Hget. subst r.
  destruct (spec_earnings_not_nan _ _ _ _ Hr Hnan) as (Hnapy & _ & _).
  exists (SFopp (StakingPool.apy pool)), (SFopp earnings).
  split; [now apply float_neg_some |]. split; [now apply float_neg_some |].
  rewrite run_staking_simulation_unfold, Hd. simpl StakingPool.apy.
  now rewrite spec_earnings_neg_apy, Hr.
Qed.

(** X3 at the hardcoded pool against the same pool with [apy = -25]. *)
Lemma negated_apy_negates_earnings_witness :
  let res := [ ("pool_id", VInt 1);
               ("pool_name", VStr "ETH Staking Pool");
               ("amount_staked", VFloat (of_Z 1000));
               ("duration_days", VInt 365);
               ("earnings", VFloat (of_Z 250)) ] in
  fst (run_staking_simulation initial_eth_pool (of_Z 1000) 365 initial_process)
  = inr res /\
  dict_get res "earnings" = Some (VFloat (of_Z 250)) /\
  is_nan (of_Z 250) = false /\
  exists negated_apy negated_earnings,
    float_neg (StakingPool.apy initial_eth_pool) = Some negated_apy /\
    float_neg (of_Z 250) = Some negated_earnings /\
    run_staking_simulation (with_apy initial_eth_pool negated_apy)
      (of_Z 1000) 365 initial_process
    = (inr [ ("pool_id", VInt 1);
             ("pool_name", VStr "ETH Staking Pool");
             ("amount_staked", VFloat (of_Z 1000));
             ("duration_days", VInt 365);
             ("earnings", VFloat negated_earnings) ], initial_process).
Proof.
  cbv zeta. split; [vm_compute; reflexivity |]. split; [vm_compute; reflexivity |].
  split; [vm_compute; reflexivity |].
  apply (negated_apy_negates_earnings initial_eth_pool (of_Z 1000) 365
           initial_process
           [ ("pool_id", VInt 1);
             ("pool_name", VStr "ETH Staking Pool");
             ("amount_staked", VFloat (of_Z 1000));
             ("duration_days", VInt 365);
             ("earnings", VFloat (of_Z 250)) ] (of_Z 250));
    vm_compute; reflexivity.
Defined.

(** ** When the calculator raises *)

(** X4: [run_staking_simulation] raises exactly when the magnitude of
    [duration_days] reaches [2**1024 - 2**970], whatever the pool and the
    amount; the exception is then OverflowError, and no other exception is
    ever raised.  Below that limit it returns. *)
Theorem run_staking_simulation_raises_iff
    (pool : StakingPool.t) (amount_staked : float) (duration_days : Z)
    (st : Process) :
  (fst (run_staking_simulation pool amount_staked duration_days st)
   = inl OverflowError
   <-> int_to_float_limit <= Z.abs duration_days) /\
  ((exists res,
       fst (run_staking_simulation pool amount_staked duration_days st) = inr res)
   <-> Z.abs duration_days < int_to_float_limit) /\
  (forall e,
      fst (run_staking_simulation pool amount_staked duration_days st) = inl e ->
      e = OverflowError).
Proof.
  rewrite run_staking_simulation_unfold, float_of_int_spec. simpl fst.
  destruct (spec_earnings_total (StakingPool.apy pool) amount_staked (of_Z duration_days))
    as (r & Hr & _).
  destruct (Z.leb_spec int_to_float_limit (Z.abs duration_days)) as [Hle | Hlt].
  - split; [split; [intros _; exact Hle | reflexivity] |].
    split; [split; [intros [res H]; discriminate | lia] |].
    intros e H. now injection H as <-.
  - rewrite Hr.
    split; [split; [discriminate | lia] |].
    split; [split; [intros _; exact Hlt | intros _; eexists; reflexivity] |].
    discriminate.
Qed.


(** ** The sign of the earnings, for any pool *)

(** X5: for any pool with a finite [apy], which may be negative, any finite
    [amount_staked] and any nonzero [duration_days] that converts: the
    earnings are a number, and their sign bit is the exclusive or of the
    three signs.  So they are [<= 0] when an odd number of the three is
    negative and [>= 0] otherwise. *)
Theorem earnings_sign_law
    (pool : StakingPool.t) (amount_staked : float) (duration_days : Z)
    (d : float) (st : Process) :
  valid (StakingPool.apy pool) = true ->
  is_finite (StakingPool.apy pool) = true ->
  is_finite amount_staked = true ->
  duration_days <> 0 ->
  float_of_int duration_days = inr d ->
  exists res earnings,
    run_staking_simulation pool amount_staked duration_days st = (inr res, st) /\
    dict_get res "earnings" = Some (VFloat earnings) /\
    is_nan earnings = false /\
    sign_bit earnings
    = xorb (xorb (sign_bit amount_staked) (sign_bit (StakingPool.apy pool)))
        (duration_days <? 0) /\
    (if sign_bit earnings then leb earnings zero else leb zero earnings) = true.
Proof.
  intros Hv Hfapy Hfa Hnz Hd.
  destruct (float_of_int_inr _ _ Hd) as (Hdz & Hfd & _ & Hsd).
  assert (Hzd : is_zero d = false) by (rewrite Hdz; now apply of_Z_nonzero).
  pose proof (daily_rate_finite _ Hv Hfapy) as Hfr.
  pose proof (daily_rate_sign _ Hv Hfapy) as Hsr.
  destruct (mul_sign amount_staked _ Hfa Hfr) as [Hn1 Hs1].
  destruct (mul_sign_nonzero _ d Hn1 Hfd Hzd) as [Hn2 Hs2].
  destruct (spec_earnings_total (StakingPool.apy pool) amount_staked d)
    as (r & Hr & Hnan & _ & Hsign).
  rewrite run_staking_simulation_unfold, Hd, Hr.
  eexists. exists r. split; [reflexivity |]. split; [reflexivity |].
  assert (Hnr : is_nan r = false) by congruence.
  split; [exact Hnr |]. split; [| now apply leb_of_sign].
  now rewrite Hsign, Hs2, Hs1, Hsr, Hsd.
Qed.

(** X5 at a pool with [apy = -25]: positive amount and duration. *)
Lemma earnings_sign_law_witness :
  let pool := with_apy initial_eth_pool (of_Z (-25)) in
  valid (StakingPool.apy pool) = true /\
  is_finite (StakingPool.apy pool) = true /\
  is_finite (of_Z 1000) = true /\
  365 <> 0 /\
  float_of_int 365 = inr (of_Z 365) /\
  exists res earnings,
    run_staking_simulation pool (of_Z 1000) 365 initial_process
    = (inr res, initial_process) /\
    dict_get res "earnings" = Some (VFloat earnings) /\
    is_nan earnings = false /\
    sign_bit earnings
    = xorb (xorb (sign_bit (of_Z 1000)) (sign_bit (StakingPool.apy pool)))
        (365 <? 0) /\
    (if sign_bit earnings then leb earnings zero else leb zero earnings) = true.
Proof.
  cbv zeta.
  split; [vm_compute; reflexivity |]. split; [vm_compute; reflexivity |].
  split; [vm_compute; reflexivity |]. split; [lia |].
  split; [vm_compute; reflexivity |].
  apply (earnings_sign_law (with_apy initial_eth_pool (of_Z (-25))) (of_Z 1000) 365
           (of_Z 365) initial_process);
    [vm_compute; reflexivity | vm_compute; reflexivity | vm_compute; reflexivity
    | lia | vm_compute; reflexivity].
Defined.

(** ** A region without overflow *)

(** X6: with the hardcoded pool, an [amount_staked] below [2^a] and a
    [duration_days] below [2^k] in magnitude, where [a + k <= 1031] and
    [k <= 1023]: the handler returns, the earnings are finite, and the
    endpoint answers 200. *)
Theorem no_overflow_region
    (pool_id : Z) (amount_staked : float) (duration_days a k : Z) :
  magnitude_below a amount_staked = true ->
  Z.abs duration_days < 2 ^ k ->
  -1064 <= a <= 1024 -> 0 <= k <= 1023 -> a + k <= 1031 ->
  exists res earnings,
    simulate_staking_yield
      (SimulationRequest.make pool_id amount_staked duration_days) initial_process
    = (inr res, initial_process) /\
    dict_get res "earnings" = Some (VFloat earnings) /\
    is_finite earnings = true /\
    post_simulate_staking (@Some SimulationRequest.t)
      (SimulationRequest.make pool_id amount_staked duration_days) initial_process
    = (Response_200 res, initial_process).
Proof.
  intros Hb Hdays Ha Hk Hak.
  set (request := SimulationRequest.make pool_id amount_staked duration_days).
  assert (Hfa : is_finite amount_staked = true)
    by (destruct amount_staked; simpl in *; congruence).
  destruct (of_Z_bounded duration_days k Hdays Hk) as (Hfd & Hmd & Hed).
  assert (Hd : float_of_int (SimulationRequest.duration_days request)
               = inr (of_Z duration_days)).
  { unfold float_of_int. simpl SimulationRequest.duration_days.
    now destruct (of_Z duration_days). }
  destruct (simulate_staking_yield_initial request _ Hd)
    as (r & _ & _ & Hfin & _ & Hrun).
  assert (Hr : is_finite r = true).
  { rewrite Hfin. simpl SimulationRequest.amount_staked.
    destruct (mul_rate_eth_finite amount_staked a Hfa Hb ltac:(lia)) as [Hf1 Hb1].
    destruct (mul amount_staked (S754_finite false 6317378107434778 (-63)))
      as [s1 | s1 | | s1 m1 e1]; try discriminate.
    - now destruct (of_Z duration_days).
    - destruct (of_Z duration_days) as [sd | sd | | sd md ed] eqn:Ed;
        try discriminate; [reflexivity |].
      apply Z.leb_le in Hb1, Hmd. specialize (Hed sd md ed eq_refl).
      assert (0 < Zdigits2 (Z.pos m1)) by (simpl; lia).
      apply (mul_finite_bounded s1 sd m1 md e1 ed (a - 9) (k + 1)); lia. }
  eexists. exists r. split; [exact Hrun |]. split; [reflexivity |].
  split; [exact Hr |].
  eapply post_simulate_staking_200; [reflexivity | exact Hrun |].
  simpl. now rewrite Hfa, Hr.
Qed.

(** X6 at 10^12 staked over -36500 days. *)
Lemma no_overflow_region_witness :
  magnitude_below 64 (of_Z 1000000000000) = true /\
  Z.abs (-36500) < 2 ^ 32 /\
  -1064 <= 64 <= 1024 /\ 0 <= 32 <= 1023 /\ 64 + 32 <= 1031 /\
  exists res earnings,
    simulate_staking_yield
      (SimulationRequest.make 7 (of_Z 1000000000000) (-36500)) initial_process
    = (inr res, initial_process) /\
    dict_get res "earnings" = Some (VFloat earnings) /\
    is_finite earnings = true /\
    post_simulate_staking (@Some SimulationRequest.t)
      (SimulationRequest.make 7 (of_Z 1000000000000) (-36500)) initial_process
    = (Response_200 res, initial_process).
Proof.
  split; [vm_compute; reflexivity |]. split; [vm_compute; reflexivity |].
  split; [lia |]. split; [lia |]. split; [lia |].
  apply (no_overflow_region 7 (of_Z 1000000000000) (-36500) 64 32);
    [vm_compute; reflexivity | vm_compute; reflexivity | lia | lia | lia].
Defined.

(** ** Infinities and NaN pass through *)

(** X7: an [amount_staked] or an [apy] that is an infinity or a NaN is not
    rejected: when [duration_days] converts, the calculator returns, and
    the earnings it returns are an infinity or a NaN as well. *)
Theorem non_finite_input_gives_non_finite_earnings
    (pool : StakingPool.t) (amount_staked : float) (duration_days : Z)
    (d : float) (st : Process) :
  float_of_int duration_days = inr d ->
  is_finite amount_staked = false \/ is_finite (StakingPool.apy pool) = false ->
  exists res earnings,
    run_staking_simulation pool amount_staked duration_days st = (inr res, st) /\
    dict_get res "earnings" = Some (VFloat earnings) /\
    is_finite earnings = false.
Proof.
  intros Hd Hcase.
  destruct (spec_earnings_total (StakingPool.apy pool) amount_staked d)
    as (r & Hr & _ & Hfin & _).
  rewrite run_staking_simulation_unfold, Hd, Hr.
  eexists. exists r. split; [reflexivity |]. split; [reflexivity |].
  rewrite Hfin. apply mul_non_finite_l.
  destruct Hcase as [Ha | Hapy].
  - now apply mul_non_finite_l.
  - apply mul_non_finite_r. unfold spec_daily_rate.
    now do 2 apply div_non_finite_l.
Qed.

(** X7 at a NaN amount, and at a pool with an infinite [apy]. *)
Lemma non_finite_input_gives_non_finite_earnings_witness :
  (float_of_int 365 = inr (of_Z 365) /\
   is_finite S754_nan = false /\
   exists res earnings,
     run_staking_simulation initial_eth_pool S754_nan 365 initial_process
     = (inr res, initial_process) /\
     dict_get res "earnings" = Some (VFloat earnings) /\
     is_finite earnings = false) /\
  (is_finite (StakingPool.apy (with_apy initial_eth_pool (S754_infinity false)))
   = false /\
   exists res earnings,
     run_staking_simulation (with_apy initial_eth_pool (S754_infinity false))
       (of_Z 1000) 365 initial_process
     = (inr res, initial_process) /\
     dict_get res "earnings" = Some (VFloat earnings) /\
     is_finite earnings = false).
Proof.
  split.
  - split; [vm_compute; reflexivity |]. split; [reflexivity |].
    apply (non_finite_input_gives_non_finite_earnings initial_eth_pool S754_nan 365
             (of_Z 365) initial_process); [vm_compute; reflexivity |].
    left. reflexivity.
  - split; [reflexivity |].
    apply (non_finite_input_gives_non_finite_earnings
             (with_apy initial_eth_pool (S754_infinity false)) (of_Z 1000) 365
             (of_Z 365) initial_process); [vm_compute; reflexivity |].
    right. reflexivity.
Defined.

(** ** Every computed float is a binary64 value *)

(** Rounding a mantissa that carries enough bits for its magnitude gives a
    canonical result. *)
Lemma binary_round_aux_valid (s : bool) (m e : Z) (l : location) :
  0 <= m -> e <= Z.max (Zdigits2 m + e - 53) (-1074) ->
  valid (binary_round_aux prec emax s m e l) = true.
Proof.
  intros Hm Hc. unfold binary_round_aux.
  destruct (shr_fexp_m m e l Hm) as [Hm1 He1]. cbv zeta in Hm1, He1.
  destruct (shr_fexp prec emax m e l) as [mrs1 e1]. simpl fst in Hm1. simpl snd in He1.
  change (fexp prec emax (Zdigits2 m + e)) with (Z.max (Zdigits2 m + e - 53) (-1074))
    in Hm1, He1.
  pose proof (Zdigits2_nonneg m) as Hd.
  (* after the first alignment the pair is canonical or the mantissa is 0 *)
  assert (H1 : 0 <= shr_m mrs1 /\
               e1 <= Z.max (Zdigits2 (shr_m mrs1) + e1 - 53) (-1074) \/
               0 = shr_m mrs1 /\ e1 <= -1074).
  { destruct (Z.ltb_spec 0 (Z.max (Zdigits2 m + e - 53) (-1074) - e)) as [Hj | Hj].
    - assert (0 <= m / 2 ^ (Z.max (Zdigits2 m + e - 53) (-1074) - e))
        by (apply Z.div_pos; [lia | apply Z.pow_pos_nonneg; lia]).
      pose proof (Zdigits2_div_pow2 m (Z.max (Zdigits2 m + e - 53) (-1074) - e) Hm
                    ltac:(lia)) as Hdd.
      rewrite <- Hm1 in Hdd, H.
      destruct (Z.eq_dec (shr_m mrs1) 0) as [E0 | Hne].
      + right. rewrite E0 in Hdd. simpl in Hdd. lia.
      + left. split; [exact H |].
        assert (0 < Zdigits2 (shr_m mrs1)) by (destruct (shr_m mrs1); simpl; lia).
        lia.
    - left. rewrite Hm1, He1. split; lia. }
  set (m1r := round_nearest_even (shr_m mrs1) (loc_of_shr_record mrs1)).
  pose proof (round_nearest_even_bounds (shr_m mrs1) (loc_of_shr_record mrs1)) as Hr.
  fold m1r in Hr.
  assert (Hm1r : 0 <= m1r) by lia.
  assert (Hmono : Zdigits2 (shr_m mrs1) <= Zdigits2 m1r)
    by (apply Zdigits2_mono; lia).
  destruct (shr_fexp_m m1r e1 loc_Exact Hm1r) as [Hm2 He2]. cbv zeta in Hm2, He2.
  destruct (shr_fexp prec emax m1r e1 loc_Exact) as [mrs2 e2].
  simpl fst in Hm2. simpl snd in He2.
  change (fexp prec emax (Zdigits2 m1r + e1)) with (Z.max (Zdigits2 m1r + e1 - 53) (-1074))
    in Hm2, He2.
  pose proof (Zdigits2_nonneg m1r) as Hd1r.
  assert (H2 : 0 <= shr_m mrs2 /\
               (shr_m mrs2 = 0 \/
                e2 = Z.max (Zdigits2 (shr_m mrs2) + e2 - 53) (-1074))).
  { destruct (Z.ltb_spec 0 (Z.max (Zdigits2 m1r + e1 - 53) (-1074) - e1)) as [Hj | Hj].
    - assert (0 <= m1r / 2 ^ (Z.max (Zdigits2 m1r + e1 - 53) (-1074) - e1))
        by (apply Z.div_pos; [lia | apply Z.pow_pos_nonneg; lia]).
      pose proof (Zdigits2_div_pow2 m1r (Z.max (Zdigits2 m1r + e1 - 53) (-1074) - e1)
                    Hm1r ltac:(lia)) as Hdd.
      rewrite <- Hm2 in Hdd, H. split; [exact H |].
      destruct (Z.eq_dec (shr_m mrs2) 0) as [E0 | Hne]; [left; exact E0 | right].
      assert (0 < Zdigits2 (shr_m mrs2)) by (destruct (shr_m mrs2); simpl; lia).
      lia.
    - rewrite Hm2, He2. split; [lia |]. right. lia. }
  destruct H2 as [Hnn H2].
  destruct (shr_m mrs2) as [| m2 | m2]; [reflexivity | | lia].
  destruct H2 as [H2 | H2]; [discriminate |].
  destruct (Z.leb_spec e2 (emax - prec)) as [Hle | Hgt]; [| reflexivity].
  unfold valid, valid_binary, bounded, canonical_mantissa.
  apply andb_true_iff. split; [apply Z.eqb_eq | apply Z.leb_le; exact Hle].
  change (fexp prec emax (Z.pos (digits2_pos m2) + e2))
    with (Z.max (Zdigits2 (Z.pos m2) + e2 - 53) (-1074)).
  lia.
Qed.

Lemma valid_finite_canonical (s : bool) (m : positive) (e : Z) :
  valid (S754_finite s m e) = true ->
  e = Z.max (Zdigits2 (Z.pos m) + e - 53) (-1074).
Proof.
  unfold valid, valid_binary, bounded, canonical_mantissa. intros H.
  apply andb_true_iff in H. destruct H as [Hc _]. apply Z.eqb_eq in Hc.
  change (fexp prec emax (Z.pos (digits2_pos m) + e))
    with (Z.max (Zdigits2 (Z.pos m) + e - 53) (-1074)) in Hc.
  lia.
Qed.

Lemma Zdigits2_mul_ge (a b : Z) :
  0 < a -> 0 < b -> Zdigits2 a + Zdigits2 b - 1 <= Zdigits2 (a * b).
Proof.
  intros Ha Hb.
  pose proof (Zdigits2_bounds a Ha) as [Hloa _].
  pose proof (Zdigits2_bounds b Hb) as [Hlob _].
  assert (0 < Zdigits2 a) by (destruct a; simpl; lia).
  assert (0 < Zdigits2 b) by (destruct b; simpl; lia).
  destruct (Z_lt_le_dec (Zdigits2 (a * b)) (Zdigits2 a + Zdigits2 b - 1))
    as [Hlt | ]; [| lia].
  assert (Hub : a * b < 2 ^ (Zdigits2 a + Zdigits2 b - 2)).
  { apply Zdigits2_le_iff; [nia | lia | lia]. }
  replace (Zdigits2 a + Zdigits2 b - 2) with ((Zdigits2 a - 1) + (Zdigits2 b - 1)) in Hub
    by lia.
  rewrite Z.pow_add_r in Hub by lia.
  assert (0 < 2 ^ (Zdigits2 a - 1)) by (apply Z.pow_pos_nonneg; lia).
  assert (0 < 2 ^ (Zdigits2 b - 1)) by (apply Z.pow_pos_nonneg; lia).
  nia.
Qed.

Lemma mul_valid (x y : float) :
  valid x = true -> valid y = true -> valid (mul x y) = true.
Proof.
  destruct x as [sx | sx | | sx mx ex], y as [sy | sy | | sy my ey];
    try reflexivity.
  intros Hx Hy. unfold mul. simpl SFmul.
  apply valid_finite_canonical in Hx, Hy.
  apply binary_round_aux_valid; [lia |].
  rewrite Pos2Z.inj_mul.
  pose proof (Zdigits2_mul_ge (Z.pos mx) (Z.pos my) ltac:(lia) ltac:(lia)).
  assert (0 < Zdigits2 (Z.pos mx)) by (simpl; lia).
  assert (0 < Zdigits2 (Z.pos my)) by (simpl; lia).
  lia.
Qed.

(** The quotient mantissa that [SFdiv_core_binary] prepares carries enough
    bits, whatever the operands. *)
Lemma SFdiv_core_binary_precise (m1 e1 m2 e2 : Z) :
  0 < m1 -> 0 < m2 ->
  let '(q, e', l) := SFdiv_core_binary prec emax m1 e1 m2 e2 in
  0 <= q /\ e' <= Z.max (Zdigits2 q + e' - 53) (-1074).
Proof.
  intros H1 H2. unfold SFdiv_core_binary.
  set (D := Zdigits2 m1 + e1 - (Zdigits2 m2 + e2)).
  change (fexp prec emax D) with (Z.max (D - 53) (-1074)).
  set (e' := Z.min (Z.max (D - 53) (-1074)) (e1 - e2)).
  set (s := e1 - e2 - e').
  assert (Hs : 0 <= s) by (unfold s, e'; lia).
  set (m' := match s with Z.pos _ => Z.shiftl m1 s | 0 => m1 | Z.neg _ => 0 end).
  assert (Hm' : m' = m1 * 2 ^ s).
  { unfold m'. destruct s as [| p | p]; [simpl; lia | | lia].
    now rewrite Z.shiftl_mul_pow2 by lia. }
  rewrite div_eucl_div_mod. cbv zeta.
  assert (Hp : 0 < 2 ^ s) by (apply Z.pow_pos_nonneg; lia).
  assert (Hq : 0 <= m' / m2) by (apply Z.div_pos; nia).
  split; [exact Hq |].
  pose proof (Zdigits2_bounds m1 H1) as [Hlo1 _].
  pose proof (Zdigits2_bounds m2 H2) as [_ Hhi2].
  assert (Hd1 : 0 < Zdigits2 m1) by (destruct m1; simpl; lia).
  assert (Hd2 : 0 < Zdigits2 m2) by (destruct m2; simpl; lia).
  pose proof (Zdigits2_nonneg (m' / m2)) as Hdq.
  destruct (Z_lt_le_dec (Zdigits2 m1 + s - 1 - Zdigits2 m2) 0) as [Hneg | Hk].
  - unfold s, e', D in *. lia.
  - assert (Hge : 2 ^ (Zdigits2 m1 + s - 1 - Zdigits2 m2) <= m' / m2).
    { apply Z.div_le_lower_bound; [lia |].
      apply Z.le_trans with (2 ^ Zdigits2 m2 * 2 ^ (Zdigits2 m1 + s - 1 - Zdigits2 m2)).
      - apply Z.mul_le_mono_nonneg_r; [apply Z.pow_nonneg; lia | lia].
      - rewrite <- Z.pow_add_r by lia.
        replace (Zdigits2 m2 + (Zdigits2 m1 + s - 1 - Zdigits2 m2))
          with ((Zdigits2 m1 - 1) + s) by lia.
        rewrite Z.pow_add_r by lia. rewrite Hm'. nia. }
    assert (Zdigits2 m1 + s - Zdigits2 m2 <= Zdigits2 (m' / m2)).
    { destruct (Z_lt_le_dec (Zdigits2 (m' / m2)) (Zdigits2 m1 + s - Zdigits2 m2))
        as [Hlt | ]; [| lia].
      assert (m' / m2 < 2 ^ (Zdigits2 m1 + s - 1 - Zdigits2 m2))
        by (apply Zdigits2_le_iff; lia).
      lia. }
    unfold s, e', D in *. lia.
Qed.

Lemma div_valid (x y : float) : valid (div x y) = true.
Proof.
  destruct x as [sx | sx | | sx mx ex], y as [sy | sy | | sy my ey];
    try reflexivity.
  unfold div. simpl SFdiv.
  pose proof (SFdiv_core_binary_precise (Z.pos mx) ex (Z.pos my) ey) as H.
  destruct (SFdiv_core_binary prec emax (Z.pos mx) ex (Z.pos my) ey) as [[q e'] l].
  apply binary_round_aux_valid; apply H; lia.
Qed.

Lemma of_Z_valid (z : Z) : valid (of_Z z) = true.
Proof.
  assert (Hpos : forall s p, valid (binary_round prec emax s p 0) = true).
  { intros s p. unfold binary_round.
    change (Z.pos (digits2_pos p)) with (Zdigits2 (Z.pos p)).
    destruct (shl_align_spec p 0 (fexp prec emax (Zdigits2 (Z.pos p) + 0))) as [Hez Hmz].
    destruct (shl_align p 0 (fexp prec emax (Zdigits2 (Z.pos p) + 0))) as [mz ez].
    simpl fst in Hmz. simpl snd in Hez.
    change (fexp prec emax (Zdigits2 (Z.pos p) + 0))
      with (Z.max (Zdigits2 (Z.pos p) + 0 - 53) (-1074)) in Hez, Hmz.
    rewrite <- Hez in Hmz.
    apply binary_round_aux_valid; [lia |].
    rewrite Hmz, Zdigits2_mul_pow2 by lia. lia. }
  destruct z; [reflexivity | apply Hpos | apply Hpos].
Qed.

Lemma float_round_2_valid (x y : float) :
  valid x = true -> float_round_2 x = inr y -> valid y = true.
Proof.
  destruct x as [s | s | | s m e]; intros Hx H;
    try (injection H as <-; exact Hx).
  unfold float_round_2 in H.
  destruct (round_half_even_bounds (100 * Z.pos m) e ltac:(lia)) as (Hn & _).
  destruct (round_half_even (100 * Z.pos m) e) as [| n | n]; [| | lia].
  - injection H as <-. reflexivity.
  - destruct (is_inf (of_hundredths s (Z.pos n))); [discriminate |].
    injection H as <-. unfold of_hundredths.
    pose proof (SFdiv_core_binary_precise (Z.pos n) 0 100 0) as Hc.
    destruct (SFdiv_core_binary prec emax (Z.pos n) 0 100 0) as [[q e'] l].
    apply binary_round_aux_valid; apply Hc; lia.
Qed.

(** X8: for a binary64 [amount_staked], every float the calculator computes on
    the way is a binary64 value again: the converted duration, the daily
    rate, the two products, and the earnings it returns. *)
Theorem computed_floats_are_binary64
    (pool : StakingPool.t) (amount_staked : float) (duration_days : Z)
    (d : float) (st : Process) :
  valid amount_staked = true ->
  float_of_int duration_days = inr d ->
  valid d = true /\
  valid (div (div (StakingPool.apy pool) (of_Z 100)) (of_Z 365)) = true /\
  valid (mul amount_staked
           (div (div (StakingPool.apy pool) (of_Z 100)) (of_Z 365))) = true /\
  valid (mul (mul amount_staked
                (div (div (StakingPool.apy pool) (of_Z 100)) (of_Z 365))) d) = true /\
  exists res earnings,
    run_staking_simulation pool amount_staked duration_days st = (inr res, st) /\
    dict_get res "earnings" = Some (VFloat earnings) /\
    valid earnings = true.
Proof.
  intros Ha Hd.
  destruct (float_of_int_inr _ _ Hd) as (Hdz & _).
  assert (Hvd : valid d = true) by (rewrite Hdz; apply of_Z_valid).
  pose proof (div_valid (div (StakingPool.apy pool) (of_Z 100)) (of_Z 365)) as Hvr.
  pose proof (mul_valid _ _ Ha Hvr) as Hv1.
  pose proof (mul_valid _ _ Hv1 Hvd) as Hv2.
  repeat (split; [assumption |]).
  destruct (spec_earnings_total (StakingPool.apy pool) amount_staked d) as (r & Hr & _).
  rewrite run_staking_simulation_unfold, Hd, Hr.
  eexists. exists r. split; [reflexivity |]. split; [reflexivity |].
  exact (float_round_2_valid _ _ Hv2 Hr).
Qed.

(** X8 at the float nearest to 0.3, staked for 30 days. *)
Lemma computed_floats_are_binary64_witness :
  valid (S754_finite false 5404319552844595 (-54)) = true /\
  float_of_int 30 = inr (of_Z 30) /\
  valid (of_Z 30) = true /\
  exists res earnings,
    run_staking_simulation initial_eth_pool
      (S754_finite false 5404319552844595 (-54)) 30 initial_process
    = (inr res, initial_process) /\
    dict_get res "earnings" = Some (VFloat earnings) /\
    valid earnings = true.
Proof.
  destruct (computed_floats_are_binary64 initial_eth_pool
              (S754_finite false 5404319552844595 (-54)) 30 (of_Z 30) initial_process)
    as (Hd & _ & _ & _ & Hres); [vm_compute; reflexivity | vm_compute; reflexivity |].
  split; [vm_compute; reflexivity |]. split; [vm_compute; reflexivity |].
  split; [exact Hd | exact Hres].
Defined.

(** ** The endpoint and the overflow *)

(** X9: the endpoint answers 500 with OverflowError exactly when the body
    passes validation and the magnitude of its [duration_days] reaches
    [2**1024 - 2**970]; it never answers 500 with ZeroDivisionError. *)
Theorem post_simulate_staking_overflow_iff
    {Body : Type} (validate : Body -> option SimulationRequest.t)
    (body : Body) (st : Process) :
  (fst (post_simulate_staking validate body st) = Response_500 OverflowError
   <-> exists request,
         validate body = Some request /\
         int_to_float_limit <= Z.abs (SimulationRequest.duration_days request)) /\
  fst (post_simulate_staking validate body st) <> Response_500 ZeroDivisionError.
Proof.
  unfold post_simulate_staking.
  destruct (validate body) as [request |].
  - rewrite simulate_staking_yield_unfold, run_staking_simulation_unfold,
      float_of_int_spec.
    destruct (spec_earnings_total (StakingPool.apy (eth_pool st))
                (SimulationRequest.amount_staked request)
                (of_Z (SimulationRequest.duration_days request))) as (r & Hr & _).
    destruct (Z.leb_spec int_to_float_limit
                (Z.abs (SimulationRequest.duration_days request))) as [Hle | Hlt].
    + split; [| discriminate]. split; [| reflexivity].
      intros _. exists request. auto.
    + rewrite Hr. split.
      * split.
        -- destruct (json_compliant _); discriminate.
        -- intros (request' & Heq & Hle). injection Heq as <-. lia.
      * destruct (json_compliant _); discriminate.
  - split; [| discriminate]. split; [discriminate |].
    intros (request & Heq & _). discriminate.
Qed.

(** * Monotonicity *)

(** ** Rounding is monotone *)

Lemma shr_1_s (mrs : shr_record) :
  shr_s (shr_1 mrs) = shr_r mrs || shr_s mrs.
Proof. destruct mrs as [[| [p | p |] | [p | p |]] r s]; reflexivity. Qed.

Lemma shr_record_eq (a b : shr_record) :
  shr_m a = shr_m b -> shr_r a = shr_r b -> shr_s a = shr_s b -> a = b.
Proof. destruct a, b; simpl; intros; subst; reflexivity. Qed.

Lemma shr_record_of_loc_rem_r (q r w : Z) :
  0 <= r < w ->
  shr_r (shr_record_of_loc q (loc_of_rem r w)) = (w <=? 2 * r).
Proof.
  intros Hr. unfold loc_of_rem.
  destruct (Z.eqb_spec r 0) as [-> | Hne].
  - symmetry. apply Z.leb_gt. lia.
  - destruct (2 * r ?= w) eqn:Ec; cbn [shr_record_of_loc shr_r]; symmetry.
    + apply Z.compare_eq_iff in Ec. apply Z.leb_le. lia.
    + change (2 * r < w) in Ec. apply Z.leb_gt. lia.
    + change (2 * r > w) in Ec. apply Z.leb_le. lia.
Qed.

Lemma shr_record_of_loc_rem_s (q r w : Z) :
  0 <= r < w ->
  shr_s (shr_record_of_loc q (loc_of_rem r w))
  = negb (r =? 0) && negb (2 * r =? w).
Proof.
  intros Hr. unfold loc_of_rem.
  destruct (Z.eqb_spec r 0) as [-> | Hne]; [reflexivity |].
  destruct (2 * r ?= w) eqn:Ec; cbn [shr_record_of_loc shr_s negb andb]; symmetry.
  - apply Z.compare_eq_iff in Ec. apply negb_false_iff, Z.eqb_eq. lia.
  - change (2 * r < w) in Ec. apply negb_true_iff, Z.eqb_neq. lia.
  - change (2 * r > w) in Ec. apply negb_true_iff, Z.eqb_neq. lia.
Qed.

(** One more bit shifted out: the location with respect to [w] becomes the
    location with respect to [2 * w]. *)
Lemma shr_1_loc_of_rem (n w : Z) :
  0 <= n -> 0 < w ->
  shr_1 (shr_record_of_loc (n / w) (loc_of_rem (n mod w) w))
  = shr_record_of_loc (n / (2 * w)) (loc_of_rem (n mod (2 * w)) (2 * w)).
Proof.
  intros Hn Hw.
  pose proof (Z.mod_pos_bound n w Hw) as Hr.
  pose proof (Z.mod_pos_bound n (2 * w) ltac:(lia)) as Hr2.
  pose proof (Z.div_mod n w ltac:(lia)) as Hdm.
  pose proof (Z.div_mod n (2 * w) ltac:(lia)) as Hdm2.
  assert (Hq : 0 <= n / w) by (apply Z.div_pos; lia).
  assert (Hq2 : n / w / 2 = n / (2 * w)).
  { rewrite Z.div_div by lia. f_equal. lia. }
  pose proof (Z.div_mod (n / w) 2 ltac:(lia)) as Hdq.
  pose proof (Z.mod_pos_bound (n / w) 2 ltac:(lia)) as Hbq.
  pose proof (Zmod_odd (n / w)) as Hodd.
  rewrite Hq2 in Hdq.
  (* the new remainder is the old one, plus [w] when the quotient was odd *)
  assert (Hrem : n mod (2 * w) = (n / w) mod 2 * w + n mod w) by nia.
  apply shr_record_eq.
  - rewrite shr_1_m, !shr_record_of_loc_m by (rewrite shr_record_of_loc_m; exact Hq).
    exact Hq2.
  - rewrite shr_1_r, !shr_record_of_loc_m by (rewrite shr_record_of_loc_m; exact Hq).
    rewrite shr_record_of_loc_rem_r by lia. rewrite Hrem.
    destruct (Z.odd (n / w)); rewrite Hodd; symmetry;
      [apply Z.leb_le | apply Z.leb_gt]; lia.
  - rewrite shr_1_s, shr_record_of_loc_rem_r, !shr_record_of_loc_rem_s by lia.
    rewrite Hrem. clear Hrem Hdm Hdm2 Hdq Hr2.
    assert (Hc : (n / w) mod 2 = 0 \/ (n / w) mod 2 = 1) by lia.
    set (c := (n / w) mod 2) in *. set (rho := n mod w) in *.
    destruct Hc as [Hc | Hc]; rewrite Hc;
      destruct (Z.leb_spec w (2 * rho)), (Z.eqb_spec rho 0),
        (Z.eqb_spec (2 * rho) w);
      match goal with
      | |- context [?a * w + rho =? 0] =>
          destruct (Z.eqb_spec (a * w + rho) 0),
            (Z.eqb_spec (2 * (a * w + rho)) (2 * w))
      end;
      simpl; try reflexivity; exfalso; lia.
Qed.

Lemma iter_shr_1_loc_of_rem (k : nat) (n w : Z) :
  0 <= n -> 0 < w ->
  Nat.iter k shr_1 (shr_record_of_loc (n / w) (loc_of_rem (n mod w) w))
  = shr_record_of_loc (n / (w * 2 ^ Z.of_nat k))
      (loc_of_rem (n mod (w * 2 ^ Z.of_nat k)) (w * 2 ^ Z.of_nat k)).
Proof.
  intros Hn Hw. induction k as [| k IH].
  - simpl. now rewrite Z.mul_1_r.
  - rewrite Nat.iter_succ, IH.
    assert (0 < 2 ^ Z.of_nat k) by (apply Z.pow_pos_nonneg; lia).
    rewrite shr_1_loc_of_rem by nia.
    rewrite Nat2Z.inj_succ, Z.pow_succ_r by lia.
    now replace (2 * (w * 2 ^ Z.of_nat k)) with (w * (2 * 2 ^ Z.of_nat k)) by lia.
Qed.

(** Shifting [j] bits out of a quotient with its location is dividing by
    [2^j] more. *)
Lemma shr_loc_of_rem (n w e j : Z) :
  0 <= n -> 0 < w -> 0 <= j ->
  shr (shr_record_of_loc (n / w) (loc_of_rem (n mod w) w)) e j
  = (shr_record_of_loc (n / (w * 2 ^ j)) (loc_of_rem (n mod (w * 2 ^ j)) (w * 2 ^ j)),
     e + j).
Proof.
  intros Hn Hw Hj. unfold shr. destruct j as [| p | p]; [| | lia].
  - now rewrite Z.pow_0_r, Z.mul_1_r, Z.add_0_r.
  - rewrite iter_pos_nat, iter_shr_1_loc_of_rem by assumption.
    now rewrite positive_nat_Z.
Qed.

Lemma loc_of_shr_record_of_loc (m : Z) (l : location) :
  loc_of_shr_record (shr_record_of_loc m l) = l.
Proof. destruct l as [| []]; reflexivity. Qed.

(** Rounding [n / w] to the nearest integer, ties to even: the result
    reaches [K] exactly when [n / w] is above [K - 1/2], or equal to it
    with [K] even. *)
Lemma round_nearest_even_ge (n w K : Z) :
  0 <= n -> 0 < w ->
  K <= round_nearest_even (n / w) (loc_of_rem (n mod w) w)
  <-> (2 * K - 1) * w < 2 * n \/ ((2 * K - 1) * w = 2 * n /\ Z.odd (K - 1) = true).
Proof.
  intros Hn Hw.
  pose proof (Z.mod_pos_bound n w Hw) as Hr.
  pose proof (Z.div_mod n w ltac:(lia)) as Hdm.
  set (q := n / w) in *. set (r := n mod w) in *.
  assert (Hcases : K <= q \/ K = q + 1 \/ q + 2 <= K) by lia.
  unfold loc_of_rem.
  destruct (Z.eqb_spec r 0) as [E0 | Hne].
  - simpl round_nearest_even. split.
    + intros HK. left. nia.
    + intros [H | [H _]]; nia.
  - destruct (2 * r ?= w) eqn:Ec; cbn [round_nearest_even].
    + apply Z.compare_eq_iff in Ec.
      destruct Hcases as [Hc | [Hc | Hc]].
      * split; [intros _; left; nia | destruct (Z.even q); lia].
      * subst K. replace (q + 1 - 1) with q by lia. rewrite <- Z.negb_odd.
        destruct (Z.odd q); cbn [negb]; cbv iota; split; try lia.
      * split; [destruct (Z.even q); lia | intros [H | [H _]]; nia].
    + change (2 * r < w) in Ec. split.
      * intros HK. left. nia.
      * intros [H | [H _]]; nia.
    + change (2 * r > w) in Ec. split.
      * intros HK. left. nia.
      * intros [H | [H _]]; nia.
Qed.

(** Rounding to the nearest integer is monotone in the quotient. *)
Lemma round_nearest_even_mono (n w n' w' : Z) :
  0 <= n -> 0 < w -> 0 <= n' -> 0 < w' ->
  n * w' <= n' * w ->
  round_nearest_even (n / w) (loc_of_rem (n mod w) w)
  <= round_nearest_even (n' / w') (loc_of_rem (n' mod w') w').
Proof.
  intros Hn Hw Hn' Hw' Hle.
  set (R := round_nearest_even (n / w) (loc_of_rem (n mod w) w)).
  apply (round_nearest_even_ge n' w' R Hn' Hw').
  destruct (proj1 (round_nearest_even_ge n w R Hn Hw) (Z.le_refl R)) as [H | [H Ho]].
  - left. nia.
  - destruct (Z_lt_le_dec ((2 * R - 1) * w') (2 * n')) as [Hlt | Hge];
      [left; exact Hlt | right]. split; [nia | exact Ho].
Qed.

(** [binary_round_aux] on a quotient that carries enough bits: one
    rounding of [n / w] at the exponent its magnitude asks for. *)
Lemma binary_round_aux_round_result (s : bool) (n w e : Z) :
  0 <= n -> 0 < w ->
  e <= Z.max (Zdigits2 (n / w) + e - 53) (-1074) ->
  binary_round_aux prec emax s (n / w) e (loc_of_rem (n mod w) w)
  = round_result s
      (round_nearest_even
         (n / (w * 2 ^ (Z.max (Zdigits2 (n / w) + e - 53) (-1074) - e)))
         (loc_of_rem
            (n mod (w * 2 ^ (Z.max (Zdigits2 (n / w) + e - 53) (-1074) - e)))
            (w * 2 ^ (Z.max (Zdigits2 (n / w) + e - 53) (-1074) - e))))
      (Z.max (Zdigits2 (n / w) + e - 53) (-1074)).
Proof.
  intros Hn Hw Hc.
  set (E := Z.max (Zdigits2 (n / w) + e - 53) (-1074)) in *.
  set (W := w * 2 ^ (E - e)).
  assert (Hp : 0 < 2 ^ (E - e)) by (apply Z.pow_pos_nonneg; lia).
  assert (HW : 0 < W) by (unfold W; nia).
  assert (Hq : 0 <= n / w) by (apply Z.div_pos; lia).
  unfold binary_round_aux.
  change (shr_fexp prec emax (n / w) e (loc_of_rem (n mod w) w))
    with (shr (shr_record_of_loc (n / w) (loc_of_rem (n mod w) w)) e (E - e)).
  rewrite shr_loc_of_rem by lia. fold W.
  rewrite shr_record_of_loc_m, loc_of_shr_record_of_loc.
  replace (e + (E - e)) with E by lia.
  set (R := round_nearest_even (n / W) (loc_of_rem (n mod W) W)).
  (* the mantissa before rounding has at most 53 bits *)
  assert (Hm1 : 0 <= n / W < 2 ^ 53).
  { split; [apply Z.div_pos; lia |].
    assert (HnW : n / W = n / w / 2 ^ (E - e)) by (unfold W; now rewrite Z.div_div by lia).
    rewrite HnW. apply Zdigits2_le_iff; [apply Z.div_pos; lia | lia |].
    rewrite Zdigits2_div_pow2 by lia. pose proof (Zdigits2_nonneg (n / w)). lia. }
  pose proof (round_nearest_even_bounds (n / W) (loc_of_rem (n mod W) W)) as Hb.
  fold R in Hb.
  destruct (Z.eq_dec R (2 ^ 53)) as [E53 | Hne].
  - rewrite E53. unfold shr_fexp.
    change (Zdigits2 (2 ^ 53)) with 54.
    change (fexp prec emax (54 + E)) with (Z.max (54 + E - 53) (-1074)).
    replace (Z.max (54 + E - 53) (-1074) - E) with 1 by lia.
    reflexivity.
  - assert (HR : 0 <= R < 2 ^ 53) by lia.
    assert (HdR : Zdigits2 R <= 53) by (apply Zdigits2_le_iff; lia).
    unfold shr_fexp.
    change (fexp prec emax (Zdigits2 R + E)) with (Z.max (Zdigits2 R + E - 53) (-1074)).
    assert (Hsh : Z.max (Zdigits2 R + E - 53) (-1074) - E <= 0) by lia.
    unfold shr.
    destruct (Z.max (Zdigits2 R + E - 53) (-1074) - E) as [| p | p]; try lia;
      simpl shr_record_of_loc; cbn [shr_m]; unfold round_result;
      destruct R as [| r | r]; try lia; try reflexivity;
      (replace (Z.pos r =? 2 ^ 53) with false by (symmetry; apply Z.eqb_neq; lia));
      reflexivity.
Qed.

Lemma leb_zero_l (y : float) :
  is_nan y = false -> sign_bit y = false -> leb (S754_zero false) y = true.
Proof. destruct y as [[] | [] | | [] m e]; cbn; intros; congruence. Qed.

Lemma leb_finite_same_exp (m m' : positive) (e : Z) :
  (m <= m')%positive ->
  leb (S754_finite false m e) (S754_finite false m' e) = true.
Proof.
  intros H. unfold leb, SFleb. cbn [SFcompare]. rewrite Z.compare_refl.
  change (Pos.compare_cont Eq m m') with (m ?= m')%positive.
  destruct (m ?= m')%positive eqn:Ec; try reflexivity.
  apply Pos.compare_gt_iff in Ec. lia.
Qed.

Lemma leb_finite_lt_exp (m m' : positive) (e e' : Z) :
  e < e' -> leb (S754_finite false m e) (S754_finite false m' e') = true.
Proof.
  intros H. unfold leb, SFleb. cbn [SFcompare].
  apply Z.compare_lt_iff in H. now rewrite H.
Qed.

(** Results with ordered values are ordered as floats. *)
Lemma round_result_mono (R E R' E' : Z) :
  0 <= R <= 2 ^ 53 -> 0 <= R' <= 2 ^ 53 ->
  E <= E' ->
  (E = E' -> R <= R') ->
  (E < E' -> 2 ^ 52 <= R') ->
  leb (round_result false R E) (round_result false R' E') = true.
Proof.
  intros HR HR' HE Hsame Hlt. unfold round_result.
  destruct R as [| r | r]; [| | lia].
  - apply leb_zero_l.
    + destruct R' as [| r' | r']; [reflexivity | | lia].
      destruct (Z.pos r' =? 2 ^ 53); [destruct (E' + 1 <=? 971) | destruct (E' <=? 971)];
        reflexivity.
    + destruct R' as [| r' | r']; [reflexivity | | lia].
      destruct (Z.pos r' =? 2 ^ 53); [destruct (E' + 1 <=? 971) | destruct (E' <=? 971)];
        reflexivity.
  - destruct R' as [| r' | r']; [lia | | lia].
    destruct (Z.eqb_spec (Z.pos r) (2 ^ 53)) as [Er | Er],
             (Z.eqb_spec (Z.pos r') (2 ^ 53)) as [Er' | Er'].
    + (* both carry *)
      destruct (Z.leb_spec (E + 1) 971), (Z.leb_spec (E' + 1) 971);
        try reflexivity; try lia.
      destruct (Z.eq_dec E E') as [-> | Hne].
      * apply leb_finite_same_exp. lia.
      * apply leb_finite_lt_exp. lia.
    + (* only the smaller one carries: then the exponents differ *)
      assert (E < E') by (destruct (Z.eq_dec E E') as [Heq | ]; [specialize (Hsame Heq) |]; lia).
      specialize (Hlt H).
      destruct (Z.leb_spec (E + 1) 971), (Z.leb_spec E' 971);
        try reflexivity; try lia.
      destruct (Z.eq_dec (E + 1) E') as [<- | Hne].
      * apply leb_finite_same_exp. change (Z.pos (2 ^ 52)) with (2 ^ 52) in *. lia.
      * apply leb_finite_lt_exp. lia.
    + destruct (Z.leb_spec E 971), (Z.leb_spec (E' + 1) 971);
        try reflexivity; try lia.
      apply leb_finite_lt_exp. lia.
    + destruct (Z.leb_spec E 971), (Z.leb_spec E' 971);
        try reflexivity; try lia.
      destruct (Z.eq_dec E E') as [-> | Hne].
      * apply leb_finite_same_exp. specialize (Hsame eq_refl). lia.
      * apply leb_finite_lt_exp. lia.
Qed.

(** The mantissa kept by the alignment: below [2^53], and at least [2^52]
    outside the subnormal range. *)
Lemma aligned_mantissa_bounds (n w e : Z) :
  0 <= n -> 0 < w ->
  e <= Z.max (Zdigits2 (n / w) + e - 53) (-1074) ->
  let E := Z.max (Zdigits2 (n / w) + e - 53) (-1074) in
  let W := w * 2 ^ (E - e) in
  0 < W /\ 0 <= n / W < 2 ^ 53 /\ (-1074 < E -> 2 ^ 52 <= n / W).
Proof.
  intros Hn Hw Hc E W.
  assert (Hp : 0 < 2 ^ (E - e)) by (apply Z.pow_pos_nonneg; lia).
  assert (HW : 0 < W) by (unfold W; nia).
  assert (Hq : 0 <= n / w) by (apply Z.div_pos; lia).
  assert (HnW : n / W = n / w / 2 ^ (E - e)) by (unfold W; now rewrite Z.div_div by lia).
  pose proof (Zdigits2_div_pow2 (n / w) (E - e) Hq ltac:(lia)) as Hd.
  rewrite <- HnW in Hd.
  pose proof (Zdigits2_nonneg (n / w)) as Hdq.
  assert (H0 : 0 <= n / W) by (apply Z.div_pos; lia).
  split; [exact HW |]. split; [split; [exact H0 |] |].
  - apply Zdigits2_le_iff; [exact H0 | lia |]. unfold E in *. lia.
  - intros HE.
    assert (Hd53 : Zdigits2 (n / W) = 53) by (unfold E in *; lia).
    assert (0 < n / W) by (destruct (n / W); simpl in Hd53; lia).
    pose proof (Zdigits2_bounds (n / W) H) as [Hlo _].
    rewrite Hd53 in Hlo. exact Hlo.
Qed.

(** A larger quotient has at least the magnitude of a smaller one. *)
Lemma magnitude_mono (n w e n' w' e' : Z) :
  0 <= n -> 0 < w -> 0 <= n' -> 0 < w' ->
  0 < n / w ->
  n * w' * 2 ^ (e - Z.min e e') <= n' * w * 2 ^ (e' - Z.min e e') ->
  Zdigits2 (n / w) + e <= Zdigits2 (n' / w') + e'.
Proof.
  intros Hn Hw Hn' Hw' Hq Hle.
  set (c := Z.min e e') in *.
  pose proof (Zdigits2_bounds (n / w) Hq) as [Hlo _].
  assert (Hq' : 0 <= n' / w') by (apply Z.div_pos; lia).
  assert (Hhi' : n' / w' < 2 ^ Zdigits2 (n' / w')).
  { apply Zdigits2_le_iff; [exact Hq' | apply Zdigits2_nonneg | lia]. }
  pose proof (Zdigits2_nonneg (n' / w')) as Hd'.
  assert (Hd : 0 < Zdigits2 (n / w)) by (destruct (n / w); simpl; lia).
  pose proof (Z.div_mod n w ltac:(lia)) as Hdm.
  pose proof (Z.mod_pos_bound n w Hw) as Hr.
  pose proof (Z.div_mod n' w' ltac:(lia)) as Hdm'.
  pose proof (Z.mod_pos_bound n' w' Hw') as Hr'.
  set (q := n / w) in *. set (q' := n' / w') in *.
  set (A := 2 ^ (Zdigits2 q - 1)) in *. set (A' := 2 ^ Zdigits2 q') in *.
  set (B := 2 ^ (e - c)) in *. set (B' := 2 ^ (e' - c)) in *.
  assert (HA : 0 < A) by (apply Z.pow_pos_nonneg; lia).
  assert (HA' : 0 < A') by (apply Z.pow_pos_nonneg; lia).
  assert (HB : 0 < B) by (apply Z.pow_pos_nonneg; unfold c; lia).
  assert (HB' : 0 < B') by (apply Z.pow_pos_nonneg; unfold c; lia).
  assert (Hkey : A * B < A' * B').
  { assert (H1 : A * B * (w * w') <= n * w' * B).
    { assert (A * w <= n) by nia.
      replace (A * B * (w * w')) with ((A * w) * (w' * B)) by ring.
      replace (n * w' * B) with (n * (w' * B)) by ring.
      apply Z.mul_le_mono_nonneg_r; nia. }
    assert (H2 : n' * w * B' < A' * B' * (w * w')).
    { assert (n' < A' * w') by nia.
      replace (n' * w * B') with (n' * (w * B')) by ring.
      replace (A' * B' * (w * w')) with ((A' * w') * (w * B')) by ring.
      apply Z.mul_lt_mono_pos_r; nia. }
    assert (H3 : A * B * (w * w') < A' * B' * (w * w')) by lia.
    apply Z.mul_lt_mono_pos_r in H3; [exact H3 | nia]. }
  unfold A, B, A', B' in Hkey.
  rewrite <- !Z.pow_add_r in Hkey by (unfold c; lia).
  apply Z.pow_lt_mono_r_iff in Hkey; [lia | lia | unfold c; lia].
Qed.

(** [binary_round_aux] is monotone: of two quotients that carry enough
    bits, the larger one rounds to the larger float. *)
Lemma binary_round_aux_mono (n w e n' w' e' : Z) :
  0 <= n -> 0 < w -> 0 <= n' -> 0 < w' ->
  e <= Z.max (Zdigits2 (n / w) + e - 53) (-1074) ->
  e' <= Z.max (Zdigits2 (n' / w') + e' - 53) (-1074) ->
  n * w' * 2 ^ (e - Z.min e e') <= n' * w * 2 ^ (e' - Z.min e e') ->
  leb (binary_round_aux prec emax false (n / w) e (loc_of_rem (n mod w) w))
      (binary_round_aux prec emax false (n' / w') e' (loc_of_rem (n' mod w') w'))
  = true.
Proof.
  intros Hn Hw Hn' Hw' Hc Hc' Hle.
  rewrite !binary_round_aux_round_result by assumption.
  destruct (aligned_mantissa_bounds n w e Hn Hw Hc) as (HW & Hm & _).
  destruct (aligned_mantissa_bounds n' w' e' Hn' Hw' Hc') as (HW' & Hm' & Hnorm').
  cbv zeta in *.
  set (E := Z.max (Zdigits2 (n / w) + e - 53) (-1074)) in *.
  set (E' := Z.max (Zdigits2 (n' / w') + e' - 53) (-1074)) in *.
  set (W := w * 2 ^ (E - e)) in *. set (W' := w' * 2 ^ (E' - e')) in *.
  pose proof (round_nearest_even_bounds (n / W) (loc_of_rem (n mod W) W)) as Hb.
  pose proof (round_nearest_even_bounds (n' / W') (loc_of_rem (n' mod W') W')) as Hb'.
  assert (HE : E <= E').
  { assert (Hq : 0 <= n / w) by (apply Z.div_pos; lia).
    destruct (Z.eq_dec (n / w) 0) as [E0 | Hne].
    - unfold E, E' in *. rewrite E0 in *. simpl Zdigits2 in *. lia.
    - pose proof (magnitude_mono n w e n' w' e' Hn Hw Hn' Hw' ltac:(lia) Hle).
      unfold E, E'. lia. }
  apply round_result_mono; try lia.
  - intros Heq. apply round_nearest_even_mono; try lia.
    (* scale the order of the values to the common exponent *)
    unfold W, W'. rewrite <- Heq.
    set (c := Z.min e e') in *.
    set (t := E - e - e' + c).
    assert (Ht : 0 <= t) by (unfold t, c; lia).
    replace (E - e') with ((e - c) + t) by (unfold t; lia).
    replace (E - e) with ((e' - c) + t) by (unfold t; lia).
    rewrite !Z.pow_add_r by (unfold c; lia).
    assert (0 < 2 ^ t) by (apply Z.pow_pos_nonneg; lia).
    replace (n * (w' * (2 ^ (e - c) * 2 ^ t))) with (n * w' * 2 ^ (e - c) * 2 ^ t) by ring.
    replace (n' * (w * (2 ^ (e' - c) * 2 ^ t))) with (n' * w * 2 ^ (e' - c) * 2 ^ t) by ring.
    apply Z.mul_le_mono_nonneg_r; lia.
Qed.

Lemma binary_round_aux_mono_exact (m e m' e' : Z) :
  0 <= m -> 0 <= m' ->
  e <= Z.max (Zdigits2 m + e - 53) (-1074) ->
  e' <= Z.max (Zdigits2 m' + e' - 53) (-1074) ->
  m * 2 ^ (e - Z.min e e') <= m' * 2 ^ (e' - Z.min e e') ->
  leb (binary_round_aux prec emax false m e loc_Exact)
      (binary_round_aux prec emax false m' e' loc_Exact) = true.
Proof.
  intros Hm Hm' Hc Hc' Hle.
  pose proof (binary_round_aux_mono m 1 e m' 1 e') as H.
  rewrite !Z.div_1_r, !Z.mod_1_r in H.
  change (loc_of_rem 0 1) with loc_Exact in H.
  apply H; try assumption; lia.
Qed.

(** The order of two binary64 values, read on mantissas and exponents. *)
Lemma leb_valid_value (m m' : positive) (e e' : Z) :
  valid (S754_finite false m e) = true ->
  valid (S754_finite false m' e') = true ->
  leb (S754_finite false m e) (S754_finite false m' e') = true ->
  Z.pos m * 2 ^ (e - Z.min e e') <= Z.pos m' * 2 ^ (e' - Z.min e e').
Proof.
  intros Hv Hv' Hle.
  pose proof (valid_finite_canonical _ _ _ Hv) as Hcan.
  pose proof (valid_finite_canonical _ _ _ Hv') as Hcan'.
  destruct (valid_finite_bounds _ _ _ Hv) as [Hd _].
  assert (Hm : Z.pos m < 2 ^ 53) by (apply Zdigits2_le_iff; lia).
  unfold leb, SFleb in Hle. cbn [SFcompare] in Hle.
  destruct (e ?= e') eqn:Ec.
  - apply Z.compare_eq_iff in Ec. subst e'.
    rewrite Z.min_id, Z.sub_diag, Z.pow_0_r, !Z.mul_1_r.
    change (Pos.compare_cont Eq m m') with (m ?= m')%positive in Hle.
    destruct (m ?= m')%positive eqn:Em; try discriminate.
    + apply Pos.compare_eq_iff in Em. subst. lia.
    + assert (Z.pos m < Z.pos m') by (apply Pos2Z.pos_lt_pos; exact Em). lia.
  - change (e < e') in Ec. rewrite Z.min_l by lia.
    rewrite Z.sub_diag, Z.pow_0_r, Z.mul_1_r.
    assert (Hd' : Zdigits2 (Z.pos m') = 53) by lia.
    pose proof (Zdigits2_bounds (Z.pos m') ltac:(lia)) as [Hlo' _].
    rewrite Hd' in Hlo'. change (2 ^ (53 - 1)) with (2 ^ 52) in Hlo'.
    assert (2 ^ 1 <= 2 ^ (e' - e)) by (apply Z.pow_le_mono_r; lia).
    change (2 ^ 1) with 2 in *. nia.
  - discriminate.
Qed.

(** The product mantissa of two binary64 values carries enough bits. *)
Lemma mul_precise (sx sy : bool) (mx my : positive) (ex ey : Z) :
  valid (S754_finite sx mx ex) = true -> valid (S754_finite sy my ey) = true ->
  ex + ey <= Z.max (Zdigits2 (Z.pos (mx * my)) + (ex + ey) - 53) (-1074).
Proof.
  intros Hx Hy. apply valid_finite_canonical in Hx, Hy.
  rewrite Pos2Z.inj_mul.
  pose proof (Zdigits2_mul_ge (Z.pos mx) (Z.pos my) ltac:(lia) ltac:(lia)).
  assert (0 < Zdigits2 (Z.pos mx)) by (simpl; lia).
  assert (0 < Zdigits2 (Z.pos my)) by (simpl; lia).
  lia.
Qed.

Lemma leb_inf_r (r : float) :
  is_nan r = false -> leb r (S754_infinity false) = true.
Proof. destruct r as [[] | [] | | [] m e]; cbn; intros; congruence. Qed.

(** Multiplying by a nonnegative float is monotone on nonnegative floats. *)
Lemma mul_mono_l (x x' y : float) :
  valid x = true -> valid x' = true -> valid y = true ->
  is_nan x = false -> is_nan x' = false ->
  sign_bit x = false -> sign_bit x' = false -> sign_bit y = false ->
  is_finite y = true ->
  (is_zero y = true -> is_finite x' = true) ->
  leb x x' = true ->
  leb (mul x y) (mul x' y) = true.
Proof.
  intros Hvx Hvx' Hvy Hnx Hnx' Hsx Hsx' Hsy Hfy Hzy Hle.
  destruct y as [sy | sy | | sy my ey]; try discriminate; simpl in Hsy; subst sy.
  - (* y is zero: both products are zero *)
    specialize (Hzy eq_refl).
    destruct x as [sx | sx | | sx mx ex], x' as [sx' | sx' | | sx' mx' ex'];
      try discriminate; simpl in Hsx, Hsx'; subst; try reflexivity;
      cbn in Hle; discriminate.
  - assert (Hy : forall z, is_nan z = false -> sign_bit z = false ->
                  is_nan (mul z (S754_finite false my ey)) = false /\
                  sign_bit (mul z (S754_finite false my ey)) = false).
    { intros z Hz Hs.
      destruct (mul_sign_nonzero z (S754_finite false my ey) Hz eq_refl eq_refl)
        as [Hn Hsg].
      split; [exact Hn |]. now rewrite Hsg, Hs. }
    destruct (Hy x' Hnx' Hsx') as [Hn' Hs'].
    destruct (Hy x Hnx Hsx) as [Hn _].
    destruct x as [sx | sx | | sx mx ex]; try discriminate; simpl in Hsx; subst sx.
    + (* x is zero *)
      change (mul (S754_zero false) (S754_finite false my ey)) with (S754_zero false).
      now apply leb_zero_l.
    + (* x is an infinity: so is x' *)
      destruct x' as [sx' | sx' | | sx' mx' ex']; try discriminate;
        simpl in Hsx'; subst; try reflexivity; cbn in Hle; discriminate.
    + destruct x' as [sx' | sx' | | sx' mx' ex']; try discriminate;
        simpl in Hsx'; subst sx'; try (cbn in Hle; discriminate).
      * change (mul (S754_infinity false) (S754_finite false my ey))
          with (S754_infinity false).
        now apply leb_inf_r.
      * unfold mul. cbn [SFmul xorb].
        apply binary_round_aux_mono_exact; try lia.
        -- now apply (mul_precise false false).
        -- now apply (mul_precise false false).
        -- pose proof (leb_valid_value _ _ _ _ Hvx Hvx' Hle) as Hval.
           replace (Z.min (ex + ey) (ex' + ey)) with (Z.min ex ex' + ey) by lia.
           replace (ex + ey - (Z.min ex ex' + ey)) with (ex - Z.min ex ex') by lia.
           replace (ex' + ey - (Z.min ex ex' + ey)) with (ex' - Z.min ex ex') by lia.
           rewrite !Pos2Z.inj_mul. nia.
Qed.

Lemma mul_comm (x y : float) : mul x y = mul y x.
Proof.
  destruct x as [sx | sx | | sx mx ex], y as [sy | sy | | sy my ey];
    unfold mul; cbn [SFmul]; rewrite ?(xorb_comm sx sy); try reflexivity.
  now rewrite Pos.mul_comm, Z.add_comm.
Qed.

Lemma mul_mono_r (x y y' : float) :
  valid x = true -> valid y = true -> valid y' = true ->
  is_nan y = false -> is_nan y' = false ->
  sign_bit x = false -> sign_bit y = false -> sign_bit y' = false ->
  is_finite x = true ->
  (is_zero x = true -> is_finite y' = true) ->
  leb y y' = true ->
  leb (mul x y) (mul x y') = true.
Proof.
  intros. rewrite (mul_comm x y), (mul_comm x y'). now apply mul_mono_l.
Qed.

(** ** Rounding to two decimals is monotone *)

Lemma round_half_even_as_quotient (n e : Z) :
  0 <= n ->
  round_half_even n e
  = round_nearest_even
      (n * 2 ^ Z.max e 0 / 2 ^ Z.max (- e) 0)
      (loc_of_rem ((n * 2 ^ Z.max e 0) mod 2 ^ Z.max (- e) 0) (2 ^ Z.max (- e) 0)).
Proof.
  intros Hn. unfold round_half_even. destruct e as [| p | p].
  - change (- 0) with 0. change (Z.max 0 0) with 0.
    rewrite Z.pow_0_r, Z.mul_1_r, Z.div_1_r, Z.mod_1_r. reflexivity.
  - rewrite (Z.max_l (Z.pos p) 0), (Z.max_r (- Z.pos p) 0) by lia.
    rewrite (Z.pow_0_r 2), Z.div_1_r, Z.mod_1_r. reflexivity.
  - rewrite (Z.max_r (Z.neg p) 0) by lia.
    change (- Z.neg p) with (Z.pos p). rewrite (Z.max_l (Z.pos p) 0) by lia.
    rewrite Z.pow_0_r, Z.mul_1_r.
    change (Z.pow_pos 2 p) with (2 ^ Z.pos p).
    unfold loc_of_rem.
    assert (Hd : 0 < 2 ^ Z.pos p) by (apply Z.pow_pos_nonneg; lia).
    destruct (Z.eqb_spec (n mod 2 ^ Z.pos p) 0) as [E0 | Hne].
    + assert (Hlt : (2 * (n mod 2 ^ Z.pos p) ?= 2 ^ Z.pos p) = Lt)
        by (apply Z.compare_lt_iff; lia).
      rewrite Hlt. reflexivity.
    + destruct (2 * (n mod 2 ^ Z.pos p) ?= 2 ^ Z.pos p); reflexivity.
Qed.

Lemma round_half_even_mono (n e n' e' : Z) :
  0 <= n -> 0 <= n' ->
  n * 2 ^ (e - Z.min e e') <= n' * 2 ^ (e' - Z.min e e') ->
  round_half_even n e <= round_half_even n' e'.
Proof.
  intros Hn Hn' Hle.
  rewrite !round_half_even_as_quotient by assumption.
  assert (Hp : forall k, 0 < 2 ^ Z.max k 0) by (intros k; apply Z.pow_pos_nonneg; lia).
  apply round_nearest_even_mono; try apply Hp;
    try (apply Z.mul_nonneg_nonneg; [assumption | apply Z.lt_le_incl, Hp]).
  set (c := Z.min e e') in *.
  set (t := c + Z.max (- e) 0 + Z.max (- e') 0).
  assert (Ht : 0 <= t) by (unfold t, c; lia).
  assert (H1 : 2 ^ Z.max e 0 * 2 ^ Z.max (- e') 0 = 2 ^ (e - c) * 2 ^ t).
  { rewrite <- !Z.pow_add_r by (unfold c; lia). f_equal. unfold t. lia. }
  assert (H2 : 2 ^ Z.max e' 0 * 2 ^ Z.max (- e) 0 = 2 ^ (e' - c) * 2 ^ t).
  { rewrite <- !Z.pow_add_r by (unfold c; lia). f_equal. unfold t. lia. }
  replace (n * 2 ^ Z.max e 0 * 2 ^ Z.max (- e') 0)
    with (n * (2 ^ Z.max e 0 * 2 ^ Z.max (- e') 0)) by ring.
  replace (n' * 2 ^ Z.max e' 0 * 2 ^ Z.max (- e) 0)
    with (n' * (2 ^ Z.max e' 0 * 2 ^ Z.max (- e) 0)) by ring.
  rewrite H1, H2.
  assert (0 < 2 ^ t) by (apply Z.pow_pos_nonneg; lia).
  replace (n * (2 ^ (e - c) * 2 ^ t)) with (n * 2 ^ (e - c) * 2 ^ t) by ring.
  replace (n' * (2 ^ (e' - c) * 2 ^ t)) with (n' * 2 ^ (e' - c) * 2 ^ t) by ring.
  apply Z.mul_le_mono_nonneg_r; lia.
Qed.

(** The quotient [n / 100] as [SFdiv_core_binary] prepares it. *)
Lemma SFdiv_core_binary_100 (n : Z) :
  0 < n ->
  exists N e,
    SFdiv_core_binary prec emax n 0 100 0
    = (N / 100, e, loc_of_rem (N mod 100) 100) /\
    e <= 0 /\ N = n * 2 ^ (- e) /\
    e <= Z.max (Zdigits2 (N / 100) + e - 53) (-1074).
Proof.
  intros Hn.
  pose proof (SFdiv_core_binary_precise n 0 100 0 Hn ltac:(lia)) as Hprec.
  unfold SFdiv_core_binary in *.
  set (e' := Z.min (fexp prec emax (Zdigits2 n + 0 - (Zdigits2 100 + 0))) (0 - 0)) in *.
  set (s := 0 - 0 - e') in *.
  assert (Hs : 0 <= s) by (unfold s, e'; lia).
  set (m' := match s with Z.pos _ => Z.shiftl n s | 0 => n | Z.neg _ => 0 end) in *.
  assert (Hm' : m' = n * 2 ^ s).
  { unfold m'. destruct s as [| p | p]; [rewrite Z.pow_0_r; lia | | lia].
    now rewrite Z.shiftl_mul_pow2 by lia. }
  rewrite div_eucl_div_mod in *. cbv zeta in Hprec.
  exists m', e'. split; [reflexivity |].
  split; [unfold e'; lia |]. split; [rewrite Hm'; f_equal; f_equal; unfold s; lia |].
  apply Hprec.
Qed.

Lemma of_hundredths_mono (n n' : Z) :
  0 < n <= n' ->
  leb (of_hundredths false n) (of_hundredths false n') = true.
Proof.
  intros Hn. unfold of_hundredths.
  destruct (SFdiv_core_binary_100 n ltac:(lia)) as (N & e & -> & He & HN & Hc).
  destruct (SFdiv_core_binary_100 n' ltac:(lia)) as (N' & e' & -> & He' & HN' & Hc').
  assert (Hp : 0 < 2 ^ (- e)) by (apply Z.pow_pos_nonneg; lia).
  assert (Hp' : 0 < 2 ^ (- e')) by (apply Z.pow_pos_nonneg; lia).
  apply binary_round_aux_mono; try assumption; try lia; try nia.
  set (c := Z.min e e').
  assert (H1 : N * 2 ^ (e - c) = n * 2 ^ (- c)).
  { rewrite HN, <- Z.mul_assoc, <- Z.pow_add_r by (unfold c; lia).
    do 2 f_equal. lia. }
  assert (H2 : N' * 2 ^ (e' - c) = n' * 2 ^ (- c)).
  { rewrite HN', <- Z.mul_assoc, <- Z.pow_add_r by (unfold c; lia).
    do 2 f_equal. lia. }
  replace (N * 100 * 2 ^ (e - c)) with (N * 2 ^ (e - c) * 100) by ring.
  replace (N' * 100 * 2 ^ (e' - c)) with (N' * 2 ^ (e' - c) * 100) by ring.
  rewrite H1, H2.
  assert (0 < 2 ^ (- c)) by (apply Z.pow_pos_nonneg; unfold c; lia).
  nia.
Qed.

Lemma of_hundredths_shape (n : Z) :
  0 < n ->
  is_nan (of_hundredths false n) = false /\
  sign_bit (of_hundredths false n) = false.
Proof.
  intros Hn. unfold of_hundredths.
  pose proof (SFdiv_core_binary_bound n 0 100 0 Hn ltac:(lia)) as H.
  destruct (SFdiv_core_binary prec emax n 0 100 0) as [[q e'] l].
  destruct H as (Hq & _).
  split; [apply binary_round_aux_shape | apply binary_round_aux_sign]; exact Hq.
Qed.

(** [round(x, 2)] is monotone on nonnegative floats. *)
Lemma float_round_2_mono (x x' y y' : float) :
  valid x = true -> valid x' = true ->
  is_nan x = false -> is_nan x' = false ->
  sign_bit x = false -> sign_bit x' = false ->
  leb x x' = true ->
  float_round_2 x = inr y -> float_round_2 x' = inr y' ->
  leb y y' = true.
Proof.
  intros Hvx Hvx' Hnx Hnx' Hsx Hsx' Hle Hy Hy'.
  assert (Hshape : forall m e z,
             float_round_2 (S754_finite false m e) = inr z ->
             is_nan z = false /\ sign_bit z = false).
  { intros m e z Hz. unfold float_round_2 in Hz.
    destruct (round_half_even_bounds (100 * Z.pos m) e ltac:(lia)) as (Hn & _).
    destruct (round_half_even (100 * Z.pos m) e) as [| n | n]; [| | lia].
    - injection Hz as <-. split; reflexivity.
    - destruct (is_inf (of_hundredths false (Z.pos n))); [discriminate |].
      injection Hz as <-. apply of_hundredths_shape. lia. }
  destruct x as [sx | sx | | sx m e]; try discriminate; simpl in Hsx; subst sx.
  - (* x is zero *)
    injection Hy as <-.
    destruct x' as [sx' | sx' | | sx' m' e']; try discriminate;
      simpl in Hsx'; subst sx'.
    + now injection Hy' as <-.
    + now injection Hy' as <-.
    + apply leb_zero_l; now apply (Hshape m' e').
  - (* x is an infinity *)
    injection Hy as <-.
    destruct x' as [sx' | sx' | | sx' m' e']; try discriminate;
      simpl in Hsx'; subst sx'; try (cbn in Hle; discriminate).
    now injection Hy' as <-.
  - destruct x' as [sx' | sx' | | sx' m' e']; try discriminate;
      simpl in Hsx'; subst sx'; try (cbn in Hle; discriminate).
    + (* x' is an infinity *)
      injection Hy' as <-. apply leb_inf_r. now apply (Hshape m e).
    + pose proof (leb_valid_value _ _ _ _ Hvx Hvx' Hle) as Hval.
      assert (Hrhe : round_half_even (100 * Z.pos m) e
                     <= round_half_even (100 * Z.pos m') e')
        by (apply round_half_even_mono; lia).
      destruct (Hshape m' e' y' Hy') as [Hn' Hs'].
      unfold float_round_2 in Hy, Hy'.
      destruct (round_half_even_bounds (100 * Z.pos m) e ltac:(lia)) as (Hn & _).
      destruct (round_half_even (100 * Z.pos m) e) as [| n | n]; [| | lia].
      * injection Hy as <-. now apply leb_zero_l.
      * destruct (round_half_even (100 * Z.pos m') e') as [| n' | n']; try lia.
        destruct (is_inf (of_hundredths false (Z.pos n))); [discriminate |].
        destruct (is_inf (of_hundredths false (Z.pos n'))); [discriminate |].
        injection Hy as <-. injection Hy' as <-.
        apply of_hundredths_mono. lia.
Qed.

(** ** Converting an integer is monotone *)

Lemma of_Z_mono (z z' : Z) :
  0 <= z <= z' -> leb (of_Z z) (of_Z z') = true.
Proof.
  intros Hz.
  assert (Hshape : forall p, is_nan (of_Z (Z.pos p)) = false /\
                             sign_bit (of_Z (Z.pos p)) = false).
  { intros p. destruct (of_Z_shape (Z.pos p)) as (Hn & _ & Hs). auto. }
  destruct z as [| p | p]; [| | lia].
  - destruct z' as [| p' | p']; [reflexivity | | lia].
    apply leb_zero_l; apply Hshape.
  - destruct z' as [| p' | p']; [lia | | lia].
    unfold of_Z, binary_normalize, binary_round.
    change (Z.pos (digits2_pos p)) with (Zdigits2 (Z.pos p)).
    change (Z.pos (digits2_pos p')) with (Zdigits2 (Z.pos p')).
    destruct (shl_align_spec p 0 (fexp prec emax (Zdigits2 (Z.pos p) + 0))) as [Hez Hmz].
    destruct (shl_align p 0 (fexp prec emax (Zdigits2 (Z.pos p) + 0))) as [mz ez].
    destruct (shl_align_spec p' 0 (fexp prec emax (Zdigits2 (Z.pos p') + 0))) as [Hez' Hmz'].
    destruct (shl_align p' 0 (fexp prec emax (Zdigits2 (Z.pos p') + 0))) as [mz' ez'].
    simpl fst in Hmz, Hmz'. simpl snd in Hez, Hez'.
    change (fexp prec emax (Zdigits2 (Z.pos p) + 0))
      with (Z.max (Zdigits2 (Z.pos p) + 0 - 53) (-1074)) in Hez, Hmz.
    change (fexp prec emax (Zdigits2 (Z.pos p') + 0))
      with (Z.max (Zdigits2 (Z.pos p') + 0 - 53) (-1074)) in Hez', Hmz'.
    rewrite <- Hez in Hmz. rewrite <- Hez' in Hmz'.
    assert (Hd : Zdigits2 (Z.pos mz) = Zdigits2 (Z.pos p) - ez)
      by (rewrite Hmz, Zdigits2_mul_pow2 by lia; lia).
    assert (Hd' : Zdigits2 (Z.pos mz') = Zdigits2 (Z.pos p') - ez')
      by (rewrite Hmz', Zdigits2_mul_pow2 by lia; lia).
    apply binary_round_aux_mono_exact; try lia.
    set (c := Z.min ez ez').
    rewrite Hmz, Hmz', <- !Z.mul_assoc, <- !Z.pow_add_r by (unfold c; lia).
    replace (0 - ez + (ez - c)) with (- c) by lia.
    replace (0 - ez' + (ez' - c)) with (- c) by lia.
    assert (0 < 2 ^ (- c)) by (apply Z.pow_pos_nonneg; unfold c; lia).
    nia.
Qed.

(** ** The order and negation *)

Lemma SFcompare_opp (a b : float) :
  SFcompare (SFopp b) (SFopp a) = SFcompare a b.
Proof.
  destruct a as [[] | [] | | [] m e], b as [[] | [] | | [] m' e'];
    try reflexivity; cbn [SFopp SFcompare negb];
    rewrite (Z.compare_antisym e e');
    destruct (e ?= e') eqn:Ec; cbn [CompOpp]; try reflexivity.
  - change (Pos.compare_cont Eq m' m) with (m' ?= m)%positive.
    change (Pos.compare_cont Eq m m') with (m ?= m')%positive.
    now rewrite (Pos.compare_antisym m m').
  - change (Pos.compare_cont Eq m' m) with (m' ?= m)%positive.
    change (Pos.compare_cont Eq m m') with (m ?= m')%positive.
    now rewrite (Pos.compare_antisym m' m).
Qed.

Lemma leb_opp (a b : float) : leb (SFopp b) (SFopp a) = leb a b.
Proof. unfold leb, SFleb. now rewrite SFcompare_opp. Qed.

Lemma leb_neg_nonneg (a b : float) :
  is_nan a = false -> is_nan b = false ->
  sign_bit a = true -> sign_bit b = false -> leb a b = true.
Proof.
  destruct a as [[] | [] | | [] m e], b as [[] | [] | | [] m' e'];
    cbn; intros; congruence.
Qed.

Lemma leb_zeros (a b : float) :
  is_zero a = true -> is_zero b = true -> leb a b = true.
Proof. destruct a, b; cbn; intros; congruence. Qed.

Lemma leb_nonneg_neg_zero (a b : float) :
  is_finite a = true -> is_finite b = true ->
  sign_bit a = false -> sign_bit b = true -> leb a b = true ->
  is_zero a = true /\ is_zero b = true.
Proof.
  destruct a as [[] | [] | | [] m e], b as [[] | [] | | [] m' e'];
    cbn; intros; try congruence; split; reflexivity.
Qed.

Lemma valid_SFopp (x : float) : valid (SFopp x) = valid x.
Proof. now destruct x. Qed.

Lemma is_finite_SFopp (x : float) : is_finite (SFopp x) = is_finite x.
Proof. now destruct x. Qed.

Lemma is_finite_not_nan (x : float) : is_finite x = true -> is_nan x = false.
Proof. destruct x; simpl; congruence. Qed.

(** ** The earnings are monotone *)

(** With a nonnegative rate and a positive duration, a larger nonnegative
    amount earns at least as much. *)
Lemma spec_earnings_mono_amount_nonneg (apy x x' : float) (days : Z) (d r r' : float) :
  valid apy = true -> is_finite apy = true -> sign_bit apy = false ->
  valid x = true -> valid x' = true ->
  is_finite x = true -> is_finite x' = true ->
  sign_bit x = false -> sign_bit x' = false ->
  0 < days -> float_of_int days = inr d ->
  leb x x' = true ->
  spec_earnings apy x d = inr r -> spec_earnings apy x' d = inr r' ->
  leb r r' = true.
Proof.
  intros Hvapy Hfapy Hsapy Hvx Hvx' Hfx Hfx' Hsx Hsx' Hdays Hd Hle Hr Hr'.
  destruct (float_of_int_inr _ _ Hd) as (Hdz & Hfd & _ & Hsd).
  assert (Hzd : is_zero d = false) by (rewrite Hdz; apply of_Z_nonzero; lia).
  assert (Hvd : valid d = true) by (rewrite Hdz; apply of_Z_valid).
  replace (days <? 0) with false in Hsd by (symmetry; apply Z.ltb_ge; lia).
  pose proof (daily_rate_finite _ Hvapy Hfapy) as Hfr.
  pose proof (daily_rate_sign _ Hvapy Hfapy) as Hsr. rewrite Hsapy in Hsr.
  assert (Hvr : valid (spec_daily_rate apy) = true) by apply div_valid.
  unfold spec_earnings in Hr, Hr'.
  set (rate := spec_daily_rate apy) in *.
  destruct (mul_sign x rate Hfx Hfr) as [Hn1 Hs1].
  destruct (mul_sign x' rate Hfx' Hfr) as [Hn1' Hs1'].
  rewrite Hsx, Hsr in Hs1. rewrite Hsx', Hsr in Hs1'.
  assert (H1 : leb (mul x rate) (mul x' rate) = true).
  { apply mul_mono_l; auto using is_finite_not_nan. }
  destruct (mul_sign_nonzero _ d Hn1 Hfd Hzd) as [Hn2 Hs2].
  destruct (mul_sign_nonzero _ d Hn1' Hfd Hzd) as [Hn2' Hs2'].
  rewrite Hs1, Hsd in Hs2. rewrite Hs1', Hsd in Hs2'.
  assert (H2 : leb (mul (mul x rate) d) (mul (mul x' rate) d) = true).
  { apply mul_mono_l; auto using mul_valid. intros Hz. congruence. }
  eapply float_round_2_mono; [| | | | | | exact H2 | exact Hr | exact Hr'];
    auto using mul_valid.
Qed.

Lemma spec_earnings_zero_amount (apy x d r : float) :
  valid apy = true -> is_finite apy = true ->
  is_zero x = true -> is_finite d = true ->
  spec_earnings apy x d = inr r -> is_zero r = true.
Proof.
  intros Hv Hf Hz Hfd Hr. unfold spec_earnings in Hr.
  pose proof (daily_rate_finite _ Hv Hf) as Hfr.
  pose proof (mul_zero_l x _ Hz Hfr) as H1.
  pose proof (mul_zero_l _ d H1 Hfd) as H2.
  destruct (float_round_2_zero _ H2) as (y & Hy & Hzy). congruence.
Qed.

Lemma spec_earnings_sign (apy x d r : float) :
  valid apy = true -> is_finite apy = true ->
  is_finite x = true -> is_finite d = true -> is_zero d = false ->
  spec_earnings apy x d = inr r ->
  is_nan r = false /\
  sign_bit r = xorb (xorb (sign_bit x) (sign_bit apy)) (sign_bit d).
Proof.
  intros Hv Hf Hfx Hfd Hzd Hr.
  pose proof (daily_rate_finite _ Hv Hf) as Hfr.
  pose proof (daily_rate_sign _ Hv Hf) as Hsr.
  destruct (mul_sign x _ Hfx Hfr) as [Hn1 Hs1].
  destruct (mul_sign_nonzero _ d Hn1 Hfd Hzd) as [Hn2 Hs2].
  destruct (spec_earnings_total apy x d) as (r0 & Hr0 & Hnan & _ & Hsign).
  rewrite Hr in Hr0. injection Hr0 as <-.
  split; [congruence |]. now rewrite Hsign, Hs2, Hs1, Hsr.
Qed.

(** The same for amounts of any sign. *)
Lemma spec_earnings_mono_amount (apy x x' : float) (days : Z) (d r r' : float) :
  valid apy = true -> is_finite apy = true -> sign_bit apy = false ->
  valid x = true -> valid x' = true ->
  is_finite x = true -> is_finite x' = true ->
  0 < days -> float_of_int days = inr d ->
  leb x x' = true ->
  spec_earnings apy x d = inr r -> spec_earnings apy x' d = inr r' ->
  leb r r' = true.
Proof.
  intros Hvapy Hfapy Hsapy Hvx Hvx' Hfx Hfx' Hdays Hd Hle Hr Hr'.
  destruct (float_of_int_inr _ _ Hd) as (Hdz & Hfd & _ & Hsd).
  assert (Hzd : is_zero d = false) by (rewrite Hdz; apply of_Z_nonzero; lia).
  replace (days <? 0) with false in Hsd by (symmetry; apply Z.ltb_ge; lia).
  destruct (spec_earnings_sign _ _ _ _ Hvapy Hfapy Hfx Hfd Hzd Hr) as [Hnr Hsr].
  destruct (spec_earnings_sign _ _ _ _ Hvapy Hfapy Hfx' Hfd Hzd Hr') as [Hnr' Hsr'].
  rewrite Hsapy, Hsd, !xorb_false_r in Hsr, Hsr'.
  destruct (sign_bit x) eqn:Hsx, (sign_bit x') eqn:Hsx'.
  - (* both negative: mirror the nonnegative case *)
    pose proof (spec_earnings_neg_amount apy x d) as Hm.
    pose proof (spec_earnings_neg_amount apy x' d) as Hm'.
    rewrite Hr in Hm. rewrite Hr' in Hm'.
    rewrite <- (leb_opp r r').
    apply (spec_earnings_mono_amount_nonneg apy (SFopp x') (SFopp x) days d);
      rewrite ?valid_SFopp, ?is_finite_SFopp; auto.
    + rewrite sign_bit_SFopp, Hsx' by now apply is_finite_not_nan. reflexivity.
    + rewrite sign_bit_SFopp, Hsx by now apply is_finite_not_nan. reflexivity.
    + now rewrite leb_opp.
  - now apply leb_neg_nonneg.
  - destruct (leb_nonneg_neg_zero x x' Hfx Hfx' Hsx Hsx' Hle) as [Hz Hz'].
    apply leb_zeros.
    + exact (spec_earnings_zero_amount _ _ _ _ Hvapy Hfapy Hz Hfd Hr).
    + exact (spec_earnings_zero_amount _ _ _ _ Hvapy Hfapy Hz' Hfd Hr').
  - now apply (spec_earnings_mono_amount_nonneg apy x x' days d).
Qed.

(** With a nonnegative rate and a nonnegative amount, a longer positive
    duration earns at least as much. *)
Lemma spec_earnings_mono_days_nonneg
    (apy x : float) (days days' : Z) (d d' r r' : float) :
  valid apy = true -> is_finite apy = true -> sign_bit apy = false ->
  valid x = true -> is_finite x = true -> sign_bit x = false ->
  0 < days <= days' ->
  float_of_int days = inr d -> float_of_int days' = inr d' ->
  spec_earnings apy x d = inr r -> spec_earnings apy x d' = inr r' ->
  leb r r' = true.
Proof.
  intros Hvapy Hfapy Hsapy Hvx Hfx Hsx Hdays Hd Hd' Hr Hr'.
  destruct (float_of_int_inr _ _ Hd) as (Hdz & Hfd & _ & Hsd).
  destruct (float_of_int_inr _ _ Hd') as (Hdz' & Hfd' & _ & Hsd').
  assert (Hzd : is_zero d = false) by (rewrite Hdz; apply of_Z_nonzero; lia).
  assert (Hzd' : is_zero d' = false) by (rewrite Hdz'; apply of_Z_nonzero; lia).
  assert (Hvd : valid d = true) by (rewrite Hdz; apply of_Z_valid).
  assert (Hvd' : valid d' = true) by (rewrite Hdz'; apply of_Z_valid).
  replace (days <? 0) with false in Hsd by (symmetry; apply Z.ltb_ge; lia).
  replace (days' <? 0) with false in Hsd' by (symmetry; apply Z.ltb_ge; lia).
  assert (Hdd : leb d d' = true) by (rewrite Hdz, Hdz'; apply of_Z_mono; lia).
  pose proof (daily_rate_finite _ Hvapy Hfapy) as Hfr.
  pose proof (daily_rate_sign _ Hvapy Hfapy) as Hsr. rewrite Hsapy in Hsr.
  assert (Hvr : valid (spec_daily_rate apy) = true) by apply div_valid.
  unfold spec_earnings in Hr, Hr'.
  set (rate := spec_daily_rate apy) in *.
  destruct (mul_sign x rate Hfx Hfr) as [Hn1 Hs1]. rewrite Hsx, Hsr in Hs1.
  assert (Hv1 : valid (mul x rate) = true) by auto using mul_valid.
  destruct (mul_sign_nonzero _ d Hn1 Hfd Hzd) as [Hn2 Hs2].
  destruct (mul_sign_nonzero _ d' Hn1 Hfd' Hzd') as [Hn2' Hs2'].
  rewrite Hs1, Hsd in Hs2. rewrite Hs1, Hsd' in Hs2'.
  assert (H2 : leb (mul (mul x rate) d) (mul (mul x rate) d') = true).
  { destruct (is_finite (mul x rate)) eqn:Hf1.
    - apply mul_mono_r; auto using is_finite_not_nan.
    - (* the first product overflowed: both results are the infinity *)
      destruct (mul x rate) as [s1 | s1 | | s1 m1 e1]; try discriminate.
      simpl in Hs1. subst s1.
      destruct d as [sd | sd | | sd md ed]; try discriminate.
      destruct d' as [sd' | sd' | | sd' md' ed']; try discriminate.
      simpl in Hsd, Hsd'. subst sd sd'. reflexivity. }
  eapply float_round_2_mono; [| | | | | | exact H2 | exact Hr | exact Hr'];
    auto using mul_valid.
Qed.

(** The same for an amount of any sign: with a negative amount the order
    of the earnings is reversed. *)
Lemma spec_earnings_mono_days
    (apy x : float) (days days' : Z) (d d' r r' : float) :
  valid apy = true -> is_finite apy = true -> sign_bit apy = false ->
  valid x = true -> is_finite x = true ->
  0 < days <= days' ->
  float_of_int days = inr d -> float_of_int days' = inr d' ->
  spec_earnings apy x d = inr r -> spec_earnings apy x d' = inr r' ->
  (if sign_bit x then leb r' r else leb r r') = true.
Proof.
  intros Hvapy Hfapy Hsapy Hvx Hfx Hdays Hd Hd' Hr Hr'.
  destruct (sign_bit x) eqn:Hsx.
  - pose proof (spec_earnings_neg_amount apy x d) as Hm.
    pose proof (spec_earnings_neg_amount apy x d') as Hm'.
    rewrite Hr in Hm. rewrite Hr' in Hm'.
    rewrite <- (leb_opp r' r).
    apply (spec_earnings_mono_days_nonneg apy (SFopp x) days days' d d');
      rewrite ?valid_SFopp, ?is_finite_SFopp; auto.
    rewrite sign_bit_SFopp, Hsx by now apply is_finite_not_nan. reflexivity.
  - now apply (spec_earnings_mono_days_nonneg apy x days days' d d').
Qed.

(** X10: the earnings are monotone in [amount_staked].  For a pool with a
    finite nonnegative [apy] and a positive [duration_days] that converts,
    of two finite amounts, negative ones included, the larger one never
    earns less: rounding in the two products and to two decimals keeps the
    order. *)
Theorem larger_amount_never_earns_less
    (pool : StakingPool.t) (amount_staked amount_staked' : float)
    (duration_days : Z) (d : float) (st : Process) :
  valid (StakingPool.apy pool) = true ->
  is_finite (StakingPool.apy pool) = true ->
  sign_bit (StakingPool.apy pool) = false ->
  valid amount_staked = true -> valid amount_staked' = true ->
  is_finite amount_staked = true -> is_finite amount_staked' = true ->
  0 < duration_days ->
  float_of_int duration_days = inr d ->
  leb amount_staked amount_staked' = true ->
  exists res res' earnings earnings',
    run_staking_simulation pool amount_staked duration_days st = (inr res, st) /\
    run_staking_simulation pool amount_staked' duration_days st = (inr res', st) /\
    dict_get res "earnings" = Some (VFloat earnings) /\
    dict_get res' "earnings" = Some (VFloat earnings') /\
    leb earnings earnings' = true.
Proof.
  intros Hvapy Hfapy Hsapy Hvx Hvx' Hfx Hfx' Hdays Hd Hle.
  destruct (run_staking_simulation_returns pool amount_staked duration_days d st Hd)
    as (r & Hr & Hrun).
  destruct (run_staking_simulation_returns pool amount_staked' duration_days d st Hd)
    as (r' & Hr' & Hrun').
  eexists. eexists. exists r, r'.
  split; [exact Hrun |]. split; [exact Hrun' |].
  split; [reflexivity |]. split; [reflexivity |].
  now apply (spec_earnings_mono_amount (StakingPool.apy pool)
               amount_staked amount_staked' duration_days d).
Qed.

(** X10 at the hardcoded pool: 1000.0 against 2000.0 staked for 365 days. *)
Lemma larger_amount_never_earns_less_witness :
  valid (StakingPool.apy initial_eth_pool) = true /\
  is_finite (StakingPool.apy initial_eth_pool) = true /\
  sign_bit (StakingPool.apy initial_eth_pool) = false /\
  valid (of_Z 1000) = true /\ valid (of_Z 2000) = true /\
  is_finite (of_Z 1000) = true /\ is_finite (of_Z 2000) = true /\
  0 < 365 /\
  float_of_int 365 = inr (of_Z 365) /\
  leb (of_Z 1000) (of_Z 2000) = true /\
  exists res res' earnings earnings',
    run_staking_simulation initial_eth_pool (of_Z 1000) 365 initial_process
    = (inr res, initial_process) /\
    run_staking_simulation initial_eth_pool (of_Z 2000) 365 initial_process
    = (inr res', initial_process) /\
    dict_get res "earnings" = Some (VFloat earnings) /\
    dict_get res' "earnings" = Some (VFloat earnings') /\
    leb earnings earnings' = true.
Proof.
  repeat (split; [first [lia | vm_compute; reflexivity] |]).
  apply (larger_amount_never_earns_less initial_eth_pool (of_Z 1000) (of_Z 2000)
           365 (of_Z 365) initial_process);
    first [lia | vm_compute; reflexivity].
Defined.

(** X11: the earnings are monotone in [duration_days].  For a pool with a
    finite nonnegative [apy] and a finite [amount_staked], of two positive
    durations that convert, the longer one never earns less when the
    amount is nonnegative, and never earns more when it is negative. *)
Theorem longer_duration_never_earns_less
    (pool : StakingPool.t) (amount_staked : float)
    (duration_days duration_days' : Z) (d d' : float) (st : Process) :
  valid (StakingPool.apy pool) = true ->
  is_finite (StakingPool.apy pool) = true ->
  sign_bit (StakingPool.apy pool) = false ->
  valid amount_staked = true -> is_finite amount_staked = true ->
  0 < duration_days <= duration_days' ->
  float_of_int duration_days = inr d ->
  float_of_int duration_days' = inr d' ->
  exists res res' earnings earnings',
    run_staking_simulation pool amount_staked duration_days st = (inr res, st) /\
    run_staking_simulation pool amount_staked duration_days' st = (inr res', st) /\
    dict_get res "earnings" = Some (VFloat earnings) /\
    dict_get res' "earnings" = Some (VFloat earnings') /\
    (if sign_bit amount_staked
     then leb earnings' earnings
     else leb earnings earnings') = true.
Proof.
  intros Hvapy Hfapy Hsapy Hvx Hfx Hdays Hd Hd'.
  destruct (run_staking_simulation_returns pool amount_staked duration_days d st Hd)
    as (r & Hr & Hrun).
  destruct (run_staking_simulation_returns pool amount_staked duration_days' d' st Hd')
    as (r' & Hr' & Hrun').
  eexists. eexists. exists r, r'.
  split; [exact Hrun |]. split; [exact Hrun' |].
  split; [reflexivity |]. split; [reflexivity |].
  now apply (spec_earnings_mono_days (StakingPool.apy pool) amount_staked
               duration_days duration_days' d d').
Qed.

(** X11 at the hardcoded pool: 1000.0 staked for 30 against 365 days. *)
Lemma longer_duration_never_earns_less_witness :
  valid (StakingPool.apy initial_eth_pool) = true /\
  is_finite (StakingPool.apy initial_eth_pool) = true /\
  sign_bit (StakingPool.apy initial_eth_pool) = false /\
  valid (of_Z 1000) = true /\ is_finite (of_Z 1000) = true /\
  0 < 30 <= 365 /\
  float_of_int 30 = inr (of_Z 30) /\
  float_of_int 365 = inr (of_Z 365) /\
  exists res res' earnings earnings',
    run_staking_simulation initial_eth_pool (of_Z 1000) 30 initial_process
    = (inr res, initial_process) /\
    run_staking_simulation initial_eth_pool (of_Z 1000) 365 initial_process
    = (inr res', initial_process) /\
    dict_get res "earnings" = Some (VFloat earnings) /\
    dict_get res' "earnings" = Some (VFloat earnings') /\
    (if sign_bit (of_Z 1000)
     then leb earnings' earnings
     else leb earnings earnings') = true.
Proof.
  repeat (split; [first [lia | vm_compute; reflexivity] |]).
  apply (longer_duration_never_earns_less initial_eth_pool (of_Z 1000) 30 365
           (of_Z 30) (of_Z 365) initial_process);
    first [lia | vm_compute; reflexivity].
Defined.

(** ** Division is monotone *)

Lemma new_location_loc_of_rem (w r : Z) :
  new_location w r = loc_of_rem r w.
Proof.
  unfold new_location, new_location_even, new_location_odd, loc_of_rem.
  destruct (Z.even w) eqn:Hev; [reflexivity |].
  destruct (r =? 0); [reflexivity |]. f_equal.
  assert (Hodd : Z.odd w = true) by (rewrite <- Z.negb_even, Hev; reflexivity).
  apply Z.odd_spec in Hodd. destruct Hodd as [k Hk].
  destruct (Z.compare_spec (2 * r + 1) w), (Z.compare_spec (2 * r) w);
    try reflexivity; exfalso; lia.
Qed.

(** The quotient as [SFdiv_core_binary] prepares it. *)
Lemma SFdiv_core_binary_quotient (m1 e1 m2 e2 : Z) :
  0 < m1 -> 0 < m2 ->
  exists N e,
    SFdiv_core_binary prec emax m1 e1 m2 e2
    = (N / m2, e, loc_of_rem (N mod m2) m2) /\
    e <= e1 - e2 /\ N = m1 * 2 ^ (e1 - e2 - e) /\
    e <= Z.max (Zdigits2 (N / m2) + e - 53) (-1074).
Proof.
  intros H1 H2.
  pose proof (SFdiv_core_binary_precise m1 e1 m2 e2 H1 H2) as Hprec.
  unfold SFdiv_core_binary in *.
  set (e' := Z.min (fexp prec emax (Zdigits2 m1 + e1 - (Zdigits2 m2 + e2))) (e1 - e2))
    in *.
  set (s := e1 - e2 - e') in *.
  assert (Hs : 0 <= s) by (unfold s, e'; lia).
  set (m' := match s with Z.pos _ => Z.shiftl m1 s | 0 => m1 | Z.neg _ => 0 end) in *.
  assert (Hm' : m' = m1 * 2 ^ s).
  { unfold m'. destruct s as [| p | p]; [rewrite Z.pow_0_r; lia | | lia].
    now rewrite Z.shiftl_mul_pow2 by lia. }
  rewrite div_eucl_div_mod in *. cbv zeta in Hprec.
  rewrite new_location_loc_of_rem.
  exists m', e'. split; [reflexivity |].
  split; [unfold e'; lia |]. split; [exact Hm' |].
  apply Hprec.
Qed.

Lemma div_finite_shape (sx sy : bool) (mx my : positive) (ex ey : Z) :
  is_nan (div (S754_finite sx mx ex) (S754_finite sy my ey)) = false /\
  sign_bit (div (S754_finite sx mx ex) (S754_finite sy my ey)) = xorb sx sy.
Proof.
  unfold div. simpl SFdiv.
  pose proof (SFdiv_core_binary_bound (Z.pos mx) ex (Z.pos my) ey) as H.
  destruct (SFdiv_core_binary prec emax (Z.pos mx) ex (Z.pos my) ey) as [[q e'] l].
  split; [apply binary_round_aux_shape | apply binary_round_aux_sign]; apply H; lia.
Qed.

(** Dividing by a positive float is monotone on nonnegative floats. *)
Lemma div_mono_l (x x' : float) (my : positive) (ey : Z) :
  valid x = true -> valid x' = true ->
  is_nan x = false -> is_nan x' = false ->
  sign_bit x = false -> sign_bit x' = false ->
  leb x x' = true ->
  leb (div x (S754_finite false my ey)) (div x' (S754_finite false my ey)) = true.
Proof.
  intros Hvx Hvx' Hnx Hnx' Hsx Hsx' Hle.
  destruct x as [sx | sx | | sx mx ex]; try discriminate; simpl in Hsx; subst sx.
  - (* x is zero *)
    destruct x' as [sx' | sx' | | sx' mx' ex']; try discriminate;
      simpl in Hsx'; subst sx'; try reflexivity.
    apply leb_zero_l; apply div_finite_shape.
  - (* x is an infinity *)
    destruct x' as [sx' | sx' | | sx' mx' ex']; try discriminate;
      simpl in Hsx'; subst sx'; try (cbn in Hle; discriminate).
    reflexivity.
  - destruct x' as [sx' | sx' | | sx' mx' ex']; try discriminate;
      simpl in Hsx'; subst sx'; try (cbn in Hle; discriminate).
    + (* x' is an infinity *)
      apply leb_inf_r. apply div_finite_shape.
    + pose proof (leb_valid_value _ _ _ _ Hvx Hvx' Hle) as Hval.
      unfold div. simpl SFdiv.
      destruct (SFdiv_core_binary_quotient (Z.pos mx) ex (Z.pos my) ey
                  ltac:(lia) ltac:(lia)) as (N & e & -> & He & HN & Hc).
      destruct (SFdiv_core_binary_quotient (Z.pos mx') ex' (Z.pos my) ey
                  ltac:(lia) ltac:(lia)) as (N' & e' & -> & He' & HN' & Hc').
      assert (Hp : 0 < 2 ^ (ex - ey - e)) by (apply Z.pow_pos_nonneg; lia).
      assert (Hp' : 0 < 2 ^ (ex' - ey - e')) by (apply Z.pow_pos_nonneg; lia).
      apply binary_round_aux_mono; try assumption; try lia; try nia.
      set (c := Z.min e e'). set (cm := Z.min ex ex') in *.
      assert (Hcm : 0 <= cm - ey - c) by (unfold c, cm; lia).
      assert (H1 : N * 2 ^ (e - c)
                   = Z.pos mx * 2 ^ (ex - cm) * 2 ^ (cm - ey - c)).
      { rewrite HN, <- !Z.mul_assoc, <- !Z.pow_add_r by (unfold c, cm; lia).
        do 2 f_equal. lia. }
      assert (H2 : N' * 2 ^ (e' - c)
                   = Z.pos mx' * 2 ^ (ex' - cm) * 2 ^ (cm - ey - c)).
      { rewrite HN', <- !Z.mul_assoc, <- !Z.pow_add_r by (unfold c, cm; lia).
        do 2 f_equal. lia. }
      replace (N * Z.pos my * 2 ^ (e - c))
        with (N * 2 ^ (e - c) * Z.pos my) by ring.
      replace (N' * Z.pos my * 2 ^ (e' - c))
        with (N' * 2 ^ (e' - c) * Z.pos my) by ring.
      rewrite H1, H2.
      assert (0 < 2 ^ (cm - ey - c)) by (apply Z.pow_pos_nonneg; lia).
      apply Z.mul_le_mono_nonneg_r; [lia |].
      apply Z.mul_le_mono_nonneg_r; lia.
Qed.

(** A larger nonnegative annual rate gives a daily rate at least as
    large. *)
Lemma daily_rate_mono (apy apy' : float) :
  valid apy = true -> valid apy' = true ->
  is_finite apy = true -> is_finite apy' = true ->
  sign_bit apy = false -> sign_bit apy' = false ->
  leb apy apy' = true ->
  leb (spec_daily_rate apy) (spec_daily_rate apy') = true.
Proof.
  intros Hv Hv' Hf Hf' Hs Hs' Hle. unfold spec_daily_rate.
  change (of_Z 365) with (S754_finite false 6421147906211840 (-44)).
  assert (Hshape : forall a, is_finite a = true -> sign_bit a = false ->
            is_nan (div a (of_Z 100)) = false /\
            sign_bit (div a (of_Z 100)) = false).
  { intros a Hfa Hsa.
    change (of_Z 100) with (S754_finite false 7036874417766400 (-46)).
    destruct a as [s | s | | s m e]; try discriminate; simpl in Hsa; subst s.
    - split; reflexivity.
    - apply (div_finite_shape false false). }
  destruct (Hshape apy Hf Hs) as [Hn1 Hs1].
  destruct (Hshape apy' Hf' Hs') as [Hn1' Hs1'].
  apply div_mono_l; auto using div_valid.
  change (of_Z 100) with (S754_finite false 7036874417766400 (-46)).
  apply div_mono_l; auto using is_finite_not_nan.
Qed.

(** With a nonnegative amount and a positive duration, a larger
    nonnegative annual rate earns at least as much. *)
Lemma spec_earnings_mono_apy_nonneg
    (apy apy' x : float) (days : Z) (d r r' : float) :
  valid apy = true -> valid apy' = true ->
  is_finite apy = true -> is_finite apy' = true ->
  sign_bit apy = false -> sign_bit apy' = false ->
  valid x = true -> is_finite x = true -> sign_bit x = false ->
  0 < days -> float_of_int days = inr d ->
  leb apy apy' = true ->
  spec_earnings apy x d = inr r -> spec_earnings apy' x d = inr r' ->
  leb r r' = true.
Proof.
  intros Hv Hv' Hf Hf' Hs Hs' Hvx Hfx Hsx Hdays Hd Hle Hr Hr'.
  destruct (float_of_int_inr _ _ Hd) as (Hdz & Hfd & _ & Hsd).
  assert (Hzd : is_zero d = false) by (rewrite Hdz; apply of_Z_nonzero; lia).
  assert (Hvd : valid d = true) by (rewrite Hdz; apply of_Z_valid).
  replace (days <? 0) with false in Hsd by (symmetry; apply Z.ltb_ge; lia).
  pose proof (daily_rate_finite _ Hv Hf) as Hfr.
  pose proof (daily_rate_finite _ Hv' Hf') as Hfr'.
  pose proof (daily_rate_sign _ Hv Hf) as Hsr. rewrite Hs in Hsr.
  pose proof (daily_rate_sign _ Hv' Hf') as Hsr'. rewrite Hs' in Hsr'.
  pose proof (daily_rate_mono _ _ Hv Hv' Hf Hf' Hs Hs' Hle) as Hrate.
  assert (Hvr : valid (spec_daily_rate apy) = true) by apply div_valid.
  assert (Hvr' : valid (spec_daily_rate apy') = true) by apply div_valid.
  unfold spec_earnings in Hr, Hr'.
  set (rate := spec_daily_rate apy) in *. set (rate' := spec_daily_rate apy') in *.
  destruct (mul_sign x rate Hfx Hfr) as [Hn1 Hs1].
  destruct (mul_sign x rate' Hfx Hfr') as [Hn1' Hs1'].
  rewrite Hsx, Hsr in Hs1. rewrite Hsx, Hsr' in Hs1'.
  assert (H1 : leb (mul x rate) (mul x rate') = true).
  { apply mul_mono_r; auto using is_finite_not_nan. }
  destruct (mul_sign_nonzero _ d Hn1 Hfd Hzd) as [Hn2 Hs2].
  destruct (mul_sign_nonzero _ d Hn1' Hfd Hzd) as [Hn2' Hs2'].
  rewrite Hs1, Hsd in Hs2. rewrite Hs1', Hsd in Hs2'.
  assert (H2 : leb (mul (mul x rate) d) (mul (mul x rate') d) = true).
  { apply mul_mono_l; auto using mul_valid. intros Hz. congruence. }
  eapply float_round_2_mono; [| | | | | | exact H2 | exact Hr | exact Hr'];
    auto using mul_valid.
Qed.

(** The same for an amount of any sign: with a negative amount the order
    of the earnings is reversed. *)
Lemma spec_earnings_mono_apy
    (apy apy' x : float) (days : Z) (d r r' : float) :
  valid apy = true -> valid apy' = true ->
  is_finite apy = true -> is_finite apy' = true ->
  sign_bit apy = false -> sign_bit apy' = false ->
  valid x = true -> is_finite x = true ->
  0 < days -> float_of_int days = inr d ->
  leb apy apy' = true ->
  spec_earnings apy x d = inr r -> spec_earnings apy' x d = inr r' ->
  (if sign_bit x then leb r' r else leb r r') = true.
Proof.
  intros Hv Hv' Hf Hf' Hs Hs' Hvx Hfx Hdays Hd Hle Hr Hr'.
  destruct (sign_bit x) eqn:Hsx.
  - pose proof (spec_earnings_neg_amount apy x d) as Hm.
    pose proof (spec_earnings_neg_amount apy' x d) as Hm'.
    rewrite Hr in Hm. rewrite Hr' in Hm'.
    rewrite <- (leb_opp r' r).
    apply (spec_earnings_mono_apy_nonneg apy apy' (SFopp x) days d);
      rewrite ?valid_SFopp, ?is_finite_SFopp; auto.
    rewrite sign_bit_SFopp, Hsx by now apply is_finite_not_nan. reflexivity.
  - now apply (spec_earnings_mono_apy_nonneg apy apy' x days d).
Qed.

(** X12: the earnings are monotone in the pool's [apy].  Of two pools with
    finite nonnegative rates, for the same finite [amount_staked] and the
    same positive [duration_days] that converts, the pool with the larger
    [apy] never earns less when the amount is nonnegative, and never earns
    more when it is negative. *)
Theorem larger_apy_never_earns_less
    (pool pool' : StakingPool.t) (amount_staked : float)
    (duration_days : Z) (d : float) (st : Process) :
  valid (StakingPool.apy pool) = true ->
  valid (StakingPool.apy pool') = true ->
  is_finite (StakingPool.apy pool) = true ->
  is_finite (StakingPool.apy pool') = true ->
  sign_bit (StakingPool.apy pool) = false ->
  sign_bit (StakingPool.apy pool') = false ->
  valid amount_staked = true -> is_finite amount_staked = true ->
  0 < duration_days ->
  float_of_int duration_days = inr d ->
  leb (StakingPool.apy pool) (StakingPool.apy pool') = true ->
  exists res res' earnings earnings',
    run_staking_simulation pool amount_staked duration_days st = (inr res, st) /\
    run_staking_simulation pool' amount_staked duration_days st = (inr res', st) /\
    dict_get res "earnings" = Some (VFloat earnings) /\
    dict_get res' "earnings" = Some (VFloat earnings') /\
    (if sign_bit amount_staked
     then leb earnings' earnings
     else leb earnings earnings') = true.
Proof.
  intros Hv Hv' Hf Hf' Hs Hs' Hvx Hfx Hdays Hd Hle.
  destruct (run_staking_simulation_returns pool amount_staked duration_days d st Hd)
    as (r & Hr & Hrun).
  destruct (run_staking_simulation_returns pool' amount_staked duration_days d st Hd)
    as (r' & Hr' & Hrun').
  eexists. eexists. exists r, r'.
  split; [exact Hrun |]. split; [exact Hrun' |].
  split; [reflexivity |]. split; [reflexivity |].
  now apply (spec_earnings_mono_apy (StakingPool.apy pool) (StakingPool.apy pool')
               amount_staked duration_days d).
Qed.

(** X12 at the hardcoded pool against the same pool with [apy = 30]. *)
Lemma larger_apy_never_earns_less_witness :
  let pool' := with_apy initial_eth_pool (of_Z 30) in
  valid (StakingPool.apy initial_eth_pool) = true /\
  valid (StakingPool.apy pool') = true /\
  is_finite (StakingPool.apy initial_eth_pool) = true /\
  is_finite (StakingPool.apy pool') = true /\
  sign_bit (StakingPool.apy initial_eth_pool) = false /\
  sign_bit (StakingPool.apy pool') = false /\
  valid (of_Z 1000) = true /\ is_finite (of_Z 1000) = true /\
  0 < 365 /\
  float_of_int 365 = inr (of_Z 365) /\
  leb (StakingPool.apy initial_eth_pool) (StakingPool.apy pool') = true /\
  exists res res' earnings earnings',
    run_staking_simulation initial_eth_pool (of_Z 1000) 365 initial_process
    = (inr res, initial_process) /\
    run_staking_simulation pool' (of_Z 1000) 365 initial_process
    = (inr res', initial_process) /\
    dict_get res "earnings" = Some (VFloat earnings) /\
    dict_get res' "earnings" = Some (VFloat earnings') /\
    (if sign_bit (of_Z 1000)
     then leb earnings' earnings
     else leb earnings earnings') = true.
Proof.
  cbv zeta.
  repeat (split; [first [lia | vm_compute; reflexivity] |]).
  apply (larger_apy_never_earns_less initial_eth_pool
           (with_apy initial_eth_pool (of_Z 30)) (of_Z 1000)
           365 (of_Z 365) initial_process);
    first [lia | vm_compute; reflexivity].
Defined.
